(** * Lineage visualizer: graph construction, layout and viewport

    A shallow embedding of [LineageHelper.visualize_lineage]
    (src/notebook_extras/lineage.py) and the properties of its graph
    construction, column layout and viewport computation.

    Modelling choices.
    - A DataFrame is the list of its [(index label, row)] pairs in positional
      order, which is what [df.iterrows()] yields; [df.iloc[0]] is the head.
    - The DISTANCE column holds integers ([Z]); coordinates computed with
      true division are exact rationals ([Q]).  The values [np.linspace]
      produces here are half-integers, which binary floating point represents
      exactly.  The rounding of the viewport arithmetic is not modelled; a
      division by an [initial_zoom] of 0 raises, as in Python.
    - Python dictionaries keep insertion order, and both networkx and the
      visualizer iterate them: they are association lists with unique keys.
    - [json.loads] is a library function: the development is parametric in
      it.  A decoded document is a JSON object whose member values are
      strings or [null] (the data model's [name] and [domain]), or some
      other JSON value.  The statements below are about such tables: a
      [name] or [domain] that is a number, a list or an object is not
      represented.
    - The graph is a networkx [DiGraph]: its [_node] and [_succ]
      dictionaries.  [add_node] follows the library: a node can be any
      hashable object except [None], for which it raises [ValueError].
    - Strings are sequences of bytes (UTF-8); [sorted] compares them byte by
      byte, which orders UTF-8 text as Python orders it by code point.
    - An uncaught Python exception aborts the call: fallible steps return a
      [result]. *)

From Stdlib Require Import List ZArith QArith String Ascii Bool Lia.
From Stdlib Require Import Qminmax Permutation Sorted DecimalString OrderedTypeEx.
From Stdlib Require Import Lqa.
Import ListNotations.

Local Open Scope string_scope.
Local Open Scope list_scope.
Local Open Scope Z_scope.

(** ** Python values, exceptions, dictionaries *)

Inductive exn : Type :=
| IndexError | KeyError | TypeError | AttributeError | ValueError
| ZeroDivisionError.

Inductive result (A : Type) : Type :=
| Ok (a : A)
| Raise (e : exn).
Arguments Ok {A} a.
Arguments Raise {A} e.

Definition bind {A B : Type} (m : result A) (k : A -> result B) : result B :=
  match m with
  | Ok a => k a
  | Raise e => Raise e
  end.

Notation "'do' x <- m ; k" := (bind m (fun x => k))
  (at level 10, x pattern, m at level 100, k at level 200).

(** The values a JSON member read by the visualizer can take. *)
Inductive pyval : Type :=
| PyNone
| PyStr (s : string).

Definition pyval_eqb (a b : pyval) : bool :=
  match a, b with
  | PyNone, PyNone => true
  | PyStr s, PyStr t => String.eqb s t
  | _, _ => false
  end.

(** An insertion-ordered dictionary. *)
Section Dict.
Context {K V : Type} (eqb : K -> K -> bool).

Fixpoint dict_get (k : K) (d : list (K * V)) : option V :=
  match d with
  | [] => None
  | (k', v) :: d' => if eqb k k' then Some v else dict_get k d'
  end.

Definition dict_mem (k : K) (d : list (K * V)) : bool :=
  match dict_get k d with Some _ => true | None => false end.

(** [d[k] = v]: overwrite in place, or append a new key at the end. *)
Fixpoint dict_set (k : K) (v : V) (d : list (K * V)) : list (K * V) :=
  match d with
  | [] => [(k, v)]
  | (k', v') :: d' =>
      if eqb k k' then (k', v) :: d' else (k', v') :: dict_set k v d'
  end.
End Dict.

Definition sget {V : Type} := @dict_get string V String.eqb.
Definition smem {V : Type} := @dict_mem string V String.eqb.
Definition sset {V : Type} := @dict_set string V String.eqb.

(** ** JSON documents *)

Inductive json : Type :=
| JObject (members : list (string * pyval))
| JOther.

Inductive decoded : Type :=
| Decoded (j : json)
| JSONDecodeError (msg : string).

(** [obj["name"]]. *)
Definition subscript (j : json) (k : string) : result pyval :=
  match j with
  | JObject d => match sget k d with Some v => Ok v | None => Raise KeyError end
  | JOther => Raise TypeError
  end.

(** [obj.get(k)] and [obj.get(k, default)]. *)
Definition get (j : json) (k : string) (default : pyval) : result pyval :=
  match j with
  | JObject d => match sget k d with Some v => Ok v | None => Ok default end
  | JOther => Raise AttributeError
  end.

(** ** Input table *)

Record Row : Type := {
  SOURCE_OBJECT : string;
  TARGET_OBJECT : string;
  DIRECTION : string;
  DISTANCE : Z
}.

Definition DataFrame : Type := list (Z * Row).

(** [df.iloc[0]]. *)
Definition iloc0 (df : DataFrame) : result Row :=
  match df with
  | [] => Raise IndexError
  | (_, r) :: _ => Ok r
  end.

(** ** The directed graph *)

Record NodeAttrs : Type := {
  domain : pyval;
  distance : Z
}.

Record DiGraph : Type := {
  _node : list (string * NodeAttrs);
  _succ : list (string * list string)
}.

Definition empty_graph : DiGraph := {| _node := []; _succ := [] |}.

(** [n in G.nodes]. *)
Definition in_nodes (n : pyval) (G : DiGraph) : bool :=
  match n with
  | PyNone => false
  | PyStr s => smem s (_node G)
  end.

(** [G.add_node(n, domain=dom, distance=dist)]: a new node gets an empty
    successor dictionary; for a node already present the attributes are
    overwritten; [None] is refused. *)
Definition add_node (n : pyval) (dom : pyval) (dist : Z) (G : DiGraph)
  : result DiGraph :=
  match n with
  | PyNone => Raise ValueError
  | PyStr s =>
      if smem s (_succ G)
      then Ok {| _node := sset s {| domain := dom; distance := dist |} (_node G);
                 _succ := _succ G |}
      else Ok {| _node := sset s {| domain := dom; distance := dist |} (_node G);
                 _succ := sset s [] (_succ G) |}
  end.

(** [G.nodes[s]["distance"] = min(G.nodes[s]["distance"], dist)]. *)
Definition min_distance (s : string) (dist : Z) (G : DiGraph) : result DiGraph :=
  match sget s (_node G) with
  | None => Raise KeyError
  | Some a =>
      Ok {| _node := sset s {| domain := domain a;
                               distance := Z.min (distance a) dist |} (_node G);
            _succ := _succ G |}
  end.

(** Lines 56-59 and 76-79: add the node, or keep the smaller distance of a
    node that exists. *)
Definition add_or_update (n : pyval) (dom : pyval) (dist : Z) (G : DiGraph)
  : result DiGraph :=
  if in_nodes n G then
    match n with
    | PyStr s => min_distance s dist G
    | PyNone => Raise KeyError
    end
  else add_node n dom dist G.

(** [v] becomes a successor of [u], unless it is one. *)
Definition connect (u v : string) (G : DiGraph) : DiGraph :=
  {| _node := _node G;
     _succ := match sget u (_succ G) with
              | Some vs => sset u (if existsb (String.eqb v) vs then vs else vs ++ [v])
                             (_succ G)
              | None => sset u [v] (_succ G)
              end |}.

(** [G.add_edge(u, v)] for endpoints that are nodes already, which the two
    [add_or_update] steps before the call ensure; like [add_node] it
    refuses [None]. *)
Definition add_edge (u v : pyval) (G : DiGraph) : result DiGraph :=
  match u, v with
  | PyStr u, PyStr v => Ok (connect u v G)
  | _, _ => Raise ValueError
  end.

(** [G.edges()]: every node in insertion order with each of its successors. *)
Definition edges (G : DiGraph) : list (string * string) :=
  flat_map (fun '(u, vs) => map (fun v => (u, v)) vs) (_succ G).

(** ** Graph construction (lines 35-82) *)

Definition str_of_Z (z : Z) : string := NilZero.string_of_int (Z.to_int z).

Definition source_error (idx : Z) (msg : string) : string :=
  ("Error parsing SOURCE_OBJECT at row " ++ str_of_Z idx ++ ": " ++ msg)%string.

Definition target_error (idx : Z) (msg : string) : string :=
  ("Error parsing TARGET_OBJECT at row " ++ str_of_Z idx ++ ": " ++ msg)%string.

Definition Unknown : pyval := PyStr "Unknown".

Section Build.
Variable json_loads : string -> decoded.

(** Lines 38-39: the identity of the ultimate target.  The error of
    [json.loads] is a [ValueError]. *)
Definition ultimate_target (df : DataFrame) : result json :=
  do r <- iloc0 df;
  match json_loads (TARGET_OBJECT r) with
  | Decoded j => Ok j
  | JSONDecodeError _ => Raise ValueError
  end.

Definition ultimate_target_id (df : DataFrame) : result pyval :=
  do j <- ultimate_target df;
  subscript j "name".

(** The loop state: the graph and the lines printed so far. *)
Definition state : Type := (DiGraph * list string)%type.

(** One iteration of the loop of lines 44-82. *)
Definition process_row (ut : pyval) (ir : Z * Row) (st : state) : result state :=
  let '(idx, row) := ir in
  let '(G, out) := st in
  match json_loads (SOURCE_OBJECT row) with
  | JSONDecodeError e => Ok (G, out ++ [source_error idx e])
  | Decoded src_obj =>
      do src_id <- get src_obj "name" PyNone;
      do src_domain <- get src_obj "domain" Unknown;
      let src_distance := DISTANCE row in
      do G1 <- add_or_update src_id src_domain src_distance G;
      match json_loads (TARGET_OBJECT row) with
      | JSONDecodeError e => Ok (G1, out ++ [target_error idx e])
      | Decoded tgt_obj =>
          do tgt_id <- get tgt_obj "name" PyNone;
          do tgt_domain <- get tgt_obj "domain" Unknown;
          let tgt_distance :=
            if pyval_eqb tgt_id ut then 0 else DISTANCE row - 1 in
          do G2 <- add_or_update tgt_id tgt_domain tgt_distance G1;
          do G3 <- add_edge src_id tgt_id G2;
          Ok (G3, out)
      end
  end.

Fixpoint process_rows (ut : pyval) (rows : DataFrame) (st : state)
  : result state :=
  match rows with
  | [] => Ok st
  | ir :: rest =>
      do st' <- process_row ut ir st;
      process_rows ut rest st'
  end.

(** Lines 35-82. *)
Definition build_graph (df : DataFrame) : result state :=
  do j <- ultimate_target df;
  do ut <- subscript j "name";
  do dom <- get j "domain" Unknown;
  do G0 <- add_node ut dom 0 empty_graph;
  process_rows ut df (G0, []).
End Build.

(** ** Layout (lines 87-107) *)

(** [max(l)], which raises on an empty list. *)
Definition py_max (l : list Z) : result Z :=
  match l with
  | [] => Raise ValueError
  | x :: l' => Ok (fold_left Z.max l' x)
  end.

Definition zget {V : Type} := @dict_get Z V Z.eqb.
Definition zset {V : Type} := @dict_set Z V Z.eqb.

(** [distance_groups.setdefault(d, []).append(node)]. *)
Definition group_append (d : Z) (node : string) (groups : list (Z * list string))
  : list (Z * list string) :=
  match zget d groups with
  | Some ns => zset d (ns ++ [node]) groups
  | None => zset d [node] groups
  end.

Definition distance_groups (G : DiGraph) : list (Z * list string) :=
  fold_left (fun groups '(node, data) => group_append (distance data) node groups)
    (_node G) [].

(** [sorted(nodes)] on strings: ascending in the lexicographic order of the
    characters' codes. *)
Fixpoint insert (s : string) (l : list string) : list string :=
  match l with
  | [] => [s]
  | t :: l' => if String.leb s t then s :: l else t :: insert s l'
  end.

Definition sorted (l : list string) : list string := fold_right insert [] l.

Definition Qnat (n : nat) : Q := inject_Z (Z.of_nat n).

(** [np.linspace(start, stop, num)] (endpoint included). *)
Definition linspace (start stop : Q) (num : nat) : list Q :=
  let div := (num - 1)%nat in
  let delta := (stop - start)%Q in
  let y := map Qnat (seq 0 num) in
  let y :=
    if (0 <? div)%nat then
      let step := (delta / Qnat div)%Q in
      if Qeq_bool step 0
      then map (fun v => (v / Qnat div * delta)%Q) y
      else map (fun v => (v * step)%Q) y
    else map (fun v => (v * delta)%Q) y in
  let y := map (fun v => (v + start)%Q) y in
  if (1 <? num)%nat then removelast y ++ [stop] else y.

Definition Pos : Type := list (string * (Z * Q)).

(** The vertical positions of a column of [n] nodes (line 104). *)
Definition column_ys (n : nat) : list Q :=
  linspace ((Qnat n - 1) / 2)%Q ((- (Qnat n - 1)) / 2)%Q n.

(** [pos[node] = (x, y)] (line 107). *)
Definition put (x : Z) (pos : Pos) (ny : string * Q) : Pos :=
  let '(node, y) := ny in sset node (x, y) pos.

(** The body of the loop of lines 100-107 for one distance group;
    [y_positions] has one entry per sorted node. *)
Definition place_group (max_distance : Z) (pos : Pos) (g : Z * list string) : Pos :=
  let '(d, nodes) := g in
  let nodes_sorted := sorted nodes in
  let n := List.length nodes_sorted in
  let y_positions := column_ys n in
  let x := max_distance - d in
  fold_left (put x) (combine nodes_sorted y_positions) pos.

Definition max_distance_of (G : DiGraph) : result Z :=
  py_max (map (fun nd => distance (snd nd)) (_node G)).

Definition layout (G : DiGraph) : result Pos :=
  do max_distance <- max_distance_of G;
  Ok (fold_left (place_group max_distance) (distance_groups G) []).

(** ** Viewport (lines 111-131)

    The ranges for an [initial_zoom] that is not 0; [render] raises for 0
    before it uses them. *)

Definition Range : Type := (Q * Q)%type.

Definition viewport (pos : Pos) (initial_zoom : Q) : Range * Range :=
  let xs := map (fun p => fst (snd p)) pos in
  let ys := map (fun p => snd (snd p)) pos in
  let '(x_min, x_max) :=
    match xs with
    | [] => (-1, 1)
    | x :: r => (fold_left Z.min r x, fold_left Z.max r x)
    end in
  let '(y_min, y_max) :=
    match ys with
    | [] => (-1, 1)%Q
    | y :: r => (fold_left Qmin r y, fold_left Qmax r y)
    end in
  let x_center := (inject_Z (x_min + x_max) / 2)%Q in
  let y_center := ((y_min + y_max) / 2)%Q in
  let margin_factor := (12 # 10)%Q in
  let x_half := (inject_Z (x_max - x_min) / 2 * margin_factor / initial_zoom)%Q in
  let y_half := ((y_max - y_min) / 2 * margin_factor / initial_zoom)%Q in
  ((x_center - x_half, x_center + x_half)%Q,
   (y_center - y_half, y_center + y_half)%Q).

(** ** Traces (lines 135-189) *)

Record EdgeTrace : Type := {
  edge_x : list (option Z);
  edge_y : list (option Q)
}.

Record NodeTrace : Type := {
  name : pyval;
  x : list Z;
  y : list Q;
  text : list string;
  marker_color : string
}.

Record Figure : Type := {
  edge_trace : EdgeTrace;
  node_traces : list NodeTrace;
  x_range : Range;
  y_range : Range
}.

(** [pos[u]]. *)
Definition pos_at (pos : Pos) (u : string) : result (Z * Q) :=
  match sget u pos with
  | Some p => Ok p
  | None => Raise KeyError
  end.

Fixpoint make_edge_trace (pos : Pos) (es : list (string * string)) (acc : EdgeTrace)
  : result EdgeTrace :=
  match es with
  | [] => Ok acc
  | (u, v) :: es' =>
      do p0 <- pos_at pos u;
      do p1 <- pos_at pos v;
      make_edge_trace pos es'
        {| edge_x := edge_x acc ++ [Some (fst p0); Some (fst p1); None];
           edge_y := edge_y acc ++ [Some (snd p0); Some (snd p1); None] |}
  end.

(** [s.split(sep)] for a one-character separator. *)
Fixpoint split (sep : ascii) (s : string) : list string :=
  match s with
  | EmptyString => [EmptyString]
  | String c s' =>
      if Ascii.eqb c sep then EmptyString :: split sep s'
      else match split sep s' with
           | [] => [String c EmptyString]
           | p :: ps => String c p :: ps
           end
  end.

(** [node.split('.')[-1] if short_names else node]. *)
Definition label (short_names : bool) (node : string) : string :=
  if short_names then last (split "."%char node) EmptyString else node.

Definition color_map : list (pyval * string) :=
  [ (PyStr "MODEL", "#FF5733");
    (PyStr "DATASET", "#33C3FF");
    (PyStr "TABLE", "#33FF57");
    (PyStr "FEATURE_VIEW", "#FF33F6") ].

Definition color_of (dom : pyval) : string :=
  match dict_get pyval_eqb dom color_map with
  | Some c => c
  | None => "#CCCCCC"
  end.

Record DomainPoints : Type := {
  pts_x : list Z;
  pts_y : list Q;
  pts_text : list string
}.

Fixpoint group_by_domain (short_names : bool) (pos : Pos)
  (nodes : list (string * NodeAttrs)) (domain_nodes : list (pyval * DomainPoints))
  : result (list (pyval * DomainPoints)) :=
  match nodes with
  | [] => Ok domain_nodes
  | (node, data) :: nodes' =>
      let dom := domain data in
      let cur :=
        match dict_get pyval_eqb dom domain_nodes with
        | Some v => v
        | None => {| pts_x := []; pts_y := []; pts_text := [] |}
        end in
      do p <- pos_at pos node;
      group_by_domain short_names pos nodes'
        (dict_set pyval_eqb dom
           {| pts_x := pts_x cur ++ [fst p];
              pts_y := pts_y cur ++ [snd p];
              pts_text := pts_text cur ++ [label short_names node] |}
           domain_nodes)
  end.

Definition make_node_trace (dv : pyval * DomainPoints) : NodeTrace :=
  {| name := fst dv;
     x := pts_x (snd dv);
     y := pts_y (snd dv);
     text := pts_text (snd dv);
     marker_color := color_of (fst dv) |}.

(** Lines 111-203: the figure handed to the display surface.  The half
    extents are divided by [initial_zoom] (lines 127-128) before any trace
    is made: with a zoom of 0 the division raises. *)
Definition render (G : DiGraph) (pos : Pos) (short_names : bool) (initial_zoom : Q)
  : result Figure :=
  if Qeq_bool initial_zoom 0 then Raise ZeroDivisionError else
  let '(xr, yr) := viewport pos initial_zoom in
  do et <- make_edge_trace pos (edges G) {| edge_x := []; edge_y := [] |};
  do groups <- group_by_domain short_names pos (_node G) [];
  Ok {| edge_trace := et;
        node_traces := map make_node_trace groups;
        x_range := xr;
        y_range := yr |}.

(** The whole call: the figure drawn and the lines printed. *)
Definition visualize_lineage (json_loads : string -> decoded) (df : DataFrame)
  (short_names : bool) (initial_zoom : Q) : result (Figure * list string) :=
  do st <- build_graph json_loads df;
  do pos <- layout (fst st);
  do fig <- render (fst st) pos short_names initial_zoom;
  Ok (fig, snd st).

(** ** A reader for the JSON texts of the examples

    [flat_loads] reads an object whose members are strings or [null],
    written without escapes, and reports any other text as malformed.  On
    the texts used in the examples below it returns what [json.loads]
    returns. *)

Definition quote : ascii := "034"%char.

Definition is_ws (c : ascii) : bool :=
  Ascii.eqb c " "%char || Ascii.eqb c "009"%char
  || Ascii.eqb c "010"%char || Ascii.eqb c "013"%char.

Fixpoint skip_ws (s : string) : string :=
  match s with
  | String c s' => if is_ws c then skip_ws s' else s
  | EmptyString => s
  end.

(** The characters up to the closing quote, and the rest. *)
Fixpoint read_chars (s : string) : option (string * string) :=
  match s with
  | EmptyString => None
  | String c s' =>
      if Ascii.eqb c quote then Some (EmptyString, s')
      else if Ascii.eqb c "\"%char then None
      else match read_chars s' with
           | Some (t, r) => Some (String c t, r)
           | None => None
           end
  end.

Definition read_value (s : string) : option (pyval * string) :=
  match s with
  | String c s' =>
      if Ascii.eqb c quote then
        match read_chars s' with
        | Some (t, r) => Some (PyStr t, r)
        | None => None
        end
      else if String.prefix "null" s then Some (PyNone, String.substring 4 (String.length s - 4) s)
      else None
  | EmptyString => None
  end.

Fixpoint read_members (fuel : nat) (s : string) (d : list (string * pyval))
  : option (list (string * pyval)) :=
  match fuel with
  | O => None
  | S fuel' =>
      match skip_ws s with
      | String q s1 =>
          if Ascii.eqb q quote then
            match read_chars s1 with
            | Some (k, s2) =>
                match skip_ws s2 with
                | String ":" s3 =>
                    match read_value (skip_ws s3) with
                    | Some (v, s4) =>
                        match skip_ws s4 with
                        | String "," s5 => read_members fuel' s5 (sset k v d)
                        | String "}" s5 =>
                            if String.eqb (skip_ws s5) "" then Some (sset k v d) else None
                        | _ => None
                        end
                    | None => None
                    end
                | _ => None
                end
            | None => None
            end
          else None
      | EmptyString => None
      end
  end.

(** The message of [json.loads] for a text that starts with no JSON value. *)
Definition no_value : string := "Expecting value: line 1 column 1 (char 0)".

Definition malformed : decoded := JSONDecodeError no_value.

Definition flat_loads (s : string) : decoded :=
  match skip_ws s with
  | String "{" s1 =>
      match skip_ws s1 with
      | String "}" s2 =>
          if String.eqb (skip_ws s2) "" then Decoded (JObject []) else malformed
      | _ =>
          match read_members (String.length s) s1 [] with
          | Some d => Decoded (JObject d)
          | None => malformed
          end
      end
  | _ => malformed
  end.

(** [{"name": n, "domain": d}] as JSON text. *)
Definition obj (n d : string) : string :=
  String "{" (String quote ("name" ++ String quote (":" ++ String quote (n ++
    String quote ("," ++ String quote ("domain" ++ String quote (":" ++
    String quote (d ++ String quote "}"))))))))%string.

(** [{"domain": d}]: an object without a name. *)
Definition nameless (d : string) : string :=
  String "{" (String quote ("domain" ++ String quote (":" ++
    String quote (d ++ String quote "}"))))%string.

Definition row (src tgt : string) (dist : Z) : Row :=
  {| SOURCE_OBJECT := src; TARGET_OBJECT := tgt;
     DIRECTION := "Upstream"; DISTANCE := dist |}.


(** ** Notions used to state the properties *)

(** The attributes of a node after one [add_or_update]: [old] is what the
    graph held for it before. *)
Definition reconciled (old : option NodeAttrs) (dom : pyval) (dist : Z) : NodeAttrs :=
  match old with
  | Some a => {| domain := domain a; distance := Z.min (distance a) dist |}
  | None => {| domain := dom; distance := dist |}
  end.

Definition node_names (G : DiGraph) : list string := map fst (_node G).

(** The graph before the loop (line 40). *)
Definition seed_graph (t : string) (dom : pyval) : DiGraph :=
  {| _node := [(t, {| domain := dom; distance := 0 |})]; _succ := [(t, [])] |}.

Section Claims.
Variable json_loads : string -> decoded.

(** The three ways one iteration of the loop can complete. *)
Inductive row_outcome (ut : pyval) (idx : Z) (row : Row) (G : DiGraph)
  (out : list string) : state -> Prop :=
| source_skipped (e : string) :
    json_loads (SOURCE_OBJECT row) = JSONDecodeError e ->
    row_outcome ut idx row G out (G, out ++ [source_error idx e])
| target_skipped (so : json) (a : string) (da : pyval) (G1 : DiGraph) (e : string) :
    json_loads (SOURCE_OBJECT row) = Decoded so ->
    get so "name" PyNone = Ok (PyStr a) ->
    get so "domain" Unknown = Ok da ->
    add_or_update (PyStr a) da (DISTANCE row) G = Ok G1 ->
    json_loads (TARGET_OBJECT row) = JSONDecodeError e ->
    row_outcome ut idx row G out (G1, out ++ [target_error idx e])
| edge_added (so : json) (a : string) (da : pyval) (G1 : DiGraph)
    (to : json) (b : string) (db : pyval) (G2 : DiGraph) :
    json_loads (SOURCE_OBJECT row) = Decoded so ->
    get so "name" PyNone = Ok (PyStr a) ->
    get so "domain" Unknown = Ok da ->
    add_or_update (PyStr a) da (DISTANCE row) G = Ok G1 ->
    json_loads (TARGET_OBJECT row) = Decoded to ->
    get to "name" PyNone = Ok (PyStr b) ->
    get to "domain" Unknown = Ok db ->
    add_or_update (PyStr b) db
      (if pyval_eqb (PyStr b) ut then 0 else DISTANCE row - 1) G1 = Ok G2 ->
    row_outcome ut idx row G out (connect a b G2, out).

(** The name of the object a JSON text decodes to, if it decodes to an
    object with a name. *)
Definition name_of (text : string) : option string :=
  match json_loads text with
  | Decoded (JObject d) =>
      match sget "name" d with
      | Some (PyStr n) => Some n
      | _ => None
      end
  | _ => None
  end.

(** What a row says about its source: its DISTANCE. *)
Definition source_claim (row : Row) : list (string * Z) :=
  match name_of (SOURCE_OBJECT row) with
  | Some a => [(a, DISTANCE row)]
  | None => []
  end.

(** What a row says about its target: 0 for a target named like the
    ultimate target, DISTANCE - 1 for any other. *)
Definition target_claim (ut : pyval) (row : Row) : list (string * Z) :=
  match name_of (TARGET_OBJECT row) with
  | Some b => [(b, if pyval_eqb (PyStr b) ut then 0 else DISTANCE row - 1)]
  | None => []
  end.

(** The distance claims of one row, in the words of the specification: a
    row claims its DISTANCE for its source node, 0 for a target node
    named like the ultimate target and DISTANCE - 1 for any other target
    node.  A row whose source does not decode claims nothing. *)
Definition row_claims (ut : pyval) (row : Row) : list (string * Z) :=
  match name_of (SOURCE_OBJECT row) with
  | None => []
  | Some a => (a, DISTANCE row) :: target_claim ut row
  end.

(** Two other readings of "successfully parsed rows": only rows of which
    both objects decode claim anything; or every object that decodes
    claims, whatever the other object of its row does. *)
Definition whole_row_claims (ut : pyval) (row : Row) : list (string * Z) :=
  match name_of (SOURCE_OBJECT row), name_of (TARGET_OBJECT row) with
  | Some _, Some _ => source_claim row ++ target_claim ut row
  | _, _ => []
  end.

Definition object_claims (ut : pyval) (row : Row) : list (string * Z) :=
  source_claim row ++ target_claim ut row.

Definition claims_for (n : string) (cl : list (string * Z)) : list Z :=
  map snd (filter (fun c => String.eqb (fst c) n) cl).

(** The claims the rows of the table make for node [n]. *)
Definition table_claims (ut : pyval) (n : string) (df : DataFrame) : list Z :=
  claims_for n (flat_map (fun ir => row_claims ut (snd ir)) df).

(** The claim made when the ultimate target is created (line 40). *)
Definition seed_claim (ut : pyval) (n : string) : list Z :=
  if pyval_eqb (PyStr n) ut then [0] else [].

Definition all_claims (ut : pyval) (n : string) (df : DataFrame) : list Z :=
  seed_claim ut n ++ table_claims ut n df.
End Claims.

(** [m] is the minimum of the list [cs]. *)
Definition is_minimum (m : Z) (cs : list Z) : Prop :=
  In m cs /\ Forall (fun c => m <= c) cs.

(** The smallest value seen so far, starting from [o]. *)
Definition running_min (o : option Z) (cs : list Z) : option Z :=
  fold_left (fun o c => Some (match o with Some d => Z.min d c | None => c end)) cs o.

(** Two tables that differ in the DIRECTION column only. *)
Definition same_but_direction (df1 df2 : DataFrame) : Prop :=
  Forall2 (fun ir1 ir2 =>
             fst ir1 = fst ir2 /\
             SOURCE_OBJECT (snd ir1) = SOURCE_OBJECT (snd ir2) /\
             TARGET_OBJECT (snd ir1) = TARGET_OBJECT (snd ir2) /\
             DISTANCE (snd ir1) = DISTANCE (snd ir2)) df1 df2.

(** The names of the nodes at distance [d], in insertion order. *)
Definition members (d : Z) (nodes : list (string * NodeAttrs)) : list string :=
  map fst (filter (fun nd => Z.eqb (distance (snd nd)) d) nodes).

(** The graph of a loop result. *)
Definition graph_of (r : result state) : result DiGraph :=
  do st <- r; Ok (fst st).

(** Every edge joins two nodes. *)
Definition closed (G : DiGraph) : Prop :=
  forall u v, In (u, v) (edges G) ->
              sget u (_node G) <> None /\ sget v (_node G) <> None.

(** [distance_groups.get(d, [])]. *)
Definition group_of (d : Z) (groups : list (Z * list string)) : list string :=
  match zget d groups with Some ns => ns | None => [] end.

(** The order [sorted] sorts by. *)
Definition lex_le (a b : string) : Prop := String.leb a b = true.

Definition is_maximum (m : Z) (cs : list Z) : Prop :=
  In m cs /\ Forall (fun c => c <= m) cs.

Definition range_eq (r1 r2 : Range) : Prop :=
  (fst r1 == fst r2)%Q /\ (snd r1 == snd r2)%Q.

(** Lines 35-107: the positions computed for a table. *)
Definition positions (json_loads : string -> decoded) (df : DataFrame)
  : result Pos :=
  do st <- build_graph json_loads df;
  layout (fst st).

(** ** The statements of the specification that the code does not satisfy
    as they are written *)

(** "A node's final distance is the minimum over all rows that reference
    it", the claims being those of the rows alone, under a reading [claims]
    of what a row claims. *)
Definition distance_is_min_of
  (claims : (string -> decoded) -> pyval -> Row -> list (string * Z))
  (json_loads : string -> decoded) (df : DataFrame) : Prop :=
  forall ut G out n a,
    ultimate_target_id json_loads df = Ok ut ->
    build_graph json_loads df = Ok (G, out) ->
    sget n (_node G) = Some a ->
    is_minimum (distance a)
      (claims_for n (flat_map (fun ir => claims json_loads ut (snd ir)) df)).

(** "The ultimate target always has the largest x value among all nodes." *)
Definition target_is_rightmost (json_loads : string -> decoded)
  (df : DataFrame) : Prop :=
  forall t G out pos xt yt n xn yn,
    ultimate_target_id json_loads df = Ok (PyStr t) ->
    build_graph json_loads df = Ok (G, out) ->
    layout G = Ok pos ->
    sget t pos = Some (xt, yt) ->
    sget n pos = Some (xn, yn) ->
    xn <= xt.

(** "Given one node (just the ultimate target), the viewport falls back to
    the default [-1,1] x [-1,1] range." *)
Definition single_node_default_viewport (json_loads : string -> decoded)
  (df : DataFrame) (short_names : bool) (initial_zoom : Q) : Prop :=
  forall G out fig out',
    build_graph json_loads df = Ok (G, out) ->
    List.length (_node G) = 1%nat ->
    visualize_lineage json_loads df short_names initial_zoom = Ok (fig, out') ->
    range_eq (x_range fig) (-1, 1)%Q /\ range_eq (y_range fig) (-1, 1)%Q.

(** "An object without a name is processed with a null node identity":
    the construction completes. *)
Definition nameless_rows_are_processed (json_loads : string -> decoded)
  (df : DataFrame) : Prop :=
  exists G out, build_graph json_loads df = Ok (G, out).

(** ** Example tables *)

Definition T : string := obj "T" "TABLE".

(** The scenario of the specification: one row, S -> T at distance 1. *)
Definition one_edge : DataFrame := [(0, row (obj "S" "MODEL") T 1)].

(** Two rows claim distances 3 and 1 for node A. *)
Definition two_claims : DataFrame :=
  [(0, row (obj "A" "MODEL") T 3); (1, row (obj "A" "MODEL") T 1)].

Definition two_claims_graph : DiGraph :=
  {| _node := [("T", {| domain := PyStr "TABLE"; distance := 0 |});
               ("A", {| domain := PyStr "MODEL"; distance := 1 |})];
     _succ := [("T", []); ("A", ["T"])] |}.

(** Rows 0 and 2 have a malformed source; row 1 names the ultimate target
    as its source, five steps away. *)
Definition skipped_rows : DataFrame :=
  [(0, row "not json" T 1); (1, row T (obj "U" "TABLE") 5);
   (2, row "not json" (obj "U" "TABLE") 2)].

Definition skipped_rows_graph : DiGraph :=
  {| _node := [("T", {| domain := PyStr "TABLE"; distance := 0 |});
               ("U", {| domain := PyStr "TABLE"; distance := 4 |})];
     _succ := [("T", ["U"]); ("U", [])] |}.

Definition skipped_rows_output : list string :=
  [source_error 0 no_value; source_error 2 no_value].

(** A second chain whose target is not the ultimate target, at distance 0. *)
Definition below_zero : DataFrame :=
  [(0, row (obj "S" "MODEL") T 1); (1, row (obj "A" "MODEL") (obj "B" "TABLE") 0)].

(** No row is parsed: the graph holds the ultimate target alone. *)
Definition only_target : DataFrame := [(0, row "not json" T 1)].

Definition only_target_output : list string := [source_error 0 no_value].

(** Row 1 has a source without a name. *)
Definition nameless_source : DataFrame :=
  [(0, row (obj "S" "MODEL") T 1); (1, row (nameless "MODEL") T 1)].

(** Row 1 has a malformed target and another domain for S. *)
Definition bad_target : DataFrame :=
  [(0, row (obj "S" "MODEL") T 2); (1, row (obj "S" "DATASET") "not json" 1)].

Definition bad_target_graph_row0 : DiGraph :=
  {| _node := [("T", {| domain := PyStr "TABLE"; distance := 0 |});
               ("S", {| domain := PyStr "MODEL"; distance := 2 |})];
     _succ := [("T", []); ("S", ["T"])] |}.

Definition bad_target_graph : DiGraph :=
  {| _node := [("T", {| domain := PyStr "TABLE"; distance := 0 |});
               ("S", {| domain := PyStr "MODEL"; distance := 1 |})];
     _succ := [("T", []); ("S", ["T"])] |}.

(** Three sources in one column. *)
Definition three_sources : DataFrame :=
  [(0, row (obj "db.s.C" "MODEL") T 1); (1, row (obj "A" "MODEL") T 1);
   (2, row (obj "B" "X") T 1)].

Definition three_sources_graph : DiGraph :=
  {| _node := [("T", {| domain := PyStr "TABLE"; distance := 0 |});
               ("db.s.C", {| domain := PyStr "MODEL"; distance := 1 |});
               ("A", {| domain := PyStr "MODEL"; distance := 1 |});
               ("B", {| domain := PyStr "X"; distance := 1 |})];
     _succ := [("T", []); ("db.s.C", ["T"]); ("A", ["T"]); ("B", ["T"])] |}.

Definition one_edge_graph : DiGraph :=
  {| _node := [("T", {| domain := PyStr "TABLE"; distance := 0 |});
               ("S", {| domain := PyStr "MODEL"; distance := 1 |})];
     _succ := [("T", []); ("S", ["T"])] |}.

Definition only_target_graph : DiGraph :=
  {| _node := [("T", {| domain := PyStr "TABLE"; distance := 0 |})];
     _succ := [("T", [])] |}.

(** ** Notions for the further properties *)

Section Usable.
Variable json_loads : string -> decoded.

(** The text is not JSON. *)
Definition fails (text : string) : bool :=
  match json_loads text with
  | JSONDecodeError _ => true
  | Decoded _ => false
  end.

(** The text decodes to an object with a string name. *)
Definition named (text : string) : bool :=
  match name_of json_loads text with
  | Some _ => true
  | None => false
  end.

(** The text decodes to a JSON value that is not an object. *)
Definition not_object (text : string) : bool :=
  match json_loads text with
  | Decoded JOther => true
  | _ => false
  end.

(** The text decodes to an object without a name, or with a null name. *)
Definition unnamed (text : string) : bool :=
  match json_loads text with
  | Decoded (JObject d) =>
      match sget "name" d with
      | None | Some PyNone => true
      | Some (PyStr _) => false
      end
  | _ => false
  end.

(** The rows an iteration of the loop gets through without raising. *)
Definition usable (row : Row) : bool :=
  fails (SOURCE_OBJECT row)
  || (named (SOURCE_OBJECT row)
      && (fails (TARGET_OBJECT row) || named (TARGET_OBJECT row))).

(** The line an iteration prints, if it prints one. *)
Definition row_message (ir : Z * Row) : list string :=
  match json_loads (SOURCE_OBJECT (snd ir)) with
  | JSONDecodeError e => [source_error (fst ir) e]
  | Decoded _ =>
      match json_loads (TARGET_OBJECT (snd ir)) with
      | JSONDecodeError e => [target_error (fst ir) e]
      | Decoded _ => []
      end
  end.

(** The edge a row asks for: both of its objects decode to named objects. *)
Definition row_edge (row : Row) : list (string * string) :=
  match name_of json_loads (SOURCE_OBJECT row),
        name_of json_loads (TARGET_OBJECT row) with
  | Some u, Some v => [(u, v)]
  | _, _ => []
  end.

(** The domain of the object a JSON text decodes to. *)
Definition domain_of (text : string) : pyval :=
  match json_loads text with
  | Decoded (JObject d) =>
      match sget "domain" d with Some v => v | None => Unknown end
  | _ => Unknown
  end.

(** The nodes a row mentions, with the domain it gives them, in the order
    the loop meets them. *)
Definition row_mentions (row : Row) : list (string * pyval) :=
  match name_of json_loads (SOURCE_OBJECT row) with
  | None => []
  | Some a =>
      (a, domain_of (SOURCE_OBJECT row)) ::
      match name_of json_loads (TARGET_OBJECT row) with
      | None => []
      | Some b => [(b, domain_of (TARGET_OBJECT row))]
      end
  end.
End Usable.

(** The exception of a result, if it is one. *)
Definition raised {A : Type} (r : result A) : option exn :=
  match r with
  | Ok _ => None
  | Raise e => Some e
  end.

(** The first domain given to [n] in a list of mentions, after [o]. *)
Definition first_domain (n : string) (o : option pyval)
  (ms : list (string * pyval)) : option pyval :=
  fold_left (fun o m =>
               match o with
               | Some d => Some d
               | None => if String.eqb (fst m) n then Some (snd m) else None
               end) ms o.

(** The adjacency dictionary has one entry per node, in the order of the
    nodes, and every successor list is duplicate free and made of nodes. *)
Definition adjacency_ok (G : DiGraph) : Prop :=
  map fst (_succ G) = node_names G /\
  forall u vs, In (u, vs) (_succ G) ->
               NoDup vs /\ forall v, In v vs -> In v (node_names G).

(** Every mention of a node in a table: the creation of the ultimate
    target (line 40) first, then the rows. *)
Definition all_mentions (json_loads : string -> decoded) (df : DataFrame)
  : list (string * pyval) :=
  match df with
  | [] => []
  | (_, r) :: _ =>
      match name_of json_loads (TARGET_OBJECT r) with
      | Some t => [(t, domain_of json_loads (TARGET_OBJECT r))]
      | None => []
      end
  end ++ flat_map (fun ir => row_mentions json_loads (snd ir)) df.

(** The names of a list in the order of their first occurrence. *)
Definition add_name (acc : list string) (s : string) : list string :=
  if existsb (String.eqb s) acc then acc else acc ++ [s].

Definition first_occurrences (acc names : list string) : list string :=
  fold_left add_name names acc.

(** The rows of [three_sources] in another order. *)
Definition three_sources_reordered : DataFrame :=
  [(0, row (obj "A" "MODEL") T 1); (1, row (obj "db.s.C" "MODEL") T 1);
   (2, row (obj "B" "X") T 1)].

Definition three_sources_reordered_graph : DiGraph :=
  {| _node := [("T", {| domain := PyStr "TABLE"; distance := 0 |});
               ("A", {| domain := PyStr "MODEL"; distance := 1 |});
               ("db.s.C", {| domain := PyStr "MODEL"; distance := 1 |});
               ("B", {| domain := PyStr "X"; distance := 1 |})];
     _succ := [("T", []); ("A", ["T"]); ("db.s.C", ["T"]); ("B", ["T"])] |}.

(** The range [r] lies within the range [r']. *)
Definition range_within (r r' : Range) : Prop :=
  (fst r' <= fst r)%Q /\ (snd r <= snd r')%Q.

(** The positions of the one-edge scenario. *)
Definition one_edge_pos : Pos := [("T", (1, 0%Q)); ("S", (0, 0%Q))].

(** The position of a node that has one. *)
Definition coord (pos : Pos) (n : string) : Z * Q :=
  match sget n pos with
  | Some p => p
  | None => (0, 0%Q)
  end.

(** The names of the nodes with domain [dom], in insertion order. *)
Definition with_domain (dom : pyval) (nodes : list (string * NodeAttrs))
  : list string :=
  map fst (filter (fun nd => pyval_eqb (domain (snd nd)) dom) nodes).

(** The points of a domain, or no points yet. *)
Definition points_of (dom : pyval) (groups : list (pyval * DomainPoints))
  : DomainPoints :=
  match dict_get pyval_eqb dom groups with
  | Some v => v
  | None => {| pts_x := []; pts_y := []; pts_text := [] |}
  end.

(** The points [cur] followed by those of the nodes [ns]. *)
Definition more_points (short_names : bool) (pos : Pos) (cur : DomainPoints)
  (ns : list string) : DomainPoints :=
  {| pts_x := pts_x cur ++ map (fun n => fst (coord pos n)) ns;
     pts_y := pts_y cur ++ map (fun n => snd (coord pos n)) ns;
     pts_text := pts_text cur ++ map (label short_names) ns |}.

(** The string has no dot. *)
Definition dot_free (s : string) : Prop :=
  ~ In "."%char (list_ascii_of_string s).

(** ** Two more statements of the specification that the code does not
    satisfy as they are written *)

(** "A row whose SOURCE_OBJECT fails to parse contributes nothing to the
    graph: no target node is added for that row": a name that such a row
    carries as its target, and that no row with a decoded source carries,
    is not a node. *)
Definition skipped_row_adds_no_target_node (json_loads : string -> decoded)
  (df : DataFrame) : Prop :=
  forall (G : DiGraph) (out : list string) (idx : Z) (row : Row)
         (e : string) (n : string),
    build_graph json_loads df = Ok (G, out) ->
    In (idx, row) df ->
    json_loads (SOURCE_OBJECT row) = JSONDecodeError e ->
    name_of json_loads (TARGET_OBJECT row) = Some n ->
    (forall idx' row' so,
       In (idx', row') df ->
       json_loads (SOURCE_OBJECT row') = Decoded so ->
       name_of json_loads (SOURCE_OBJECT row') <> Some n /\
       name_of json_loads (TARGET_OBJECT row') <> Some n) ->
    sget n (_node G) = None.

(** "If a row's SOURCE_OBJECT parses but its TARGET_OBJECT fails to parse,
    only the remainder of the row is skipped and processing continues with
    the next row": the iteration completes. *)
Definition parsed_source_bad_target_continues (json_loads : string -> decoded)
  (ut : pyval) (ir : Z * Row) (st : state) : Prop :=
  forall (so : json) (e : string),
    json_loads (SOURCE_OBJECT (snd ir)) = Decoded so ->
    json_loads (TARGET_OBJECT (snd ir)) = JSONDecodeError e ->
    exists st', process_row json_loads ut ir st = Ok st'.

(** Row 0 has a malformed source; its target T is named by no other row. *)
Definition skipped_first : DataFrame :=
  [(0, row "not json" T 1); (1, row (obj "S" "MODEL") (obj "V" "TABLE") 1)].

Definition skipped_first_graph : DiGraph :=
  {| _node := [("T", {| domain := PyStr "TABLE"; distance := 0 |});
               ("S", {| domain := PyStr "MODEL"; distance := 1 |});
               ("V", {| domain := PyStr "TABLE"; distance := 0 |})];
     _succ := [("T", []); ("S", ["V"]); ("V", [])] |}.

(** Row 1 has a source without a name and a malformed target. *)
Definition nameless_bad_target : DataFrame :=
  [(0, row (obj "S" "MODEL") T 1); (1, row (nameless "MODEL") "not json" 1)].

(** A row with a malformed source between two rows, and the table without
    it. *)
Definition skipped_middle : DataFrame :=
  [(0, row (obj "S" "MODEL") T 1); (1, row "not json" (obj "W" "TABLE") 7);
   (2, row (obj "A" "MODEL") (obj "S" "MODEL") 2)].

Definition without_middle : DataFrame :=
  [(0, row (obj "S" "MODEL") T 1);
   (2, row (obj "A" "MODEL") (obj "S" "MODEL") 2)].
(** * Properties *)

(** ** Dictionaries *)

Section DictFacts.
Context {K V : Type} (eqb : K -> K -> bool).
Hypothesis eqb_spec : forall a b, reflect (a = b) (eqb a b).

Lemma dict_get_set_same (k : K) (v : V) d :
  dict_get eqb k (dict_set eqb k v d) = Some v.
Proof.
  induction d as [|[k' v'] d IH]; simpl.
  - destruct (eqb_spec k k); congruence.
  - destruct (eqb_spec k k') as [->|Hne]; simpl.
    + destruct (eqb_spec k' k'); congruence.
    + destruct (eqb_spec k k'); congruence.
Qed.

Lemma dict_get_set_other (k k' : K) (v : V) d :
  k <> k' -> dict_get eqb k' (dict_set eqb k v d) = dict_get eqb k' d.
Proof.
  intros Hne. induction d as [|[k0 v0] d IH]; simpl.
  - destruct (eqb_spec k' k); congruence.
  - destruct (eqb_spec k k0) as [->|Hk]; simpl.
    + destruct (eqb_spec k' k0); congruence.
    + destruct (eqb_spec k' k0); congruence.
Qed.

Lemma dict_get_None_keys (k : K) (d : list (K * V)) :
  dict_get eqb k d = None <-> ~ In k (map fst d).
Proof.
  induction d as [|[k' v'] d IH]; simpl.
  - tauto.
  - destruct (eqb_spec k k') as [->|Hne].
    + split; [discriminate | tauto].
    + rewrite IH. split; [intros H [E|E]; [congruence | tauto] | tauto].
Qed.

Lemma dict_get_In (k : K) (v : V) d :
  dict_get eqb k d = Some v -> In (k, v) d.
Proof.
  induction d as [|[k' v'] d IH]; simpl; [discriminate|].
  destruct (eqb_spec k k') as [->|Hne]; intros H.
  - left. congruence.
  - right. auto.
Qed.

Lemma dict_In_get (k : K) (v : V) d :
  NoDup (map fst d) -> In (k, v) d -> dict_get eqb k d = Some v.
Proof.
  induction d as [|[k' v'] d IH]; simpl; [tauto|].
  intros Hnd [E|Hin].
  - inversion E; subst. destruct (eqb_spec k k); congruence.
  - inversion Hnd as [|? ? Hnot Hnd']; subst.
    destruct (eqb_spec k k') as [->|Hne]; [|auto].
    exfalso. apply Hnot. apply (in_map fst) in Hin. exact Hin.
Qed.

Lemma dict_keys_set (k : K) (v : V) d :
  map fst (dict_set eqb k v d) =
  if dict_mem eqb k d then map fst d else map fst d ++ [k].
Proof.
  unfold dict_mem. induction d as [|[k' v'] d IH]; simpl; [reflexivity|].
  destruct (eqb_spec k k') as [->|Hne]; simpl; [reflexivity|].
  rewrite IH. destruct (dict_get eqb k d); reflexivity.
Qed.

Lemma dict_set_NoDup (k : K) (v : V) d :
  NoDup (map fst d) -> NoDup (map fst (dict_set eqb k v d)).
Proof.
  intros Hnd. rewrite dict_keys_set. unfold dict_mem.
  destruct (dict_get eqb k d) eqn:E; [exact Hnd|].
  apply dict_get_None_keys in E.
  apply NoDup_app; [exact Hnd| |].
  - constructor; [simpl; tauto | constructor].
  - intros a Ha [<-|[]]. tauto.
Qed.
End DictFacts.

(** ** Graph construction *)

Lemma sget_sset_same {V : Type} (k : string) (v : V) d :
  sget k (sset k v d) = Some v.
Proof. apply dict_get_set_same, String.eqb_spec. Qed.

Lemma sget_sset_other {V : Type} (k k' : string) (v : V) d :
  k <> k' -> sget k' (sset k v d) = sget k' d.
Proof. apply dict_get_set_other, String.eqb_spec. Qed.

Lemma sset_absent {V : Type} (k : string) (v : V) d :
  sget k d = None -> sset k v d = d ++ [(k, v)].
Proof.
  induction d as [|[k' v'] d IH]; simpl; [reflexivity|].
  destruct (String.eqb_spec k k'); [discriminate|].
  intros H. f_equal. apply IH, H.
Qed.

Lemma edges_new_node (s : string) (G : DiGraph) (nodes : list (string * NodeAttrs)) :
  edges {| _node := nodes;
           _succ := if smem s (_succ G) then _succ G else sset s [] (_succ G) |}
  = edges G.
Proof.
  unfold edges, smem, dict_mem; simpl.
  destruct (dict_get String.eqb s (_succ G)) eqn:E; [reflexivity|].
  rewrite (sset_absent _ _ _ E), flat_map_app; simpl. apply app_nil_r.
Qed.

(** [add_or_update] on a name never raises; it reconciles that node and
    leaves the edges alone. *)
Lemma add_or_update_named (s : string) (dom : pyval) (dist : Z) (G : DiGraph) :
  exists G',
    add_or_update (PyStr s) dom dist G = Ok G' /\
    _node G' = sset s (reconciled (sget s (_node G)) dom dist) (_node G) /\
    edges G' = edges G.
Proof.
  unfold add_or_update, in_nodes, min_distance, add_node.
  unfold smem at 1. unfold dict_mem. fold (@sget NodeAttrs).
  destruct (sget s (_node G)) as [a|] eqn:E; simpl.
  - eexists; split; [reflexivity|]. split; reflexivity.
  - pose proof (edges_new_node s G
      (sset s {| domain := dom; distance := dist |} (_node G))) as H.
    destruct (smem s (_succ G));
      (eexists; split; [reflexivity|]; split; [reflexivity|exact H]).
Qed.

Lemma add_or_update_None (dom : pyval) (dist : Z) (G : DiGraph) :
  add_or_update PyNone dom dist G = Raise ValueError.
Proof. reflexivity. Qed.

Lemma add_or_update_lookup (s : string) dom dist G G' (n : string) :
  add_or_update (PyStr s) dom dist G = Ok G' ->
  sget n (_node G') =
    if String.eqb n s then Some (reconciled (sget n (_node G)) dom dist)
    else sget n (_node G).
Proof.
  intros H. destruct (add_or_update_named s dom dist G) as (G1 & H1 & Hn & _).
  rewrite H in H1. inversion H1; subst G1. rewrite Hn.
  destruct (String.eqb_spec n s) as [->|Hne].
  - apply sget_sset_same.
  - apply sget_sset_other. congruence.
Qed.

Section RowOutcome.
Variable json_loads : string -> decoded.

Lemma process_row_outcome ut idx row G out st' :
  process_row json_loads ut (idx, row) (G, out) = Ok st' <->
  row_outcome json_loads ut idx row G out st'.
Proof.
  split.
  - unfold process_row.
    destruct (json_loads (SOURCE_OBJECT row)) as [so|e] eqn:Es.
    2:{ intros H; inversion H; subst. now constructor. }
    destruct (get so "name" PyNone) as [[|a]|] eqn:Ea; cbn [bind]; try discriminate.
    { destruct (get so "domain" Unknown); cbn [bind]; discriminate. }
    destruct (get so "domain" Unknown) as [da|] eqn:Eda; cbn [bind]; try discriminate.
    destruct (add_or_update (PyStr a) da (DISTANCE row) G) as [G1|] eqn:E1;
      cbn [bind]; try discriminate.
    destruct (json_loads (TARGET_OBJECT row)) as [to|e] eqn:Et.
    2:{ intros H; inversion H; subst. eapply target_skipped; eauto. }
    destruct (get to "name" PyNone) as [[|b]|] eqn:Eb; cbn [bind]; try discriminate.
    { destruct (get to "domain" Unknown); cbn [bind]; discriminate. }
    destruct (get to "domain" Unknown) as [db|] eqn:Edb; cbn [bind]; try discriminate.
    destruct (add_or_update (PyStr b) db _ G1) as [G2|] eqn:E2;
      cbn [bind]; try discriminate.
    intros H; inversion H; subst. eapply edge_added; eauto.
  - intros H. unfold process_row.
    destruct H as [e Es | so a da G1 e Es Ea Eda E1 Et
                  | so a da G1 to b db G2 Es Ea Eda E1 Et Eb Edb E2].
    + now rewrite Es.
    + rewrite Es, Ea; cbn [bind]. rewrite Eda; cbn [bind]. rewrite E1; cbn [bind].
      now rewrite Et.
    + rewrite Es, Ea; cbn [bind]. rewrite Eda; cbn [bind]. rewrite E1; cbn [bind].
      rewrite Et, Eb; cbn [bind]. rewrite Edb; cbn [bind]. rewrite E2; cbn [bind].
      reflexivity.
Qed.
End RowOutcome.

(** The first iteration of a loop that completes: [E] is its outcome,
    [H] the run of the remaining rows from the state [(G1, out1)]. *)
Ltac loop_step H G1 out1 E :=
  cbn [process_rows] in H;
  match type of H with
  | bind ?m _ = Ok _ =>
      destruct m as [[G1 out1]|] eqn:E; [|discriminate];
      cbn [bind] in H; apply process_row_outcome in E
  end.

Section BuildFacts.
Variable json_loads : string -> decoded.


Lemma name_of_get text j a :
  json_loads text = Decoded j ->
  get j "name" PyNone = Ok (PyStr a) ->
  name_of json_loads text = Some a.
Proof.
  intros E H. unfold name_of. rewrite E.
  destruct j as [d|]; simpl in H; [|discriminate].
  destruct (sget "name" d) as [[|n]|]; inversion H; reflexivity.
Qed.

Lemma name_of_error text e :
  json_loads text = JSONDecodeError e -> name_of json_loads text = None.
Proof. intros E. unfold name_of. now rewrite E. Qed.

(** What one completed iteration does to the distance known for [n]. *)
Lemma row_outcome_distance ut idx row G out G' out' n :
  row_outcome json_loads ut idx row G out (G', out') ->
  option_map distance (sget n (_node G')) =
  running_min (option_map distance (sget n (_node G)))
    (claims_for n (row_claims json_loads ut row)).
Proof.
  intros H. unfold row_claims, target_claim, claims_for.
  inversion H as [e Es | so a da G1 e Es Ea Eda E1 Et
                 | so a da G1 to b db G2 Es Ea Eda E1 Et Eb Edb E2]; subst.
  - now rewrite (name_of_error _ _ Es).
  - rewrite (name_of_get _ _ _ Es Ea), (name_of_error _ _ Et).
    rewrite (add_or_update_lookup _ _ _ _ _ n E1). simpl.
    rewrite (String.eqb_sym a n).
    destruct (String.eqb n a); [|reflexivity].
    simpl. now destruct (sget n (_node G)).
  - rewrite (name_of_get _ _ _ Es Ea), (name_of_get _ _ _ Et Eb).
    cbn [connect _node].
    rewrite (add_or_update_lookup _ _ _ _ _ n E2).
    rewrite (add_or_update_lookup _ _ _ _ _ n E1).
    cbn [filter fst snd]. rewrite (String.eqb_sym a n), (String.eqb_sym b n).
    destruct (String.eqb n a), (String.eqb n b); cbn [map snd running_min fold_left];
      try reflexivity; now destruct (sget n (_node G)).
Qed.

(** A completed iteration keeps every node, with its domain, and never
    raises a distance. *)
Lemma row_outcome_frame ut idx row G out G' out' n a :
  row_outcome json_loads ut idx row G out (G', out') ->
  sget n (_node G) = Some a ->
  exists a', sget n (_node G') = Some a' /\
             domain a' = domain a /\ distance a' <= distance a.
Proof.
  assert (Hstep : forall s dom dist G0 G1 a0,
             add_or_update (PyStr s) dom dist G0 = Ok G1 ->
             sget n (_node G0) = Some a0 ->
             exists a1, sget n (_node G1) = Some a1 /\
                        domain a1 = domain a0 /\ distance a1 <= distance a0).
  { intros s dom dist G0 G1 a0 E Hn.
    rewrite (add_or_update_lookup _ _ _ _ _ n E), Hn.
    destruct (String.eqb n s); eexists; (split; [reflexivity|]); simpl;
      (split; [reflexivity | lia]). }
  intros H Hn.
  inversion H as [e Es | so s da G1 e Es Ea Eda E1 Et
                 | so s da G1 to b db G2 Es Ea Eda E1 Et Eb Edb E2]; subst.
  - exists a. repeat split; [assumption | lia].
  - eapply Hstep; eauto.
  - destruct (Hstep _ _ _ _ _ _ E1 Hn) as (a1 & H1 & D1 & L1).
    destruct (Hstep _ _ _ _ _ _ E2 H1) as (a2 & H2 & D2 & L2).
    exists a2. cbn [connect _node]. repeat split; [assumption|congruence|lia].
Qed.

Lemma row_outcome_NoDup ut idx row G out G' out' :
  row_outcome json_loads ut idx row G out (G', out') ->
  NoDup (node_names G) -> NoDup (node_names G').
Proof.
  assert (Hstep : forall s dom dist G0 G1,
             add_or_update (PyStr s) dom dist G0 = Ok G1 ->
             NoDup (node_names G0) -> NoDup (node_names G1)).
  { intros s dom dist G0 G1 E Hnd.
    destruct (add_or_update_named s dom dist G0) as (G2 & H2 & Hn & _).
    rewrite E in H2. inversion H2; subst G2. unfold node_names. rewrite Hn.
    apply dict_set_NoDup; [apply String.eqb_spec | exact Hnd]. }
  intros H Hnd.
  inversion H as [e Es | so s da G1 e Es Ea Eda E1 Et
                 | so s da G1 to b db G2 Es Ea Eda E1 Et Eb Edb E2]; subst;
    eauto.
  unfold node_names; cbn [connect _node]. eapply Hstep; eauto.
Qed.

Lemma claims_for_app n l1 l2 :
  claims_for n (l1 ++ l2) = claims_for n l1 ++ claims_for n l2.
Proof. unfold claims_for. now rewrite filter_app, map_app. Qed.

Lemma running_min_app o l1 l2 :
  running_min o (l1 ++ l2) = running_min (running_min o l1) l2.
Proof. apply fold_left_app. Qed.

(** The loop, seen from one node. *)
Lemma process_rows_distance ut rows : forall G out G' out' n,
  process_rows json_loads ut rows (G, out) = Ok (G', out') ->
  option_map distance (sget n (_node G')) =
  running_min (option_map distance (sget n (_node G)))
    (table_claims json_loads ut n rows).
Proof.
  induction rows as [|[idx row] rows IH]; intros G out G' out' n H.
  - inversion H; subst. reflexivity.
  - loop_step H G1 out1 E.
    unfold table_claims in *. cbn [flat_map snd].
    rewrite claims_for_app, running_min_app.
    rewrite <- (row_outcome_distance _ _ _ _ _ _ _ n E).
    eapply IH; eauto.
Qed.

Lemma process_rows_frame ut rows : forall G out G' out' n a,
  process_rows json_loads ut rows (G, out) = Ok (G', out') ->
  sget n (_node G) = Some a ->
  exists a', sget n (_node G') = Some a' /\
             domain a' = domain a /\ distance a' <= distance a.
Proof.
  induction rows as [|[idx row] rows IH]; intros G out G' out' n a H Hn.
  - inversion H; subst. exists a. repeat split; [assumption|lia].
  - loop_step H G1 out1 E.
    destruct (row_outcome_frame _ _ _ _ _ _ _ _ _ E Hn) as (a1 & H1 & D1 & L1).
    destruct (IH _ _ _ _ _ _ H H1) as (a2 & H2 & D2 & L2).
    exists a2. repeat split; [assumption|congruence|lia].
Qed.

Lemma process_rows_NoDup ut rows : forall G out G' out',
  process_rows json_loads ut rows (G, out) = Ok (G', out') ->
  NoDup (node_names G) -> NoDup (node_names G').
Proof.
  induction rows as [|[idx row] rows IH]; intros G out G' out' H Hnd.
  - inversion H; subst. exact Hnd.
  - loop_step H G1 out1 E.
    eapply IH; eauto. eapply row_outcome_NoDup; eauto.
Qed.

(** A completed construction started from a named ultimate target. *)
Lemma build_graph_inv df G out :
  build_graph json_loads df = Ok (G, out) ->
  exists t dom,
    ultimate_target_id json_loads df = Ok (PyStr t) /\
    process_rows json_loads (PyStr t) df (seed_graph t dom, []) = Ok (G, out).
Proof.
  unfold build_graph, ultimate_target_id.
  destruct (ultimate_target json_loads df) as [j|]; [|discriminate].
  cbn [bind].
  destruct (subscript j "name") as [[|t]|]; cbn [bind]; try discriminate.
  - destruct (get j "domain" Unknown); discriminate.
  - destruct (get j "domain" Unknown) as [dom|]; cbn [bind]; [|discriminate].
    intros H. exists t, dom. split; [reflexivity | exact H].
Qed.
End BuildFacts.

(** ** Minimum of the claims *)

Lemma running_min_Some (cs : list Z) : forall m0,
  exists m, running_min (Some m0) cs = Some m /\ is_minimum m (m0 :: cs).
Proof.
  induction cs as [|c cs IH]; intros m0.
  - exists m0. split; [reflexivity|]. split; [now left|].
    constructor; [lia | constructor].
  - destruct (IH (Z.min m0 c)) as (m & Hm & Hin & Hall).
    exists m. split; [exact Hm|].
    inversion Hall as [|? ? Hle Hcs]; subst. split.
    + destruct Hin as [E|Hin]; [|now right; right].
      destruct (Z.min_spec m0 c) as [[_ E']|[_ E']]; rewrite E' in E; subst;
        [now left | now right; left].
    + repeat constructor; try lia. exact Hcs.
Qed.

Lemma running_min_None (cs : list Z) :
  match running_min None cs with
  | Some m => is_minimum m cs
  | None => cs = []
  end.
Proof.
  destruct cs as [|c cs]; [reflexivity|].
  cbn [running_min fold_left].
  destruct (running_min_Some cs c) as (m & Hm & Hmin).
  unfold running_min in Hm. rewrite Hm. exact Hmin.
Qed.

Lemma table_claims_nonneg json_loads (t : string) (df : DataFrame) :
  Forall (fun ir => 0 <= DISTANCE (snd ir)) df ->
  Forall (fun c => 0 <= c) (table_claims json_loads (PyStr t) t df).
Proof.
  unfold table_claims.
  induction 1 as [|[idx r] df Hr _ IH]; cbn [flat_map snd]; [constructor|].
  rewrite claims_for_app. apply Forall_app. split; [|exact IH].
  unfold row_claims, target_claim, claims_for. cbn [snd] in Hr.
  destruct (name_of json_loads (SOURCE_OBJECT r)) as [a|]; [|constructor].
  destruct (name_of json_loads (TARGET_OBJECT r)) as [b|];
    cbn [filter fst snd pyval_eqb];
    destruct (String.eqb a t); try destruct (String.eqb b t);
    cbn [map snd]; repeat constructor; lia.
Qed.

(** ** Graph construction: the claims *)

(** C1. When every DISTANCE of the table is a non-negative integer, the
    node named like row 0's TARGET_OBJECT has distance exactly 0 in the
    constructed graph, whatever distances the rows state for that name. *)
Theorem ultimate_target_distance_zero
  (json_loads : string -> decoded) (df : DataFrame) (t : string)
  (G : DiGraph) (out : list string) :
  Forall (fun ir => 0 <= DISTANCE (snd ir)) df ->
  ultimate_target_id json_loads df = Ok (PyStr t) ->
  build_graph json_loads df = Ok (G, out) ->
  exists a, sget t (_node G) = Some a /\ distance a = 0.
Proof.
  intros Hpos Hut Hb.
  destruct (build_graph_inv _ _ _ _ Hb) as (t' & dom & Hut' & Hloop).
  rewrite Hut in Hut'. inversion Hut'; subst t'.
  pose proof (process_rows_distance _ _ _ _ _ _ _ t Hloop) as Hd.
  cbn [seed_graph _node sget dict_get] in Hd. rewrite String.eqb_refl in Hd.
  cbn [option_map distance] in Hd.
  destruct (running_min_Some (table_claims json_loads (PyStr t) t df) 0)
    as (m & Hm & Hin & Hall).
  rewrite Hm in Hd.
  destruct (sget t (_node G)) as [a|]; [|discriminate].
  exists a. split; [reflexivity|].
  inversion Hd as [Ha]. rewrite Ha.
  pose proof (table_claims_nonneg json_loads t df Hpos) as Hnn.
  inversion Hall as [|? ? Hle _]; subst.
  destruct Hin as [E|Hin]; [lia|].
  rewrite Forall_forall in Hnn. specialize (Hnn _ Hin). lia.
Qed.

Lemma ultimate_target_distance_zero_witness :
  build_graph flat_loads skipped_rows
    = Ok (skipped_rows_graph, skipped_rows_output) /\
  exists a, sget "T" (_node skipped_rows_graph) = Some a /\ distance a = 0.
Proof.
  split; [reflexivity|].
  apply (ultimate_target_distance_zero flat_loads skipped_rows "T"
           skipped_rows_graph skipped_rows_output).
  - repeat constructor; simpl; lia.
  - reflexivity.
  - reflexivity.
Defined.

(** C2 (amended). The final distance of a node is the minimum of the
    claims made for it, where creating the ultimate target (line 40) counts
    as a claim of 0 for it, a row whose source decodes claims its DISTANCE
    for the source node, and a row whose source and target both decode
    claims 0 for a target named like the ultimate target and DISTANCE - 1
    for any other target.  A name nobody claims is not a node. *)
Theorem final_distance_is_min_claim
  (json_loads : string -> decoded) (df : DataFrame) (ut : pyval)
  (G : DiGraph) (out : list string) (n : string) :
  ultimate_target_id json_loads df = Ok ut ->
  build_graph json_loads df = Ok (G, out) ->
  match sget n (_node G) with
  | Some a => is_minimum (distance a) (all_claims json_loads ut n df)
  | None => all_claims json_loads ut n df = []
  end.
Proof.
  intros Hut Hb.
  destruct (build_graph_inv _ _ _ _ Hb) as (t & dom & Hut' & Hloop).
  rewrite Hut in Hut'. inversion Hut'; subst ut.
  pose proof (process_rows_distance _ _ _ _ _ _ _ n Hloop) as Hd.
  unfold all_claims, seed_claim. cbn [pyval_eqb].
  cbn [seed_graph _node sget dict_get] in Hd.
  destruct (String.eqb n t).
  - cbn [option_map distance] in Hd.
    destruct (running_min_Some (table_claims json_loads (PyStr t) n df) 0)
      as (m & Hm & Hmin).
    rewrite Hm in Hd.
    destruct (sget n (_node G)) as [a|]; [|discriminate].
    inversion Hd as [Ha]. rewrite Ha. exact Hmin.
  - cbn [option_map app] in Hd |- *.
    pose proof (running_min_None (table_claims json_loads (PyStr t) n df)) as Hn.
    rewrite <- Hd in Hn.
    destruct (sget n (_node G)) as [a|]; exact Hn.
Qed.

Lemma final_distance_is_min_claim_witness :
  is_minimum 1 (all_claims flat_loads (PyStr "T") "A" two_claims).
Proof.
  exact (final_distance_is_min_claim flat_loads two_claims (PyStr "T")
           two_claims_graph [] "A" eq_refl eq_refl).
Defined.

(** C2, as stated, fails whichever way "successfully parsed rows" is
    read.  In [skipped_rows] the ultimate target T keeps the distance 0 of
    its creation although row 0 is skipped and the only row that is
    processed and references T claims 5; and U ends at 4 although the
    target of the skipped row 2 would claim 1 for it. *)
Lemma row_claims_miss_the_seed :
  ~ distance_is_min_of row_claims flat_loads skipped_rows /\
  ~ distance_is_min_of whole_row_claims flat_loads skipped_rows /\
  ~ distance_is_min_of object_claims flat_loads skipped_rows.
Proof.
  repeat split; intros H.
  - specialize (H (PyStr "T") skipped_rows_graph skipped_rows_output
                  "T" _ eq_refl eq_refl eq_refl).
    destruct H as [Hin _]. vm_compute in Hin.
    destruct Hin as [E|[]]. discriminate E.
  - specialize (H (PyStr "T") skipped_rows_graph skipped_rows_output
                  "T" _ eq_refl eq_refl eq_refl).
    destruct H as [Hin _]. vm_compute in Hin.
    destruct Hin as [E|[]]. discriminate E.
  - specialize (H (PyStr "T") skipped_rows_graph skipped_rows_output
                  "U" _ eq_refl eq_refl eq_refl).
    destruct H as [_ Hall]. vm_compute in Hall.
    inversion Hall as [|? ? _ Hall']. inversion Hall' as [|? ? Hle _].
    apply Hle. reflexivity.
Qed.

(** The scenario of the specification: claims 3 and 1 for A give 1. *)
Example two_claims_distance :
  exists G out, build_graph flat_loads two_claims = Ok (G, out) /\
    option_map distance (sget "A" (_node G)) = Some 1.
Proof. do 2 eexists. split; reflexivity. Qed.

(** ** Rows that do not decode *)

(** The printed lines are only appended to: the graph does not depend on
    them. *)
Lemma process_row_log json_loads ut ir G out :
  process_row json_loads ut ir (G, out) =
  do st <- process_row json_loads ut ir (G, []); Ok (fst st, out ++ snd st).
Proof.
  destruct ir as [idx row]. unfold process_row.
  destruct (json_loads (SOURCE_OBJECT row)) as [so|e]; [|reflexivity].
  destruct (get so "name" PyNone) as [src_id|]; [|reflexivity]. cbn [bind].
  destruct (get so "domain" Unknown) as [da|]; [|reflexivity]. cbn [bind].
  destruct (add_or_update src_id da (DISTANCE row) G) as [G1|]; [|reflexivity].
  cbn [bind].
  destruct (json_loads (TARGET_OBJECT row)) as [to|e]; [|reflexivity].
  destruct (get to "name" PyNone) as [tgt_id|]; [|reflexivity]. cbn [bind].
  destruct (get to "domain" Unknown) as [db|]; [|reflexivity]. cbn [bind].
  destruct (add_or_update tgt_id db _ G1) as [G2|]; [|reflexivity]. cbn [bind].
  destruct src_id, tgt_id; cbn [add_edge bind fst snd]; rewrite ?app_nil_r;
    reflexivity.
Qed.

Lemma process_rows_log json_loads ut rows : forall G out,
  process_rows json_loads ut rows (G, out) =
  do st <- process_rows json_loads ut rows (G, []); Ok (fst st, out ++ snd st).
Proof.
  induction rows as [|ir rows IH]; intros G out; cbn [process_rows bind fst snd].
  - now rewrite app_nil_r.
  - rewrite process_row_log.
    destruct (process_row json_loads ut ir (G, [])) as [[G1 out1]|]; [|reflexivity].
    cbn [bind fst snd]. rewrite IH, (IH G1 out1).
    destruct (process_rows json_loads ut rows (G1, [])) as [[G2 out2]|];
      [|reflexivity].
    cbn [bind fst snd]. now rewrite app_assoc.
Qed.

Lemma graph_of_log json_loads ut rows G out out' :
  graph_of (process_rows json_loads ut rows (G, out)) =
  graph_of (process_rows json_loads ut rows (G, out')).
Proof.
  rewrite (process_rows_log _ _ _ G out), (process_rows_log _ _ _ G out').
  unfold graph_of.
  now destruct (process_rows json_loads ut rows (G, [])) as [[G1 out1]|].
Qed.

(** A row whose source does not decode can be taken out of the rows of the
    loop, wherever it stands: the graph is the same. *)
Lemma source_skip_graph json_loads ut idx row e :
  json_loads (SOURCE_OBJECT row) = JSONDecodeError e ->
  forall pre rest st,
    graph_of (process_rows json_loads ut (pre ++ (idx, row) :: rest) st)
    = graph_of (process_rows json_loads ut (pre ++ rest) st).
Proof.
  intros He. induction pre as [|ir pre IH]; intros rest [G out].
  - cbn [app process_rows].
    assert (H : process_row json_loads ut (idx, row) (G, out)
                = Ok (G, out ++ [source_error idx e])).
    { apply process_row_outcome. now constructor. }
    rewrite H. cbn [bind]. apply graph_of_log.
  - cbn [app process_rows].
    destruct (process_row json_loads ut ir (G, out)) as [st1|]; cbn [bind];
      [apply IH | reflexivity].
Qed.

(** C5 as the specification words it does not hold: in [skipped_first] the
    SOURCE_OBJECT of row 0 is not JSON and no other row names T, yet T, the
    name in the TARGET_OBJECT of row 0, is a node: row 0 is read before the
    loop and gives the ultimate target (line 40). *)
Lemma skipped_row_0_adds_its_target :
  build_graph flat_loads skipped_first
    = Ok (skipped_first_graph,
          ["Error parsing SOURCE_OBJECT at row 0: Expecting value: line 1 column 1 (char 0)"]) /\
  ~ skipped_row_adds_no_target_node flat_loads skipped_first.
Proof.
  split; [reflexivity|]. intros H.
  specialize (H skipped_first_graph _ 0 (row "not json" T 1) no_value "T"
                eq_refl (or_introl eq_refl) eq_refl eq_refl).
  assert (Hnone : sget "T" (_node skipped_first_graph) = None).
  { apply H. intros idx' row' so [E|[E|[]]] Hd; inversion E; subst.
    - discriminate Hd.
    - split; discriminate. }
  discriminate Hnone.
Qed.

(** C5. The iteration for a row whose SOURCE_OBJECT does not decode leaves
    the graph as it is (no node, no edge is added or updated) and prints
    the line "Error parsing SOURCE_OBJECT at row <index>: <error>"; the
    loop goes on with the rows that follow, which build the graph they
    would build without that row.  A row other than row 0 contributes
    nothing: the call builds the graph it builds from the table without
    the row.  Row 0 contributes the ultimate target, which is made from
    its TARGET_OBJECT before the loop, and nothing else. *)
Theorem unparseable_source_skips_row
  (json_loads : string -> decoded) (ut : pyval) (idx : Z) (row : Row)
  (rest : DataFrame) (G : DiGraph) (out : list string) (e : string) :
  json_loads (SOURCE_OBJECT row) = JSONDecodeError e ->
  process_row json_loads ut (idx, row) (G, out)
    = Ok (G, out ++ [("Error parsing SOURCE_OBJECT at row "
                        ++ str_of_Z idx ++ ": " ++ e)%string]) /\
  process_rows json_loads ut ((idx, row) :: rest) (G, out)
    = process_rows json_loads ut rest
        (G, out ++ [("Error parsing SOURCE_OBJECT at row "
                       ++ str_of_Z idx ++ ": " ++ e)%string]) /\
  graph_of (process_rows json_loads ut ((idx, row) :: rest) (G, out))
    = graph_of (process_rows json_loads ut rest (G, out)) /\
  (forall (first : Z * Row) (pre : DataFrame),
     graph_of (build_graph json_loads (first :: pre ++ (idx, row) :: rest))
     = graph_of (build_graph json_loads (first :: pre ++ rest))) /\
  build_graph json_loads ((idx, row) :: rest)
    = (do j <- ultimate_target json_loads ((idx, row) :: rest);
       do t <- subscript j "name";
       do dom <- get j "domain" Unknown;
       do G0 <- add_node t dom 0 empty_graph;
       process_rows json_loads t rest
         (G0, [("Error parsing SOURCE_OBJECT at row "
                  ++ str_of_Z idx ++ ": " ++ e)%string])).
Proof.
  intros He.
  assert (H1 : forall ut' G' out',
             process_row json_loads ut' (idx, row) (G', out')
             = Ok (G', out' ++ [source_error idx e])).
  { intros ut' G' out'. apply process_row_outcome. now constructor. }
  assert (H2 : forall ut' G' out',
             process_rows json_loads ut' ((idx, row) :: rest) (G', out')
             = process_rows json_loads ut' rest (G', out' ++ [source_error idx e])).
  { intros ut' G' out'. cbn [process_rows]. now rewrite H1. }
  split; [exact (H1 ut G out)|]. split; [exact (H2 ut G out)|].
  split; [rewrite H2; apply graph_of_log|]. split.
  - intros [i0 r0] pre. unfold build_graph, ultimate_target. cbn [iloc0 bind].
    destruct (json_loads (TARGET_OBJECT r0)) as [j|]; [|reflexivity].
    cbn [bind].
    destruct (subscript j "name") as [t|]; [|reflexivity]. cbn [bind].
    destruct (get j "domain" Unknown) as [dom|]; [|reflexivity]. cbn [bind].
    destruct (add_node t dom 0 empty_graph) as [G0|]; [|reflexivity]. cbn [bind].
    apply (source_skip_graph json_loads t idx row e He ((i0, r0) :: pre) rest).
  - unfold build_graph.
    destruct (ultimate_target json_loads ((idx, row) :: rest)) as [j|];
      [|reflexivity]. cbn [bind].
    destruct (subscript j "name") as [t|]; [|reflexivity]. cbn [bind].
    destruct (get j "domain" Unknown) as [dom|]; [|reflexivity]. cbn [bind].
    destruct (add_node t dom 0 empty_graph) as [G0|]; [|reflexivity]. cbn [bind].
    apply H2.
Qed.

Lemma unparseable_source_skips_row_witness :
  process_row flat_loads (PyStr "T") (1, row "not json" (obj "W" "TABLE") 7)
    (one_edge_graph, [])
  = Ok (one_edge_graph,
        ["Error parsing SOURCE_OBJECT at row 1: Expecting value: line 1 column 1 (char 0)"])
  /\ graph_of (build_graph flat_loads skipped_middle)
     = graph_of (build_graph flat_loads without_middle).
Proof.
  pose proof (unparseable_source_skips_row flat_loads (PyStr "T") 1
                (row "not json" (obj "W" "TABLE") 7)
                [(2, row (obj "A" "MODEL") (obj "S" "MODEL") 2)]
                one_edge_graph [] no_value eq_refl) as H.
  split.
  - exact (proj1 H).
  - exact (proj1 (proj2 (proj2 (proj2 H))) (0, row (obj "S" "MODEL") T 1) []).
Defined.

(** C6 as the specification words it does not hold: a SOURCE_OBJECT that
    parses need not give a node.  In row 1 of [nameless_bad_target] it
    parses to an object without a name and the TARGET_OBJECT is not JSON:
    the iteration raises when it adds the source node (line 59), before
    the target is read, and the call ends there. *)
Lemma parsed_source_is_not_enough :
  ~ parsed_source_bad_target_continues flat_loads (PyStr "T")
      (1, row (nameless "MODEL") "not json" 1) (one_edge_graph, []) /\
  process_row flat_loads (PyStr "T")
    (1, row (nameless "MODEL") "not json" 1) (one_edge_graph, [])
    = Raise ValueError /\
  build_graph flat_loads nameless_bad_target = Raise ValueError.
Proof.
  split; [|split; reflexivity].
  intros H.
  destruct (H (JObject [("domain", PyStr "MODEL")]) no_value eq_refl eq_refl)
    as (st' & Hst).
  discriminate Hst.
Qed.

(** C6. A row whose SOURCE_OBJECT decodes to an object with a name and
    whose TARGET_OBJECT does not decode: the source node is created, or
    keeps the smaller distance, and stays so; no other node changes, no
    node but the source is added, no edge is added; the line
    "Error parsing TARGET_OBJECT at row <index>: <error>" is printed and
    the loop goes on with the next row. *)
Theorem unparseable_target_keeps_source
  (json_loads : string -> decoded) (ut : pyval) (idx : Z) (row : Row)
  (rest : DataFrame) (G : DiGraph) (out : list string)
  (d : list (string * pyval)) (a : string) (e : string) :
  json_loads (SOURCE_OBJECT row) = Decoded (JObject d) ->
  sget "name" d = Some (PyStr a) ->
  json_loads (TARGET_OBJECT row) = JSONDecodeError e ->
  exists G1,
    process_rows json_loads ut ((idx, row) :: rest) (G, out)
      = process_rows json_loads ut rest
          (G1, out ++ [("Error parsing TARGET_OBJECT at row "
                          ++ str_of_Z idx ++ ": " ++ e)%string]) /\
    sget a (_node G1)
      = Some (reconciled (sget a (_node G))
                (match sget "domain" d with Some v => v | None => Unknown end)
                (DISTANCE row)) /\
    (forall n, n <> a -> sget n (_node G1) = sget n (_node G)) /\
    node_names G1
      = (if smem a (_node G) then node_names G else node_names G ++ [a]) /\
    edges G1 = edges G.
Proof.
  intros Es Ea Et.
  set (da := match sget "domain" d with Some v => v | None => Unknown end).
  destruct (add_or_update_named a da (DISTANCE row) G) as (G1 & E1 & Hn & He).
  exists G1. repeat split.
  - cbn [process_rows].
    assert (H : process_row json_loads ut (idx, row) (G, out)
                = Ok (G1, out ++ [target_error idx e])).
    { apply process_row_outcome.
      apply (target_skipped json_loads ut idx row G out (JObject d) a da G1 e);
        auto.
      - cbn [get]. now rewrite Ea.
      - cbn [get]. unfold da. now destruct (sget "domain" d). }
    now rewrite H.
  - rewrite Hn. apply sget_sset_same.
  - intros n Hne. rewrite Hn. apply sget_sset_other. congruence.
  - unfold node_names. rewrite Hn. unfold sset.
    rewrite (dict_keys_set String.eqb String.eqb_spec). reflexivity.
  - exact He.
Qed.

Lemma unparseable_target_keeps_source_witness :
  exists G1,
    process_rows flat_loads (PyStr "T")
      [(1, row (obj "S" "DATASET") "not json" 1)] (bad_target_graph_row0, [])
    = Ok (G1, ["Error parsing TARGET_OBJECT at row 1: Expecting value: line 1 column 1 (char 0)"]) /\
    sget "S" (_node G1) = Some {| domain := PyStr "MODEL"; distance := 1 |} /\
    edges G1 = [("S", "T")].
Proof.
  destruct (unparseable_target_keeps_source flat_loads (PyStr "T") 1
              (row (obj "S" "DATASET") "not json" 1) []
              bad_target_graph_row0 []
              [("name", PyStr "S"); ("domain", PyStr "DATASET")] "S" no_value
              eq_refl eq_refl eq_refl) as (G1 & H1 & H2 & _ & _ & H5).
  exists G1. repeat split; [exact H1 | exact H2 | exact H5].
Defined.

(** The table [bad_target] as a whole: S keeps the domain of row 0 and the
    smaller distance of row 1. *)
Example bad_target_build :
  build_graph flat_loads bad_target
  = Ok (bad_target_graph, [target_error 1 no_value]).
Proof. reflexivity. Qed.

(** C9. A node that exists keeps its domain whatever rows follow, also
    rows that carry another domain for its name; its distance can only
    decrease, and a revisit writes nothing but the smaller distance. *)
Theorem domain_is_never_changed
  (json_loads : string -> decoded) (ut : pyval) (rows : DataFrame)
  (G G' : DiGraph) (out out' : list string) (n : string) (a : NodeAttrs) :
  sget n (_node G) = Some a ->
  process_rows json_loads ut rows (G, out) = Ok (G', out') ->
  (exists a', sget n (_node G') = Some a' /\
              domain a' = domain a /\ distance a' <= distance a) /\
  (forall dom dist, exists G1,
      add_or_update (PyStr n) dom dist G = Ok G1 /\
      sget n (_node G1)
        = Some {| domain := domain a; distance := Z.min (distance a) dist |} /\
      (forall m, m <> n -> sget m (_node G1) = sget m (_node G)) /\
      node_names G1 = node_names G).
Proof.
  intros Hn Hloop. split.
  - eapply process_rows_frame; eauto.
  - intros dom dist.
    destruct (add_or_update_named n dom dist G) as (G1 & E1 & Hnodes & _).
    exists G1. rewrite Hn in Hnodes. cbn [reconciled] in Hnodes.
    repeat split; [exact E1 | | |].
    + rewrite Hnodes. apply sget_sset_same.
    + intros m Hne. rewrite Hnodes. apply sget_sset_other. congruence.
    + unfold node_names. rewrite Hnodes. unfold sset.
      rewrite (dict_keys_set String.eqb String.eqb_spec).
      unfold dict_mem. fold (@sget NodeAttrs). now rewrite Hn.
Qed.

Lemma domain_is_never_changed_witness :
  exists a', sget "S" (_node bad_target_graph) = Some a' /\
             domain a' = PyStr "MODEL" /\ distance a' <= 2.
Proof.
  exact (proj1 (domain_is_never_changed flat_loads (PyStr "T")
           [(1, row (obj "S" "DATASET") "not json" 1)]
           bad_target_graph_row0 bad_target_graph
           [] [target_error 1 no_value]
           "S" {| domain := PyStr "MODEL"; distance := 2 |}
           eq_refl eq_refl)).
Defined.

(** ** Objects without a name *)

(** C10 (amended). An object that decodes but has no name (or a null
    name) is not a decode failure: the row is not skipped and no error line
    is printed.  Its node identity is null, which the graph refuses:
    [add_node] raises [ValueError], nothing catches it, and the call aborts
    there, for a nameless source and, once the source is reconciled, for a
    nameless target. *)
Theorem nameless_object_aborts
  (json_loads : string -> decoded) (ut : pyval) (idx : Z) (row : Row)
  (rest : DataFrame) (G : DiGraph) (out : list string) :
  (forall so,
      json_loads (SOURCE_OBJECT row) = Decoded so ->
      get so "name" PyNone = Ok PyNone ->
      process_rows json_loads ut ((idx, row) :: rest) (G, out)
        = Raise ValueError) /\
  (forall so a to,
      json_loads (SOURCE_OBJECT row) = Decoded so ->
      get so "name" PyNone = Ok (PyStr a) ->
      json_loads (TARGET_OBJECT row) = Decoded to ->
      get to "name" PyNone = Ok PyNone ->
      process_rows json_loads ut ((idx, row) :: rest) (G, out)
        = Raise ValueError).
Proof.
  assert (Hdom : forall j v, get j "name" PyNone = Ok v ->
                             exists dm, get j "domain" Unknown = Ok dm).
  { intros [d|] v H; [|discriminate]. cbn [get].
    destruct (sget "domain" d); eexists; reflexivity. }
  split.
  - intros so Es Ea. cbn [process_rows]. unfold process_row.
    destruct (Hdom _ _ Ea) as (da & Eda).
    rewrite Es, Ea. cbn [bind]. rewrite Eda. cbn [bind].
    rewrite add_or_update_None. reflexivity.
  - intros so a to Es Ea Et Eb. cbn [process_rows]. unfold process_row.
    destruct (Hdom _ _ Ea) as (da & Eda). destruct (Hdom _ _ Eb) as (db & Edb).
    destruct (add_or_update_named a da (DISTANCE row) G) as (G1 & E1 & _).
    rewrite Es, Ea. cbn [bind]. rewrite Eda. cbn [bind]. rewrite E1. cbn [bind].
    rewrite Et, Eb. cbn [bind]. rewrite Edb. cbn [bind].
    rewrite add_or_update_None. reflexivity.
Qed.

Lemma nameless_object_aborts_witness :
  process_rows flat_loads (PyStr "T") [(1, row (nameless "MODEL") T 1)]
    (seed_graph "T" (PyStr "TABLE"), []) = Raise ValueError.
Proof.
  exact (proj1 (nameless_object_aborts flat_loads (PyStr "T") 1
                  (row (nameless "MODEL") T 1) []
                  (seed_graph "T" (PyStr "TABLE")) [])
           (JObject [("domain", PyStr "MODEL")]) eq_refl eq_refl).
Defined.

(** C10, as stated, fails: with a nameless source in row 1 the
    construction does not complete, so no node is keyed by the null
    identity. *)
Lemma nameless_source_is_not_processed :
  build_graph flat_loads nameless_source = Raise ValueError /\
  ~ nameless_rows_are_processed flat_loads nameless_source.
Proof.
  split; [reflexivity|].
  intros (G & out & H). vm_compute in H. discriminate H.
Qed.

(** ** The DIRECTION column *)

Lemma process_row_direction json_loads ut ir1 ir2 st :
  fst ir1 = fst ir2 /\
  SOURCE_OBJECT (snd ir1) = SOURCE_OBJECT (snd ir2) /\
  TARGET_OBJECT (snd ir1) = TARGET_OBJECT (snd ir2) /\
  DISTANCE (snd ir1) = DISTANCE (snd ir2) ->
  process_row json_loads ut ir1 st = process_row json_loads ut ir2 st.
Proof.
  destruct ir1 as [i1 r1], ir2 as [i2 r2], st as [G out]. cbn [fst snd].
  intros (-> & Hs & Ht & Hd). unfold process_row. now rewrite Hs, Ht, Hd.
Qed.

Lemma process_rows_direction json_loads ut df1 df2 :
  same_but_direction df1 df2 ->
  forall st, process_rows json_loads ut df1 st = process_rows json_loads ut df2 st.
Proof.
  induction 1 as [|ir1 ir2 df1 df2 Hr _ IH]; intros st; [reflexivity|].
  cbn [process_rows]. rewrite (process_row_direction _ _ _ _ _ Hr).
  destruct (process_row json_loads ut ir2 st); cbn [bind]; [apply IH | reflexivity].
Qed.

Lemma build_graph_direction json_loads df1 df2 :
  same_but_direction df1 df2 ->
  build_graph json_loads df1 = build_graph json_loads df2.
Proof.
  intros H. unfold build_graph.
  assert (Hu : ultimate_target json_loads df1 = ultimate_target json_loads df2).
  { unfold ultimate_target.
    destruct H as [|[i1 r1] [i2 r2] df1 df2 (_ & _ & Ht & _) _]; [reflexivity|].
    cbn [iloc0 bind snd] in *. now rewrite Ht. }
  rewrite Hu.
  destruct (ultimate_target json_loads df2) as [j|]; [|reflexivity]. cbn [bind].
  destruct (subscript j "name") as [ut|]; [|reflexivity]. cbn [bind].
  destruct (get j "domain" Unknown) as [dom|]; [|reflexivity]. cbn [bind].
  destruct (add_node ut dom 0 empty_graph) as [G0|]; [|reflexivity]. cbn [bind].
  now apply process_rows_direction.
Qed.

(** C8. Two tables that agree on everything but the DIRECTION column give
    the same graph and printed lines, the same positions, and the same
    figure: the same traces and the same viewport ranges. *)
Theorem direction_is_not_read
  (json_loads : string -> decoded) (df1 df2 : DataFrame)
  (short_names : bool) (initial_zoom : Q) :
  same_but_direction df1 df2 ->
  build_graph json_loads df1 = build_graph json_loads df2 /\
  positions json_loads df1 = positions json_loads df2 /\
  visualize_lineage json_loads df1 short_names initial_zoom
    = visualize_lineage json_loads df2 short_names initial_zoom.
Proof.
  intros H. pose proof (build_graph_direction json_loads _ _ H) as Hb.
  unfold positions, visualize_lineage. rewrite Hb. repeat split.
Qed.

Lemma direction_is_not_read_witness :
  visualize_lineage flat_loads one_edge true 2
  = visualize_lineage flat_loads
      [(0, {| SOURCE_OBJECT := obj "S" "MODEL"; TARGET_OBJECT := T;
              DIRECTION := "Downstream"; DISTANCE := 1 |})] true 2.
Proof.
  refine (proj2 (proj2 (direction_is_not_read flat_loads one_edge _ true 2 _))).
  repeat constructor.
Defined.

(** ** Sorting *)

Lemma lex_le_cases (a b : string) :
  lex_le a b <-> String_as_OT.lt a b \/ a = b.
Proof.
  unfold lex_le, String.leb.
  destruct (String.compare a b) eqn:E.
  - apply String_as_OT.cmp_eq in E. tauto.
  - apply String_as_OT.cmp_lt in E. tauto.
  - split; [discriminate|]. intros [H| ->].
    + apply String_as_OT.cmp_lt in H. unfold String_as_OT.cmp in H. congruence.
    + assert (H : String.compare b b = Eq) by now apply String_as_OT.cmp_eq.
      congruence.
Qed.

Lemma lex_le_trans (a b c : string) : lex_le a b -> lex_le b c -> lex_le a c.
Proof.
  rewrite !lex_le_cases. intros [H1| ->] [H2| ->]; auto.
  left. eapply String_as_OT.lt_trans; eauto.
Qed.

Lemma lex_le_total (a b : string) : lex_le a b \/ lex_le b a.
Proof. apply String.leb_total. Qed.

Lemma insert_perm (s : string) (l : list string) :
  Permutation (insert s l) (s :: l).
Proof.
  induction l as [|t l IH]; simpl; [reflexivity|].
  destruct (String.leb s t); [reflexivity|].
  rewrite IH. apply perm_swap.
Qed.

Lemma sorted_perm (l : list string) : Permutation (sorted l) l.
Proof.
  induction l as [|s l IH]; simpl; [reflexivity|].
  rewrite insert_perm. now constructor.
Qed.

Lemma insert_sorted (s : string) (l : list string) :
  StronglySorted lex_le l -> StronglySorted lex_le (insert s l).
Proof.
  induction 1 as [|t l Hs IH Hall]; simpl.
  - repeat constructor.
  - destruct (String.leb s t) eqn:E.
    + constructor; [now constructor|].
      constructor; [exact E|].
      eapply Forall_impl; [|exact Hall].
      intros u Hu. eapply lex_le_trans; eauto.
    + constructor; [exact IH|].
      eapply Permutation_Forall; [symmetry; apply insert_perm|].
      constructor; [|exact Hall].
      destruct (lex_le_total s t) as [H|H]; [unfold lex_le in H; congruence|exact H].
Qed.

Lemma sorted_sorted (l : list string) : StronglySorted lex_le (sorted l).
Proof.
  induction l as [|s l IH]; simpl; [constructor|]. now apply insert_sorted.
Qed.

Lemma sorted_In (l : list string) (v : string) : In v (sorted l) <-> In v l.
Proof.
  split; apply Permutation_in; [|symmetry]; apply sorted_perm.
Qed.

Lemma sorted_length (l : list string) : List.length (sorted l) = List.length l.
Proof. apply Permutation_length, sorted_perm. Qed.

Lemma sorted_NoDup (l : list string) : NoDup l -> NoDup (sorted l).
Proof. apply Permutation_NoDup. symmetry. apply sorted_perm. Qed.

(** ** Evenly spaced positions *)

Lemma Qnat_S (n : nat) : (Qnat (S n) == Qnat n + 1)%Q.
Proof.
  unfold Qnat. rewrite Nat2Z.inj_succ, <- Z.add_1_r, inject_Z_plus. reflexivity.
Qed.

Lemma Qnat_S_nonzero (n : nat) : ~ (Qnat (S n) == 0)%Q.
Proof.
  unfold Qnat, Qeq; simpl. lia.
Qed.

(** For two points or more: a ramp, closed by the end point itself. *)
Lemma linspace_shape (a b : Q) (m : nat) :
  exists f : nat -> Q,
    linspace a b (S (S m)) = map f (seq 0 (S m)) ++ [b] /\
    forall k, (f k == Qnat k * ((b - a) / Qnat (S m)) + a)%Q.
Proof.
  unfold linspace.
  replace (S (S m) - 1)%nat with (S m) by lia.
  replace (0 <? S m)%nat with true by (symmetry; apply Nat.ltb_lt; lia).
  replace (1 <? S (S m))%nat with true by (symmetry; apply Nat.ltb_lt; lia).
  destruct (Qeq_bool ((b - a) / Qnat (S m)) 0);
    rewrite !map_map, seq_S, map_app; cbn [map]; rewrite removelast_last;
    eexists; (split; [reflexivity|]); intros k; cbv beta.
  - field. apply Qnat_S_nonzero.
  - reflexivity.
Qed.

Lemma linspace_length (a b : Q) (n : nat) : List.length (linspace a b n) = n.
Proof.
  destruct n as [|[|m]]; [reflexivity | reflexivity |].
  destruct (linspace_shape a b m) as (f & -> & _).
  rewrite length_app, length_map, length_seq. simpl. lia.
Qed.

Lemma column_ys_length (n : nat) : List.length (column_ys n) = n.
Proof. apply linspace_length. Qed.

(** Line 104: the [i]-th of [n] positions is [(n-1)/2 - i]. *)
Lemma column_ys_nth (n i : nat) :
  (i < n)%nat ->
  (nth i (column_ys n) 0 == (Qnat n - 1) / 2 - Qnat i)%Q.
Proof.
  intros Hi. unfold column_ys. destruct n as [|[|m]]; [lia| |].
  - replace i with 0%nat by lia. vm_compute. reflexivity.
  - destruct (linspace_shape ((Qnat (S (S m)) - 1) / 2)
                ((- (Qnat (S (S m)) - 1)) / 2) m) as (f & -> & Hf).
    pose proof (Qnat_S (S m)) as HS. pose proof (Qnat_S_nonzero m) as Hnz.
    destruct (Nat.eq_dec i (S m)) as [->|Hne].
    + rewrite app_nth2; rewrite length_map, length_seq; [|lia].
      rewrite Nat.sub_diag. cbn [nth]. rewrite HS. field.
    + rewrite app_nth1 by (rewrite length_map, length_seq; lia).
      rewrite (nth_indep _ 0%Q (f 0%nat)) by (rewrite length_map, length_seq; lia).
      rewrite map_nth, seq_nth by lia. cbn [Nat.add].
      rewrite Hf, HS. field. exact Hnz.
Qed.

(** ** Distance groups *)

Lemma zget_zset_same {V : Type} (k : Z) (v : V) d : zget k (zset k v d) = Some v.
Proof. apply dict_get_set_same, Z.eqb_spec. Qed.

Lemma zget_zset_other {V : Type} (k k' : Z) (v : V) d :
  k <> k' -> zget k' (zset k v d) = zget k' d.
Proof. apply dict_get_set_other, Z.eqb_spec. Qed.

Lemma fold_max_spec (l : list Z) : forall x,
  is_maximum (fold_left Z.max l x) (x :: l).
Proof.
  induction l as [|c l IH]; intros x; cbn [fold_left].
  - split; [now left | repeat constructor; lia].
  - destruct (IH (Z.max x c)) as [Hin Hall].
    inversion Hall as [|? ? Hle Hl]; subst. split.
    + destruct Hin as [E|Hin]; [|now right; right].
      rewrite <- E.
      destruct (Z.max_spec x c) as [[_ ->]|[_ ->]]; [now right; left | now left].
    + repeat constructor; try lia. exact Hl.
Qed.

Lemma py_max_spec (l : list Z) (m : Z) : py_max l = Ok m -> is_maximum m l.
Proof.
  destruct l as [|x l]; [discriminate|]. cbn [py_max].
  intros H; inversion H. apply fold_max_spec.
Qed.

Section Groups.
Variable nodes : list (string * NodeAttrs).
Hypothesis nodes_NoDup : NoDup (map fst nodes).

Lemma members_In (v : string) (d : Z) :
  In v (members d nodes) <->
  exists a, sget v nodes = Some a /\ distance a = d.
Proof.
  unfold members. rewrite in_map_iff. split.
  - intros ([v' a] & <- & Hin). apply filter_In in Hin. destruct Hin as [Hin Hd].
    exists a. split; [|now apply Z.eqb_eq].
    apply (dict_In_get String.eqb String.eqb_spec); assumption.
  - intros (a & Hget & Hd). exists (v, a). split; [reflexivity|].
    apply filter_In. split; [|now apply Z.eqb_eq].
    apply (dict_get_In String.eqb String.eqb_spec), Hget.
Qed.

Lemma members_NoDup (d : Z) : NoDup (members d nodes).
Proof.
  unfold members. clear -nodes_NoDup.
  induction nodes as [|[v a] l IH]; cbn [filter map]; [constructor|].
  inversion nodes_NoDup as [|? ? Hnot Hnd]; subst.
  destruct (Z.eqb (distance (snd (v, a))) d); [|auto].
  cbn [map fst]. constructor; [|auto].
  intros Hin. apply Hnot. apply in_map_iff in Hin.
  destruct Hin as (nd & <- & Hin). apply filter_In in Hin.
  apply in_map. tauto.
Qed.

Lemma members_disjoint (v : string) (d d' : Z) :
  In v (members d nodes) -> In v (members d' nodes) -> d = d'.
Proof.
  rewrite !members_In. intros (a & Ha & <-) (a' & Ha' & <-). congruence.
Qed.
End Groups.

Lemma group_append_get d v groups d' :
  zget d' (group_append d v groups) =
  if Z.eqb d' d then Some (group_of d groups ++ [v]) else zget d' groups.
Proof.
  unfold group_append, group_of.
  destruct (Z.eqb_spec d' d) as [->|Hne].
  - destruct (zget d groups); apply zget_zset_same.
  - destruct (zget d groups); apply zget_zset_other; congruence.
Qed.

Lemma group_append_NoDup d v groups :
  NoDup (map fst groups) -> NoDup (map fst (group_append d v groups)).
Proof.
  unfold group_append.
  destruct (zget d groups); apply dict_set_NoDup, Z.eqb_spec.
Qed.

Lemma members_cons d v a nodes :
  members d ((v, a) :: nodes) =
  if Z.eqb (distance a) d then v :: members d nodes else members d nodes.
Proof. unfold members. cbn [filter snd]. now destruct (Z.eqb (distance a) d). Qed.

Lemma groups_fold_get (nodes : list (string * NodeAttrs)) : forall acc d,
  zget d (fold_left (fun groups '(node, data) =>
                       group_append (distance data) node groups) nodes acc) =
  match members d nodes with
  | [] => zget d acc
  | ms => Some (group_of d acc ++ ms)
  end.
Proof.
  induction nodes as [|[v a] nodes IH]; intros acc d; [reflexivity|].
  cbn [fold_left]. rewrite IH, members_cons. unfold group_of at 1.
  rewrite !group_append_get, (Z.eqb_sym d (distance a)).
  destruct (Z.eqb_spec (distance a) d) as [<-|Hne].
  - destruct (members (distance a) nodes); [reflexivity|].
    now rewrite <- app_assoc.
  - reflexivity.
Qed.

Lemma groups_fold_NoDup (nodes : list (string * NodeAttrs)) : forall acc,
  NoDup (map fst acc) ->
  NoDup (map fst (fold_left (fun groups '(node, data) =>
                               group_append (distance data) node groups) nodes acc)).
Proof.
  induction nodes as [|[v a] nodes IH]; intros acc H; [exact H|].
  cbn [fold_left]. apply IH, group_append_NoDup, H.
Qed.

Lemma distance_groups_get (G : DiGraph) (d : Z) :
  zget d (distance_groups G) =
  match members d (_node G) with [] => None | ms => Some ms end.
Proof. unfold distance_groups. now rewrite groups_fold_get. Qed.

Lemma distance_groups_NoDup (G : DiGraph) : NoDup (map fst (distance_groups G)).
Proof. apply groups_fold_NoDup. constructor. Qed.

Lemma distance_groups_In (G : DiGraph) (d : Z) (ns : list string) :
  In (d, ns) (distance_groups G) -> ns = members d (_node G).
Proof.
  intros H.
  apply (dict_In_get Z.eqb Z.eqb_spec _ _ _ (distance_groups_NoDup G)) in H.
  fold (@zget (list string)) in H. rewrite distance_groups_get in H.
  destruct (members d (_node G)); congruence.
Qed.

Lemma distance_groups_has (G : DiGraph) (d : Z) :
  members d (_node G) <> [] -> In (d, members d (_node G)) (distance_groups G).
Proof.
  intros H. apply (dict_get_In Z.eqb Z.eqb_spec).
  fold (@zget (list string)). rewrite distance_groups_get.
  destruct (members d (_node G)); congruence.
Qed.

(** ** Positions *)

Lemma map_fst_combine {A B : Type} (l : list A) : forall l' : list B,
  List.length l = List.length l' -> map fst (combine l l') = l.
Proof.
  induction l as [|a l IH]; intros [|b l'] H; try discriminate; [reflexivity|].
  cbn [combine map fst]. f_equal. apply IH. now inversion H.
Qed.

Section Column.
Variable x : Z.

Lemma place_other (l : list (string * Q)) : forall pos k,
  ~ In k (map fst l) -> sget k (fold_left (put x) l pos) = sget k pos.
Proof.
  induction l as [|[n y] l IH]; intros pos k Hk; [reflexivity|].
  cbn [fold_left put]. cbn [map fst In] in Hk.
  rewrite IH by tauto. apply sget_sset_other. tauto.
Qed.

Lemma place_this (l : list (string * Q)) : forall pos k y,
  NoDup (map fst l) -> In (k, y) l ->
  sget k (fold_left (put x) l pos) = Some (x, y).
Proof.
  induction l as [|[n y'] l IH]; intros pos k y Hnd Hin; [contradiction|].
  cbn [map fst] in Hnd. inversion Hnd as [|? ? Hnot Hnd']; subst.
  cbn [fold_left put]. destruct Hin as [E|Hin].
  - inversion E; subst. rewrite place_other by exact Hnot.
    apply sget_sset_same.
  - now apply IH.
Qed.
End Column.

Lemma place_group_other (M : Z) (pos : Pos) (d : Z) (ns : list string) (k : string) :
  ~ In k ns -> sget k (place_group M pos (d, ns)) = sget k pos.
Proof.
  intros Hk. unfold place_group. apply place_other.
  rewrite map_fst_combine by (now rewrite column_ys_length).
  now rewrite sorted_In.
Qed.

Lemma place_group_this (M : Z) (pos : Pos) (d : Z) (ns : list string) (i : nat) :
  NoDup ns -> (i < List.length ns)%nat ->
  sget (nth i (sorted ns) "") (place_group M pos (d, ns))
  = Some (M - d, nth i (column_ys (List.length ns)) 0%Q).
Proof.
  intros Hnd Hi. unfold place_group. rewrite sorted_length.
  assert (Hlen : List.length (sorted ns) = List.length (column_ys (List.length ns)))
    by now rewrite column_ys_length, sorted_length.
  apply place_this.
  - rewrite map_fst_combine by exact Hlen. now apply sorted_NoDup.
  - rewrite <- (combine_nth _ _ _ _ _ Hlen). apply nth_In.
    rewrite length_combine, <- Hlen, sorted_length. lia.
Qed.

Lemma layout_fold_other (M : Z) (gs : list (Z * list string)) : forall pos k,
  (forall d ns, In (d, ns) gs -> ~ In k ns) ->
  sget k (fold_left (place_group M) gs pos) = sget k pos.
Proof.
  induction gs as [|[d ns] gs IH]; intros pos k H; [reflexivity|].
  cbn [fold_left]. rewrite IH.
  - apply place_group_other. apply (H d ns). now left.
  - intros d' ns' Hin. apply (H d' ns'). now right.
Qed.

Section Layout.
Variable G : DiGraph.
Hypothesis names_NoDup : NoDup (node_names G).
Variable M : Z.

Lemma layout_fold_this (gs : list (Z * list string)) : forall pos d i,
  NoDup (map fst gs) ->
  (forall d' ns', In (d', ns') gs -> ns' = members d' (_node G)) ->
  In (d, members d (_node G)) gs ->
  (i < List.length (members d (_node G)))%nat ->
  sget (nth i (sorted (members d (_node G))) "") (fold_left (place_group M) gs pos)
  = Some (M - d, nth i (column_ys (List.length (members d (_node G)))) 0%Q).
Proof.
  induction gs as [|[d0 ns0] gs IH]; intros pos d i Hnd Hall Hin Hi;
    [contradiction|].
  cbn [map fst] in Hnd. inversion Hnd as [|? ? Hnot Hnd']; subst.
  cbn [fold_left]. destruct Hin as [E|Hin].
  - inversion E; subst d0 ns0. rewrite layout_fold_other.
    + apply place_group_this; [apply members_NoDup, names_NoDup | exact Hi].
    + intros d' ns' Hin' Hk.
      assert (Hd : d' <> d).
      { intros ->. apply Hnot. apply in_map_iff. now exists (d, ns'). }
      rewrite (Hall d' ns') in Hk by now right.
      apply Hd. eapply (members_disjoint (_node G) names_NoDup); [exact Hk|].
      apply sorted_In, nth_In. now rewrite sorted_length.
  - apply IH; auto. intros d' ns' H'. apply Hall. now right.
Qed.

(** The position of the [i]-th name, in sorted order, of the column at
    distance [d]. *)
Lemma layout_column (pos : Pos) (d : Z) (i : nat) :
  max_distance_of G = Ok M ->
  layout G = Ok pos ->
  (i < List.length (members d (_node G)))%nat ->
  sget (nth i (sorted (members d (_node G))) "") pos
  = Some (M - d, nth i (column_ys (List.length (members d (_node G)))) 0%Q).
Proof.
  intros HM Hl Hi. unfold layout in Hl. rewrite HM in Hl. cbn [bind] in Hl.
  inversion Hl; subst pos. apply layout_fold_this.
  - apply distance_groups_NoDup.
  - apply distance_groups_In.
  - apply distance_groups_has. intros E. rewrite E in Hi. simpl in Hi. lia.
  - exact Hi.
Qed.

(** Every node is placed, in the column of its distance. *)
Lemma layout_node (pos : Pos) (v : string) (a : NodeAttrs) :
  max_distance_of G = Ok M ->
  layout G = Ok pos ->
  sget v (_node G) = Some a ->
  exists y, sget v pos = Some (M - distance a, y).
Proof.
  intros HM Hl Hv.
  assert (Hin : In v (sorted (members (distance a) (_node G)))).
  { apply sorted_In, (members_In (_node G) names_NoDup). now exists a. }
  destruct (In_nth _ _ "" Hin) as (i & Hi & <-).
  rewrite sorted_length in Hi.
  eexists. apply layout_column; assumption.
Qed.
End Layout.

(** ** The constructed graph is well formed *)

Lemma sset_In {V : Type} (k k' : string) (v w : V) d :
  In (k', w) (sset k v d) -> In (k', w) d \/ (k' = k /\ w = v).
Proof.
  induction d as [|[k0 v0] d IH]; cbn [sset dict_set].
  - intros [E|[]]. inversion E. now right.
  - destruct (String.eqb_spec k k0) as [->|Hne].
    + intros [E|H]; [inversion E; now right | left; now right].
    + intros [E|H]; [left; now left|].
      destruct (IH H); [left; now right | now right].
Qed.

Lemma edges_In (G : DiGraph) (u v : string) :
  In (u, v) (edges G) <-> exists vs, In (u, vs) (_succ G) /\ In v vs.
Proof.
  unfold edges. rewrite in_flat_map. split.
  - intros ([u' vs] & Hin & Hv). apply in_map_iff in Hv.
    destruct Hv as (v' & E & Hv). inversion E; subst. now exists vs.
  - intros (vs & Hin & Hv). exists (u, vs). split; [exact Hin|].
    apply in_map_iff. now exists v.
Qed.

Lemma connect_edges (a b : string) (G : DiGraph) (u v : string) :
  In (u, v) (edges (connect a b G)) -> In (u, v) (edges G) \/ (u = a /\ v = b).
Proof.
  rewrite !edges_In. intros (vs & Hin & Hv). unfold connect in Hin.
  cbn [_succ] in Hin.
  destruct (sget a (_succ G)) as [vs0|] eqn:E;
    apply sset_In in Hin; destruct Hin as [H|[-> ->]];
    try (left; now exists vs).
  - assert (Ha : In (a, vs0) (_succ G))
      by apply (dict_get_In String.eqb String.eqb_spec), E.
    destruct (existsb (String.eqb b) vs0); [left; now exists vs0|].
    apply in_app_iff in Hv. destruct Hv as [Hv|[<-|[]]];
      [left; now exists vs0 | now right].
  - destruct Hv as [<-|[]]. now right.
Qed.

Lemma add_or_update_closed s dom dist G G' :
  add_or_update (PyStr s) dom dist G = Ok G' -> closed G -> closed G'.
Proof.
  intros E Hc u v Huv.
  destruct (add_or_update_named s dom dist G) as (G1 & E1 & _ & He).
  rewrite E in E1. inversion E1; subst G1. rewrite He in Huv.
  destruct (Hc u v Huv) as [Hu Hv].
  rewrite !(add_or_update_lookup _ _ _ _ _ _ E).
  split; [destruct (String.eqb u s) | destruct (String.eqb v s)];
    (discriminate || assumption).
Qed.

Lemma add_or_update_present s dom dist G G' :
  add_or_update (PyStr s) dom dist G = Ok G' -> sget s (_node G') <> None.
Proof.
  intros E. rewrite (add_or_update_lookup _ _ _ _ _ s E), String.eqb_refl.
  discriminate.
Qed.

Lemma add_or_update_keeps s dom dist G G' n :
  add_or_update (PyStr s) dom dist G = Ok G' ->
  sget n (_node G) <> None -> sget n (_node G') <> None.
Proof.
  intros E H. rewrite (add_or_update_lookup _ _ _ _ _ n E).
  destruct (String.eqb n s); [discriminate | exact H].
Qed.

Section WellFormed.
Variable json_loads : string -> decoded.

Lemma row_outcome_closed ut idx row G out G' out' :
  row_outcome json_loads ut idx row G out (G', out') ->
  closed G -> closed G'.
Proof.
  intros H Hc.
  inversion H as [e Es | so s da G1 e Es Ea Eda E1 Et
                 | so s da G1 to b db G2 Es Ea Eda E1 Et Eb Edb E2]; subst.
  - exact Hc.
  - eapply add_or_update_closed; eauto.
  - assert (H2 : closed G2)
      by (eapply add_or_update_closed; [exact E2|];
          eapply add_or_update_closed; eauto).
    intros u v Huv. cbn [connect _node].
    destruct (connect_edges _ _ _ _ _ Huv) as [Hin|[-> ->]]; [now apply H2|].
    split.
    + eapply add_or_update_keeps; [exact E2|].
      eapply add_or_update_present; exact E1.
    + eapply add_or_update_present; exact E2.
Qed.

Lemma process_rows_closed ut rows : forall G out G' out',
  process_rows json_loads ut rows (G, out) = Ok (G', out') ->
  closed G -> closed G'.
Proof.
  induction rows as [|[idx row] rows IH]; intros G out G' out' H Hc.
  - inversion H; subst. exact Hc.
  - loop_step H G1 out1 E.
    eapply IH; eauto. eapply row_outcome_closed; eauto.
Qed.

(** What holds of every graph the construction returns. *)
Lemma build_graph_facts df G out :
  build_graph json_loads df = Ok (G, out) ->
  exists t a,
    ultimate_target_id json_loads df = Ok (PyStr t) /\
    sget t (_node G) = Some a /\ distance a <= 0 /\
    NoDup (node_names G) /\ closed G.
Proof.
  intros Hb.
  destruct (build_graph_inv _ _ _ _ Hb) as (t & dom & Hut & Hloop).
  assert (Hseed : sget t (_node (seed_graph t dom))
                  = Some {| domain := dom; distance := 0 |}).
  { cbn [seed_graph _node sget dict_get]. now rewrite String.eqb_refl. }
  destruct (process_rows_frame _ _ _ _ _ _ _ _ _ Hloop Hseed) as (a & Ha & _ & Hd).
  exists t, a. split; [exact Hut|]. split; [exact Ha|].
  split; [exact Hd|]. split.
  - eapply process_rows_NoDup; [exact Hloop|].
    cbn. constructor; [tauto | constructor].
  - eapply process_rows_closed; [exact Hloop|]. intros u v [].
Qed.
End WellFormed.

(** ** Drawing never fails on a constructed graph *)

Lemma max_distance_total (G : DiGraph) (v : string) (a : NodeAttrs) :
  sget v (_node G) = Some a -> exists M, max_distance_of G = Ok M.
Proof.
  unfold max_distance_of. destruct (_node G) as [|nd l]; [discriminate|].
  intros _. eexists. reflexivity.
Qed.

Lemma pos_at_total (pos : Pos) (u : string) :
  sget u pos <> None -> exists p, pos_at pos u = Ok p.
Proof.
  unfold pos_at. destruct (sget u pos) as [p|]; [now exists p | congruence].
Qed.

Lemma make_edge_trace_total (pos : Pos) (es : list (string * string)) :
  (forall u v, In (u, v) es -> sget u pos <> None /\ sget v pos <> None) ->
  forall acc, exists et, make_edge_trace pos es acc = Ok et.
Proof.
  induction es as [|[u v] es IH]; intros H acc; cbn [make_edge_trace].
  - now exists acc.
  - destruct (H u v (or_introl eq_refl)) as [Hu Hv].
    destruct (pos_at_total _ _ Hu) as (p0 & ->).
    destruct (pos_at_total _ _ Hv) as (p1 & ->). cbn [bind].
    apply IH. intros u' v' Hin. apply H. now right.
Qed.

Lemma group_by_domain_total (short_names : bool) (pos : Pos)
  (nodes : list (string * NodeAttrs)) :
  (forall n a, In (n, a) nodes -> sget n pos <> None) ->
  forall acc, exists groups, group_by_domain short_names pos nodes acc = Ok groups.
Proof.
  induction nodes as [|[n a] nodes IH]; intros H acc; cbn [group_by_domain].
  - now exists acc.
  - destruct (pos_at_total _ _ (H n a (or_introl eq_refl))) as (p & ->).
    cbn [bind]. apply IH. intros n' a' Hin. apply (H n' a'). now right.
Qed.

Lemma nonzero_zoom (initial_zoom : Q) :
  (0 < initial_zoom)%Q -> Qeq_bool initial_zoom 0 = false.
Proof.
  intros Hz. destruct (Qeq_bool initial_zoom 0) eqn:E; [|reflexivity].
  apply Qeq_bool_eq in E. rewrite E in Hz. discriminate Hz.
Qed.

Lemma render_total (G : DiGraph) (pos : Pos) (short_names : bool) (initial_zoom : Q) :
  Qeq_bool initial_zoom 0 = false ->
  closed G ->
  (forall n, sget n (_node G) <> None -> sget n pos <> None) ->
  exists fig,
    render G pos short_names initial_zoom = Ok fig /\
    x_range fig = fst (viewport pos initial_zoom) /\
    y_range fig = snd (viewport pos initial_zoom).
Proof.
  intros Hz Hc Hp. unfold render. rewrite Hz.
  destruct (viewport pos initial_zoom) as [xr yr].
  destruct (make_edge_trace_total pos (edges G)) with
    (acc := {| edge_x := []; edge_y := [] |}) as (et & ->).
  { intros u v Huv. destruct (Hc u v Huv). split; now apply Hp. }
  destruct (group_by_domain_total short_names pos (_node G)) with
    (acc := @nil (pyval * DomainPoints)) as (groups & ->).
  { intros n a Hin. apply Hp. intros E.
    apply (dict_get_None_keys String.eqb String.eqb_spec) in E.
    apply E. apply in_map_iff. now exists (n, a). }
  cbn [bind]. eexists. repeat split.
Qed.

(** Once the graph is constructed, the layout and the figure follow. *)
Lemma visualize_total json_loads df G out short_names initial_zoom :
  Qeq_bool initial_zoom 0 = false ->
  build_graph json_loads df = Ok (G, out) ->
  exists M pos fig,
    max_distance_of G = Ok M /\
    layout G = Ok pos /\
    visualize_lineage json_loads df short_names initial_zoom = Ok (fig, out) /\
    x_range fig = fst (viewport pos initial_zoom) /\
    y_range fig = snd (viewport pos initial_zoom).
Proof.
  intros Hz Hb.
  destruct (build_graph_facts _ _ _ _ Hb) as (t & a & _ & Ht & _ & Hnd & Hc).
  destruct (max_distance_total _ _ _ Ht) as (M & HM).
  assert (Hl : exists pos, layout G = Ok pos).
  { unfold layout. rewrite HM. cbn [bind]. eexists. reflexivity. }
  destruct Hl as (pos & Hl).
  destruct (render_total G pos short_names initial_zoom Hz Hc) as (fig & Hr & Hx & Hy).
  { intros n Hn. destruct (sget n (_node G)) as [an|] eqn:En; [|congruence].
    destruct (layout_node G Hnd M pos n an HM Hl En) as (y & ->). discriminate. }
  exists M, pos, fig. unfold visualize_lineage. rewrite Hb. cbn [bind fst snd].
  rewrite Hl. cbn [bind]. rewrite Hr. cbn [bind]. repeat split; assumption.
Qed.

(** ** Layout: the claims *)

(** C7. The distance groups are the non-empty sets of the nodes that share
    a distance, so every node is in the group of its distance.  In every
    group the names are sorted in ascending lexicographic order, and the
    [i]-th of the [n] sorted names is placed at [y = (n-1)/2 - i], in the
    column [x = max_distance - d]: evenly spaced from [(n-1)/2] down to
    [-(n-1)/2], the smallest name highest.  Every node is placed so. *)
Theorem column_is_sorted_and_centered
  (json_loads : string -> decoded) (df : DataFrame)
  (G : DiGraph) (out : list string) :
  build_graph json_loads df = Ok (G, out) ->
  exists M pos,
    max_distance_of G = Ok M /\
    layout G = Ok pos /\
    (forall d ns,
       In (d, ns) (distance_groups G) <->
       ns = members d (_node G) /\ ns <> []) /\
    (forall v a,
       sget v (_node G) = Some a ->
       exists ns i y,
         In (distance a, ns) (distance_groups G) /\
         In v ns /\
         (i < List.length ns)%nat /\
         nth i (sorted ns) "" = v /\
         sget v pos = Some (M - distance a, y) /\
         (y == (Qnat (List.length ns) - 1) / 2 - Qnat i)%Q) /\
    forall d ns,
      In (d, ns) (distance_groups G) ->
      ns = members d (_node G) /\
      Permutation (sorted ns) ns /\
      StronglySorted lex_le (sorted ns) /\
      forall i, (i < List.length ns)%nat ->
        exists y,
          sget (nth i (sorted ns) "") pos = Some (M - d, y) /\
          (y == (Qnat (List.length ns) - 1) / 2 - Qnat i)%Q.
Proof.
  intros Hb.
  destruct (build_graph_facts _ _ _ _ Hb) as (t & a & _ & Ht & _ & Hnd & _).
  destruct (visualize_total _ _ _ _ false 1%Q eq_refl Hb) as (M & pos & _ & HM & Hl & _).
  exists M, pos. split; [exact HM|]. split; [exact Hl|]. split; [|split].
  - intros d ns. split.
    + intros Hin. pose proof (distance_groups_In _ _ _ Hin) as E. split; [exact E|].
      apply (dict_In_get Z.eqb Z.eqb_spec _ _ _ (distance_groups_NoDup G)) in Hin.
      fold (@zget (list string)) in Hin. rewrite distance_groups_get in Hin.
      rewrite <- E in Hin. destruct ns; [discriminate | discriminate].
    + intros [-> Hne]. now apply distance_groups_has.
  - intros v a' Hv.
    assert (Hm : In v (members (distance a') (_node G))).
    { apply (members_In (_node G) Hnd). now exists a'. }
    assert (Hs : In v (sorted (members (distance a') (_node G)))).
    { now apply sorted_In. }
    destruct (In_nth _ _ "" Hs) as (i & Hi & Hnth).
    rewrite sorted_length in Hi.
    exists (members (distance a') (_node G)), i,
           (nth i (column_ys (List.length (members (distance a') (_node G)))) 0%Q).
    split.
    { apply distance_groups_has. intros E. rewrite E in Hm. exact Hm. }
    split; [exact Hm|]. split; [exact Hi|]. split; [exact Hnth|]. split.
    + rewrite <- Hnth at 1. apply layout_column; eassumption.
    + now apply column_ys_nth.
  - intros d ns Hin. pose proof (distance_groups_In _ _ _ Hin) as ->.
    split; [reflexivity|]. split; [apply sorted_perm|]. split; [apply sorted_sorted|].
    intros i Hi. eexists. split.
    + apply layout_column; eassumption.
    + now apply column_ys_nth.
Qed.

Lemma column_is_sorted_and_centered_witness :
  exists M pos,
    max_distance_of three_sources_graph = Ok M /\
    layout three_sources_graph = Ok pos /\
    (forall d ns,
       In (d, ns) (distance_groups three_sources_graph) <->
       ns = members d (_node three_sources_graph) /\ ns <> []) /\
    (forall v a,
       sget v (_node three_sources_graph) = Some a ->
       exists ns i y,
         In (distance a, ns) (distance_groups three_sources_graph) /\
         In v ns /\
         (i < List.length ns)%nat /\
         nth i (sorted ns) "" = v /\
         sget v pos = Some (M - distance a, y) /\
         (y == (Qnat (List.length ns) - 1) / 2 - Qnat i)%Q) /\
    forall d ns,
      In (d, ns) (distance_groups three_sources_graph) ->
      ns = members d (_node three_sources_graph) /\
      Permutation (sorted ns) ns /\
      StronglySorted lex_le (sorted ns) /\
      forall i, (i < List.length ns)%nat ->
        exists y,
          sget (nth i (sorted ns) "") pos = Some (M - d, y) /\
          (y == (Qnat (List.length ns) - 1) / 2 - Qnat i)%Q.
Proof.
  exact (column_is_sorted_and_centered flat_loads three_sources
           three_sources_graph [] eq_refl).
Defined.

(** The column of [three_sources]: A above B above db.s.C. *)
Example three_sources_column :
  exists pos yA yB yC,
    layout three_sources_graph = Ok pos /\
    sget "A" pos = Some (0, yA) /\ sget "B" pos = Some (0, yB) /\
    sget "db.s.C" pos = Some (0, yC) /\
    (yA == 1 /\ yB == 0 /\ yC == -1)%Q.
Proof.
  do 4 eexists. split; [vm_compute; reflexivity|].
  repeat split; vm_compute; reflexivity.
Qed.

Lemma table_claims_nonneg_any json_loads (ut : pyval) (n : string) (df : DataFrame) :
  Forall (fun ir => 1 <= DISTANCE (snd ir)) df ->
  Forall (fun c => 0 <= c) (table_claims json_loads ut n df).
Proof.
  unfold table_claims.
  induction 1 as [|[idx r] df Hr _ IH]; cbn [flat_map snd]; [constructor|].
  rewrite claims_for_app. apply Forall_app. split; [|exact IH].
  unfold row_claims, target_claim, claims_for. cbn [snd] in Hr.
  destruct (name_of json_loads (SOURCE_OBJECT r)) as [a|]; [|constructor].
  destruct (name_of json_loads (TARGET_OBJECT r)) as [b|];
    cbn [filter fst snd];
    destruct (String.eqb a n); try destruct (String.eqb b n);
    try destruct (pyval_eqb (PyStr b) ut);
    cbn [map snd]; repeat constructor; lia.
Qed.

(** With every DISTANCE at least 1, no node ends below 0. *)
Lemma distances_nonneg json_loads df G out :
  Forall (fun ir => 1 <= DISTANCE (snd ir)) df ->
  build_graph json_loads df = Ok (G, out) ->
  forall n a, sget n (_node G) = Some a -> 0 <= distance a.
Proof.
  intros Hpos Hb n a Hn.
  destruct (build_graph_inv _ _ _ _ Hb) as (t & dom & _ & Hloop).
  pose proof (process_rows_distance _ _ _ _ _ _ _ n Hloop) as Hd.
  rewrite Hn in Hd. cbn [option_map] in Hd.
  pose proof (table_claims_nonneg_any json_loads (PyStr t) n df Hpos) as Hnn.
  rewrite Forall_forall in Hnn.
  cbn [seed_graph _node sget dict_get] in Hd.
  destruct (String.eqb n t); cbn [option_map distance] in Hd.
  - destruct (running_min_Some (table_claims json_loads (PyStr t) n df) 0)
      as (m & Hm & [Hin|Hin] & _); rewrite Hm in Hd; inversion Hd; subst;
      [lia | now apply Hnn].
  - pose proof (running_min_None (table_claims json_loads (PyStr t) n df)) as Hm.
    rewrite <- Hd in Hm. destruct Hm as [Hin _]. now apply Hnn.
Qed.

(** C3 (amended). Every node with final distance d is placed at
    x = max_distance - d, max_distance being the largest final distance in
    the graph.  The ultimate target is at x = max_distance, the largest x
    of all nodes, whenever no final distance is negative, which is the
    case when every DISTANCE of the table is at least 1. *)
Theorem x_is_max_distance_minus_distance
  (json_loads : string -> decoded) (df : DataFrame) (t : string)
  (G : DiGraph) (out : list string) :
  ultimate_target_id json_loads df = Ok (PyStr t) ->
  build_graph json_loads df = Ok (G, out) ->
  exists M pos,
    layout G = Ok pos /\
    is_maximum M (map (fun nd => distance (snd nd)) (_node G)) /\
    (forall n a, sget n (_node G) = Some a ->
                 exists y, sget n pos = Some (M - distance a, y)) /\
    ((forall n a, sget n (_node G) = Some a -> 0 <= distance a) ->
     exists yt,
       sget t pos = Some (M, yt) /\
       forall n a, sget n (_node G) = Some a ->
                   exists xn yn, sget n pos = Some (xn, yn) /\ xn <= M) /\
    (Forall (fun ir => 1 <= DISTANCE (snd ir)) df ->
     forall n a, sget n (_node G) = Some a -> 0 <= distance a).
Proof.
  intros Hut Hb.
  destruct (build_graph_facts _ _ _ _ Hb) as (t' & at' & Hut' & Ht & Hle & Hnd & _).
  rewrite Hut in Hut'. inversion Hut'; subst t'.
  destruct (visualize_total _ _ _ _ false 1%Q eq_refl Hb) as (M & pos & _ & HM & Hl & _).
  exists M, pos. split; [exact Hl|]. split; [apply py_max_spec, HM|].
  assert (Hx : forall n a, sget n (_node G) = Some a ->
                           exists y, sget n pos = Some (M - distance a, y)).
  { intros n a Hn. eapply layout_node; eassumption. }
  split; [exact Hx|]. split.
  - intros Hnn. destruct (Hx _ _ Ht) as (yt & Hyt).
    assert (E : distance at' = 0) by (specialize (Hnn _ _ Ht); lia).
    rewrite E, Z.sub_0_r in Hyt. exists yt. split; [exact Hyt|].
    intros n a Hn. destruct (Hx _ _ Hn) as (y & Hy).
    exists (M - distance a), y. split; [exact Hy|].
    specialize (Hnn _ _ Hn). lia.
  - intros Hpos. eapply distances_nonneg; eassumption.
Qed.

Lemma x_is_max_distance_minus_distance_witness :
  exists M pos,
    layout one_edge_graph = Ok pos /\
    is_maximum M (map (fun nd => distance (snd nd)) (_node one_edge_graph)) /\
    (forall n a, sget n (_node one_edge_graph) = Some a ->
                 exists y, sget n pos = Some (M - distance a, y)) /\
    ((forall n a, sget n (_node one_edge_graph) = Some a -> 0 <= distance a) ->
     exists yt,
       sget "T" pos = Some (M, yt) /\
       forall n a, sget n (_node one_edge_graph) = Some a ->
                   exists xn yn, sget n pos = Some (xn, yn) /\ xn <= M) /\
    (Forall (fun ir => 1 <= DISTANCE (snd ir)) one_edge ->
     forall n a, sget n (_node one_edge_graph) = Some a -> 0 <= distance a).
Proof.
  exact (x_is_max_distance_minus_distance flat_loads one_edge "T"
           one_edge_graph [] eq_refl eq_refl).
Defined.

(** The scenario of the specification: x(T) = 1 and x(S) = 0. *)
Example one_edge_positions :
  exists pos yT yS,
    positions flat_loads one_edge = Ok pos /\
    sget "T" pos = Some (1, yT) /\ sget "S" pos = Some (0, yS).
Proof. do 3 eexists. repeat split; vm_compute; reflexivity. Qed.

(** C3, as stated, fails: all DISTANCE values are non-negative, yet B ends
    at distance -1 and is placed at x = 2, right of the ultimate target T
    at x = 1. *)
Lemma target_is_not_always_rightmost :
  ~ target_is_rightmost flat_loads below_zero.
Proof.
  intros H.
  destruct (visualize_total flat_loads below_zero _ _ false 1%Q eq_refl eq_refl)
    as (M & pos & _ & _ & Hl & _).
  vm_compute in Hl. inversion Hl as [Hp].
  assert (Hle : 2 <= 1).
  { eapply (H "T" _ _ pos 1 _ "B" 2 _); try reflexivity; subst pos; reflexivity. }
  lia.
Qed.

(** ** Viewport: the claim *)

Lemma single_node_layout (G : DiGraph) (t : string) (a : NodeAttrs) :
  _node G = [(t, a)] ->
  exists y, layout G = Ok [(t, (0, y))] /\ (y == 0)%Q.
Proof.
  intros HG. unfold layout, max_distance_of, distance_groups. rewrite HG.
  cbn [map snd py_max fold_left bind group_append zget dict_get zset dict_set].
  unfold place_group. cbn [sorted fold_right insert List.length].
  rewrite Z.sub_diag.
  exists (nth 0 (column_ys 1) 0%Q). split; [reflexivity|].
  vm_compute. reflexivity.
Qed.

Lemma single_node_viewport_ranges (t : string) (y zoom : Q) :
  (y == 0)%Q -> (0 < zoom)%Q ->
  range_eq (fst (viewport [(t, (0, y))] zoom)) (0, 0)%Q /\
  range_eq (snd (viewport [(t, (0, y))] zoom)) (0, 0)%Q.
Proof.
  intros Hy Hz.
  assert (Hnz : ~ (zoom == 0)%Q) by (intros E; rewrite E in Hz; discriminate).
  unfold viewport, range_eq.
  cbn [map fst snd fold_left Z.add Z.sub Z.opp].
  repeat split; cbn [fst snd]; rewrite ?Hy; field; exact Hnz.
Qed.

(** C4 (amended). When the constructed graph holds a single node, that node
    is the ultimate target, it is placed at (0, 0), and the viewport is the
    degenerate range [0, 0] on both axes, for every positive zoom.  The
    bounds -1 and 1 are used for an empty set of positions only, which the
    layout never returns for a constructed graph. *)
Theorem single_node_viewport
  (json_loads : string -> decoded) (df : DataFrame)
  (G : DiGraph) (out : list string) (short_names : bool) (initial_zoom : Q) :
  build_graph json_loads df = Ok (G, out) ->
  List.length (_node G) = 1%nat ->
  (0 < initial_zoom)%Q ->
  exists t y fig,
    ultimate_target_id json_loads df = Ok (PyStr t) /\
    layout G = Ok [(t, (0, y))] /\ (y == 0)%Q /\
    visualize_lineage json_loads df short_names initial_zoom = Ok (fig, out) /\
    range_eq (x_range fig) (0, 0)%Q /\
    range_eq (y_range fig) (0, 0)%Q.
Proof.
  intros Hb Hlen Hz.
  destruct (build_graph_facts _ _ _ _ Hb) as (t & a & Hut & Ht & _).
  assert (HG : _node G = [(t, a)]).
  { destruct (_node G) as [|[t' a'] [|nd l]]; try discriminate.
    cbn [sget dict_get] in Ht.
    destruct (String.eqb_spec t t') as [->|]; [|discriminate].
    now inversion Ht. }
  destruct (single_node_layout G t a HG) as (y & Hl & Hy).
  destruct (visualize_total _ _ _ _ short_names initial_zoom
              (nonzero_zoom _ Hz) Hb)
    as (M & pos & fig & _ & Hl' & Hv & Hx & Hyr).
  rewrite Hl in Hl'. inversion Hl'; subst pos.
  exists t, y, fig. rewrite Hx, Hyr.
  destruct (single_node_viewport_ranges t y initial_zoom Hy Hz) as [H1 H2].
  split; [exact Hut|]. split; [exact Hl|]. split; [exact Hy|].
  split; [exact Hv|]. split; assumption.
Qed.

Lemma single_node_viewport_witness :
  exists t y fig,
    ultimate_target_id flat_loads only_target = Ok (PyStr t) /\
    layout only_target_graph = Ok [(t, (0, y))] /\ (y == 0)%Q /\
    visualize_lineage flat_loads only_target true 2
      = Ok (fig, only_target_output) /\
    range_eq (x_range fig) (0, 0)%Q /\
    range_eq (y_range fig) (0, 0)%Q.
Proof.
  exact (single_node_viewport flat_loads only_target only_target_graph
           only_target_output true 2 eq_refl eq_refl eq_refl).
Defined.

(** C4, as stated, fails: for the table whose only row is skipped the
    viewport is [0, 0] x [0, 0], not [-1, 1] x [-1, 1]. *)
Lemma single_node_viewport_is_not_default :
  ~ single_node_default_viewport flat_loads only_target false 1.
Proof.
  intros H.
  destruct (visualize_total flat_loads only_target only_target_graph
              only_target_output false 1%Q eq_refl eq_refl)
    as (M & pos & fig & _ & _ & Hv & _).
  destruct (H only_target_graph only_target_output fig
              only_target_output eq_refl eq_refl Hv) as [[Hx _] _].
  vm_compute in Hv. inversion Hv; subst fig.
  vm_compute in Hx. discriminate Hx.
Qed.

(** * Further properties of the construction *)

(** ** When the construction completes, and how it fails *)

Section Completion.
Variable json_loads : string -> decoded.

Lemma name_of_Some (text : string) (n : string) :
  name_of json_loads text = Some n <->
  exists j, json_loads text = Decoded j /\ get j "name" PyNone = Ok (PyStr n).
Proof.
  split.
  - unfold name_of. destruct (json_loads text) as [[d|]|]; try discriminate.
    intros H. exists (JObject d). split; [reflexivity|]. cbn [get].
    destruct (sget "name" d) as [[|m]|]; try discriminate. now inversion H.
  - intros (j & E & H). eapply name_of_get; eauto.
Qed.

Lemma named_spec (text : string) :
  named json_loads text = true <-> exists n, name_of json_loads text = Some n.
Proof.
  unfold named. destruct (name_of json_loads text) as [n|].
  - split; [now exists n | reflexivity].
  - split; [discriminate | intros (n & H); discriminate].
Qed.

Lemma usable_outcome ut idx row G out :
  usable json_loads row = true ->
  exists st', row_outcome json_loads ut idx row G out st'.
Proof.
  unfold usable, fails. intros H.
  destruct (json_loads (SOURCE_OBJECT row)) as [so|e] eqn:Es.
  2:{ eexists. now apply source_skipped with (e := e). }
  cbn [orb] in H. apply andb_prop in H. destruct H as [Hs Ht].
  apply named_spec in Hs. destruct Hs as (a & Ha).
  apply name_of_Some in Ha. destruct Ha as (so' & Es' & Ea).
  rewrite Es in Es'. inversion Es'; subst so'.
  assert (Hda : exists da, get so "domain" Unknown = Ok da).
  { destruct so as [d|]; [|discriminate]. cbn [get].
    destruct (sget "domain" d); eexists; reflexivity. }
  destruct Hda as (da & Eda).
  destruct (add_or_update_named a da (DISTANCE row) G) as (G1 & E1 & _).
  destruct (json_loads (TARGET_OBJECT row)) as [to|e] eqn:Et.
  2:{ eexists. eapply target_skipped; eauto. }
  cbn [orb] in Ht. apply named_spec in Ht. destruct Ht as (b & Hb).
  apply name_of_Some in Hb. destruct Hb as (to' & Et' & Eb).
  rewrite Et in Et'. inversion Et'; subst to'.
  assert (Hdb : exists db, get to "domain" Unknown = Ok db).
  { destruct to as [d|]; [|discriminate]. cbn [get].
    destruct (sget "domain" d); eexists; reflexivity. }
  destruct Hdb as (db & Edb).
  destruct (add_or_update_named b db
              (if pyval_eqb (PyStr b) ut then 0 else DISTANCE row - 1) G1)
    as (G2 & E2 & _).
  eexists. eapply edge_added; eauto.
Qed.

Lemma outcome_usable ut idx row G out st' :
  row_outcome json_loads ut idx row G out st' ->
  usable json_loads row = true.
Proof.
  intros H. unfold usable, fails.
  destruct H as [e Es | so a da G1 e Es Ea Eda E1 Et
                | so a da G1 to b db G2 Es Ea Eda E1 Et Eb Edb E2].
  - now rewrite Es.
  - rewrite Es, Et. cbn [orb]. unfold named.
    now rewrite (name_of_get _ _ _ _ Es Ea).
  - rewrite Es, Et. cbn [orb]. unfold named.
    now rewrite (name_of_get _ _ _ _ Es Ea), (name_of_get _ _ _ _ Et Eb).
Qed.

Lemma process_rows_completes ut rows : forall st,
  (exists st', process_rows json_loads ut rows st = Ok st') <->
  forallb (fun ir => usable json_loads (snd ir)) rows = true.
Proof.
  induction rows as [|[idx row] rows IH]; intros [G out]; cbn [process_rows forallb snd].
  - split; [reflexivity | intros _; eexists; reflexivity].
  - rewrite andb_true_iff. split.
    + intros (st' & H).
      destruct (process_row json_loads ut (idx, row) (G, out)) as [st1|] eqn:E;
        [|discriminate].
      cbn [bind] in H. apply process_row_outcome in E. split.
      * eapply outcome_usable; eauto.
      * apply (IH st1). now exists st'.
    + intros [Hu Hr].
      destruct (usable_outcome ut idx row G out Hu) as (st1 & H1).
      apply process_row_outcome in H1. rewrite H1. cbn [bind].
      now apply IH.
Qed.
End Completion.

(** X1. The construction completes whenever row 0 exists, its
    TARGET_OBJECT decodes to an object with a string name, and every row is
    usable: its SOURCE_OBJECT does not decode, or decodes to an object with
    a string name while its TARGET_OBJECT does not decode or decodes to an
    object with a string name.  The seed of the loop is then the ultimate
    target alone, at distance 0. *)
Theorem usable_table_completes
  (json_loads : string -> decoded) (df : DataFrame) :
  (exists ir rest, df = ir :: rest /\
                   named json_loads (TARGET_OBJECT (snd ir)) = true) ->
  forallb (fun ir => usable json_loads (snd ir)) df = true ->
  exists t dom G out,
    ultimate_target_id json_loads df = Ok (PyStr t) /\
    process_rows json_loads (PyStr t) df (seed_graph t dom, []) = Ok (G, out) /\
    build_graph json_loads df = Ok (G, out).
Proof.
  intros (ir & rest & -> & Hn) Hu. destruct ir as [i r].
  apply named_spec in Hn. destruct Hn as (t & Hn). cbn [snd] in Hn.
  unfold build_graph, ultimate_target_id, ultimate_target. cbn [iloc0 bind].
  unfold name_of in Hn.
  destruct (json_loads (TARGET_OBJECT r)) as [[d|]|]; try discriminate.
  cbn [bind subscript get].
  destruct (sget "name" d) as [[|m]|]; try discriminate. inversion Hn; subst m.
  cbn [bind]. exists t.
  destruct (sget "domain" d) as [dom|]; cbn [bind add_node].
  - destruct (proj2 (process_rows_completes json_loads (PyStr t) ((i, r) :: rest)
                       (seed_graph t dom, [])) Hu) as ([G out] & H).
    exists dom, G, out. repeat split; exact H.
  - destruct (proj2 (process_rows_completes json_loads (PyStr t) ((i, r) :: rest)
                       (seed_graph t Unknown, [])) Hu) as ([G out] & H).
    exists Unknown, G, out. repeat split; exact H.
Qed.

Lemma usable_table_completes_witness :
  exists t dom G out,
    ultimate_target_id flat_loads skipped_rows = Ok (PyStr t) /\
    process_rows flat_loads (PyStr t) skipped_rows (seed_graph t dom, [])
      = Ok (G, out) /\
    build_graph flat_loads skipped_rows = Ok (G, out).
Proof.
  apply (usable_table_completes flat_loads skipped_rows).
  - do 2 eexists. split; reflexivity.
  - reflexivity.
Defined.

(** X2. What the call raises when row 0 does not give an ultimate target:
    [IndexError] for an empty table, [ValueError] when the TARGET_OBJECT of
    row 0 is not JSON, [TypeError] when it is JSON but not an object,
    [KeyError] when the object has no name, [ValueError] when its name is
    null.  Nothing is drawn in any of these cases. *)
Theorem no_ultimate_target
  (json_loads : string -> decoded) (short_names : bool) (initial_zoom : Q) :
  visualize_lineage json_loads [] short_names initial_zoom = Raise IndexError /\
  forall (i : Z) (r : Row) (rest : DataFrame),
    (forall e, json_loads (TARGET_OBJECT r) = JSONDecodeError e ->
       visualize_lineage json_loads ((i, r) :: rest) short_names initial_zoom
       = Raise ValueError) /\
    (json_loads (TARGET_OBJECT r) = Decoded JOther ->
       visualize_lineage json_loads ((i, r) :: rest) short_names initial_zoom
       = Raise TypeError) /\
    (forall d, json_loads (TARGET_OBJECT r) = Decoded (JObject d) ->
       sget "name" d = None ->
       visualize_lineage json_loads ((i, r) :: rest) short_names initial_zoom
       = Raise KeyError) /\
    (forall d, json_loads (TARGET_OBJECT r) = Decoded (JObject d) ->
       sget "name" d = Some PyNone ->
       visualize_lineage json_loads ((i, r) :: rest) short_names initial_zoom
       = Raise ValueError).
Proof.
  split; [reflexivity|]. intros i r rest.
  unfold visualize_lineage, build_graph, ultimate_target. cbn [iloc0 bind].
  repeat split.
  - intros e ->. reflexivity.
  - intros ->. reflexivity.
  - intros d -> Hn. cbn [bind subscript]. now rewrite Hn.
  - intros d -> Hn. cbn [bind subscript get]. rewrite Hn. cbn [bind].
    now destruct (sget "domain" d).
Qed.

Lemma no_ultimate_target_witness :
  visualize_lineage flat_loads [(0, row T (nameless "TABLE") 1)] false 1
  = Raise KeyError.
Proof.
  exact (proj1 (proj2 (proj2 (proj2 (no_ultimate_target flat_loads false 1)
           0 (row T (nameless "TABLE") 1) [])))
           [("domain", PyStr "TABLE")] eq_refl eq_refl).
Defined.

(** X3. What an iteration of the loop does with the two JSON texts of its
    row, whatever the graph.  It raises [AttributeError] when the
    SOURCE_OBJECT is JSON but not an object, and [ValueError] when it is an
    object without a name or with a null name; for a source with a string
    name it raises the same two for the TARGET_OBJECT.  It completes when
    the SOURCE_OBJECT is not JSON, and when the source has a string name
    and the TARGET_OBJECT is not JSON or has a string name. *)
Theorem iteration_outcome
  (json_loads : string -> decoded) (ut : pyval) (idx : Z) (row : Row)
  (G : DiGraph) (out : list string) :
  (not_object json_loads (SOURCE_OBJECT row) = true ->
   process_row json_loads ut (idx, row) (G, out) = Raise AttributeError) /\
  (unnamed json_loads (SOURCE_OBJECT row) = true ->
   process_row json_loads ut (idx, row) (G, out) = Raise ValueError) /\
  (named json_loads (SOURCE_OBJECT row) = true ->
   not_object json_loads (TARGET_OBJECT row) = true ->
   process_row json_loads ut (idx, row) (G, out) = Raise AttributeError) /\
  (named json_loads (SOURCE_OBJECT row) = true ->
   unnamed json_loads (TARGET_OBJECT row) = true ->
   process_row json_loads ut (idx, row) (G, out) = Raise ValueError) /\
  (forall e, json_loads (SOURCE_OBJECT row) = JSONDecodeError e ->
   process_row json_loads ut (idx, row) (G, out)
   = Ok (G, out ++ [("Error parsing SOURCE_OBJECT at row "
                       ++ str_of_Z idx ++ ": " ++ e)%string])) /\
  (named json_loads (SOURCE_OBJECT row) = true ->
   fails json_loads (TARGET_OBJECT row) = true
   \/ named json_loads (TARGET_OBJECT row) = true ->
   exists st', process_row json_loads ut (idx, row) (G, out) = Ok st').
Proof.
  assert (Hsrc : named json_loads (SOURCE_OBJECT row) = true ->
            exists d a da G1,
              json_loads (SOURCE_OBJECT row) = Decoded (JObject d) /\
              get (JObject d) "name" PyNone = Ok (PyStr a) /\
              get (JObject d) "domain" Unknown = Ok da /\
              add_or_update (PyStr a) da (DISTANCE row) G = Ok G1).
  { unfold named, name_of.
    destruct (json_loads (SOURCE_OBJECT row)) as [[d|]|]; try discriminate.
    destruct (sget "name" d) as [[|a]|] eqn:Ea; try discriminate. intros _.
    destruct (add_or_update_named a
                (match sget "domain" d with Some v => v | None => Unknown end)
                (DISTANCE row) G) as (G1 & E1 & _).
    exists d, a, (match sget "domain" d with Some v => v | None => Unknown end),
           G1.
    cbn [get]. rewrite Ea.
    repeat split; [now destruct (sget "domain" d) | exact E1]. }
  repeat split.
  - unfold not_object, process_row.
    destruct (json_loads (SOURCE_OBJECT row)) as [[d|]|]; try discriminate.
    reflexivity.
  - unfold unnamed, process_row.
    destruct (json_loads (SOURCE_OBJECT row)) as [[d|]|]; try discriminate.
    cbn [get].
    destruct (sget "name" d) as [[|a]|]; try discriminate; intros _; cbn [bind];
      destruct (sget "domain" d); reflexivity.
  - intros Hs Ht. destruct (Hsrc Hs) as (d & a & da & G1 & Es & Ea & Eda & E1).
    unfold process_row. rewrite Es, Ea. cbn [bind]. rewrite Eda. cbn [bind].
    rewrite E1. cbn [bind]. unfold not_object in Ht.
    destruct (json_loads (TARGET_OBJECT row)) as [[d'|]|]; try discriminate.
    reflexivity.
  - intros Hs Ht. destruct (Hsrc Hs) as (d & a & da & G1 & Es & Ea & Eda & E1).
    unfold process_row. rewrite Es, Ea. cbn [bind]. rewrite Eda. cbn [bind].
    rewrite E1. cbn [bind]. unfold unnamed in Ht.
    destruct (json_loads (TARGET_OBJECT row)) as [[d'|]|]; try discriminate.
    cbn [get].
    destruct (sget "name" d') as [[|b]|]; try discriminate; cbn [bind];
      destruct (sget "domain" d'); reflexivity.
  - intros e He. unfold process_row. now rewrite He.
  - intros Hs Ht.
    assert (Hu : usable json_loads row = true).
    { unfold usable. rewrite Hs. cbn [andb].
      destruct Ht as [-> | ->]; cbn [orb]; now rewrite ?orb_true_r. }
    destruct (usable_outcome json_loads ut idx row G out Hu) as (st' & H).
    exists st'. now apply process_row_outcome.
Qed.

Lemma iteration_outcome_witness :
  process_row flat_loads (PyStr "T") (1, row (nameless "MODEL") T 1)
    (one_edge_graph, []) = Raise ValueError.
Proof.
  apply (proj1 (proj2 (iteration_outcome flat_loads (PyStr "T") 1
                         (row (nameless "MODEL") T 1) one_edge_graph []))).
  reflexivity.
Defined.

(** ** What is printed *)

Lemma row_outcome_printed json_loads ut idx row G out G' out' :
  row_outcome json_loads ut idx row G out (G', out') ->
  out' = out ++ row_message json_loads (idx, row).
Proof.
  intros H. unfold row_message. cbn [fst snd].
  inversion H as [e Es | so a da G1 e Es Ea Eda E1 Et
                 | so a da G1 to b db G2 Es Ea Eda E1 Et Eb Edb E2]; subst.
  - now rewrite Es.
  - now rewrite Es, Et.
  - rewrite Es, Et. now rewrite app_nil_r.
Qed.

Lemma process_rows_printed json_loads ut rows : forall G out G' out',
  process_rows json_loads ut rows (G, out) = Ok (G', out') ->
  out' = out ++ flat_map (row_message json_loads) rows.
Proof.
  induction rows as [|[idx row] rows IH]; intros G out G' out' H.
  - inversion H; subst. cbn. now rewrite app_nil_r.
  - loop_step H G1 out1 E. cbn [flat_map].
    rewrite (IH _ _ _ _ H), (row_outcome_printed _ _ _ _ _ _ _ _ E).
    now rewrite app_assoc.
Qed.

(** X4. When the construction completes, the printed lines are, in table
    order, one line for each row whose SOURCE_OBJECT is not JSON and one
    for each row whose SOURCE_OBJECT decodes and whose TARGET_OBJECT is not
    JSON; nothing else is printed. *)
Theorem printed_lines
  (json_loads : string -> decoded) (df : DataFrame)
  (G : DiGraph) (out : list string) :
  build_graph json_loads df = Ok (G, out) ->
  out = flat_map (row_message json_loads) df.
Proof.
  intros Hb. destruct (build_graph_inv _ _ _ _ Hb) as (t & dom & _ & Hloop).
  exact (process_rows_printed _ _ _ _ _ _ _ Hloop).
Qed.

Lemma printed_lines_witness :
  skipped_rows_output = flat_map (row_message flat_loads) skipped_rows.
Proof.
  exact (printed_lines flat_loads skipped_rows skipped_rows_graph
           skipped_rows_output eq_refl).
Defined.

(** ** The shape of the constructed graph *)

Lemma smem_In {V : Type} (k : string) (d : list (string * V)) :
  smem k d = true <-> In k (map fst d).
Proof.
  unfold smem, dict_mem.
  pose proof (dict_get_None_keys String.eqb String.eqb_spec k d) as H.
  destruct (dict_get String.eqb k d).
  - split; [intros _ | reflexivity].
    destruct (in_dec string_dec k (map fst d)) as [Hin|Hn]; [exact Hin|].
    apply H in Hn. discriminate.
  - split; [discriminate|]. intros Hin. exfalso. exact (proj1 H eq_refl Hin).
Qed.

Lemma smem_keys {V W : Type} (k : string) (d : list (string * V))
  (d' : list (string * W)) :
  map fst d = map fst d' -> smem k d = smem k d'.
Proof.
  intros E. apply eq_true_iff_eq. rewrite !smem_In, E. tauto.
Qed.

Lemma sset_keys {V : Type} (k : string) (v : V) (d : list (string * V)) :
  map fst (sset k v d) = if smem k d then map fst d else map fst d ++ [k].
Proof. apply (dict_keys_set String.eqb String.eqb_spec). Qed.

(** The adjacency dictionary after [add_or_update] on a name. *)
Lemma add_or_update_succ s dom dist G G' :
  add_or_update (PyStr s) dom dist G = Ok G' ->
  _succ G' = if smem s (_node G) then _succ G
             else if smem s (_succ G) then _succ G else sset s [] (_succ G).
Proof.
  unfold add_or_update, in_nodes, min_distance, add_node.
  unfold smem at 1 3. unfold dict_mem. fold (@sget NodeAttrs).
  destruct (sget s (_node G)) as [a|].
  - intros H; inversion H; reflexivity.
  - destruct (smem s (_succ G)); intros H; inversion H; reflexivity.
Qed.

Lemma add_or_update_names s dom dist G G' :
  add_or_update (PyStr s) dom dist G = Ok G' ->
  node_names G' = if smem s (_node G) then node_names G else node_names G ++ [s].
Proof.
  intros E. destruct (add_or_update_named s dom dist G) as (G1 & E1 & Hn & _).
  rewrite E in E1. inversion E1; subst G1. unfold node_names.
  rewrite Hn. apply sset_keys.
Qed.

Lemma add_or_update_adjacency s dom dist G G' :
  add_or_update (PyStr s) dom dist G = Ok G' ->
  adjacency_ok G -> adjacency_ok G'.
Proof.
  intros E [Hk Hv].
  pose proof (add_or_update_succ _ _ _ _ _ E) as Hs.
  pose proof (add_or_update_names _ _ _ _ _ E) as Hn.
  assert (Hm : smem s (_succ G) = smem s (_node G)) by (apply smem_keys, Hk).
  rewrite Hm in Hs. unfold adjacency_ok.
  destruct (smem s (_node G)) eqn:M; rewrite Hs, Hn.
  - split; assumption.
  - split.
    + rewrite sset_keys, Hm. now rewrite Hk.
    + intros u vs Hin. apply sset_In in Hin. destruct Hin as [Hin|[-> ->]].
      * destruct (Hv u vs Hin) as [H1 H2]. split; [exact H1|].
        intros v Hvin. apply in_app_iff. left. now apply H2.
      * split; [constructor | intros v []].
Qed.

Lemma connect_adjacency a b G :
  In a (node_names G) -> In b (node_names G) ->
  adjacency_ok G -> adjacency_ok (connect a b G).
Proof.
  intros Ha Hb [Hk Hv]. unfold connect, adjacency_ok, node_names. cbn [_succ _node].
  assert (Hm : smem a (_succ G) = true) by (apply smem_In; now rewrite Hk).
  destruct (sget a (_succ G)) as [vs0|] eqn:E.
  2:{ unfold smem, dict_mem in Hm. unfold sget in E. rewrite E in Hm. discriminate. }
  split.
  - rewrite sset_keys, Hm. exact Hk.
  - intros u vs Hin. apply sset_In in Hin. destruct Hin as [Hin|[-> ->]].
    + exact (Hv u vs Hin).
    + destruct (Hv a vs0 (dict_get_In String.eqb String.eqb_spec _ _ _ E))
        as [Hnd Hall].
      destruct (existsb (String.eqb b) vs0) eqn:Ex; [now split|]. split.
      * apply NoDup_app; [exact Hnd | constructor; [tauto|constructor] |].
        intros x Hx [<-|[]].
        assert (Ht : existsb (String.eqb b) vs0 = true)
          by (apply existsb_exists; exists b; split;
              [exact Hx | apply String.eqb_refl]).
        congruence.
      * intros v Hvin. apply in_app_iff in Hvin.
        destruct Hvin as [H|[<-|[]]]; [now apply Hall | exact Hb].
Qed.

Lemma names_In_sget (G : DiGraph) (n : string) :
  In n (node_names G) <-> sget n (_node G) <> None.
Proof.
  unfold node_names.
  pose proof (dict_get_None_keys String.eqb String.eqb_spec n (_node G)) as H.
  fold (@sget NodeAttrs) in H. split.
  - intros Hin E. now apply (proj1 H).
  - intros Hne. destruct (in_dec string_dec n (map fst (_node G))); [assumption|].
    exfalso. apply Hne. now apply H.
Qed.

Lemma row_outcome_adjacency json_loads ut idx row G out G' out' :
  row_outcome json_loads ut idx row G out (G', out') ->
  adjacency_ok G -> adjacency_ok G'.
Proof.
  intros H Hok.
  inversion H as [e Es | so s da G1 e Es Ea Eda E1 Et
                 | so s da G1 to b db G2 Es Ea Eda E1 Et Eb Edb E2]; subst.
  - exact Hok.
  - eapply add_or_update_adjacency; eauto.
  - apply connect_adjacency.
    + apply names_In_sget. eapply add_or_update_keeps; [exact E2|].
      eapply add_or_update_present; exact E1.
    + apply names_In_sget. eapply add_or_update_present; exact E2.
    + eapply add_or_update_adjacency; [exact E2|].
      eapply add_or_update_adjacency; eauto.
Qed.

Lemma process_rows_adjacency json_loads ut rows : forall G out G' out',
  process_rows json_loads ut rows (G, out) = Ok (G', out') ->
  adjacency_ok G -> adjacency_ok G'.
Proof.
  induction rows as [|[idx row] rows IH]; intros G out G' out' H Hok.
  - inversion H; subst. exact Hok.
  - loop_step H G1 out1 E. eapply IH; eauto.
    eapply row_outcome_adjacency; eauto.
Qed.

Lemma pairs_NoDup (u : string) (vs : list string) :
  NoDup vs -> NoDup (map (fun v => (u, v)) vs).
Proof.
  induction 1 as [|v vs Hnot _ IH]; cbn [map]; constructor; [|exact IH].
  intros Hin. apply in_map_iff in Hin. destruct Hin as (v' & E & Hin).
  inversion E; subst. contradiction.
Qed.

Lemma edges_NoDup (d : list (string * list string)) :
  NoDup (map fst d) ->
  (forall u vs, In (u, vs) d -> NoDup vs) ->
  NoDup (flat_map (fun '(u, vs) => map (fun v => (u, v)) vs) d).
Proof.
  induction d as [|[u vs] d IH]; intros Hk Hv; cbn [flat_map]; [constructor|].
  cbn [map fst] in Hk. inversion Hk as [|? ? Hnot Hk']; subst.
  apply NoDup_app.
  - apply pairs_NoDup. apply (Hv u vs). now left.
  - apply IH; [exact Hk'|]. intros u' vs' Hin. apply (Hv u' vs'). now right.
  - intros [x y] Hx Hy. apply in_map_iff in Hx. destruct Hx as (v & E & _).
    inversion E; subst. apply in_flat_map in Hy.
    destruct Hy as ([u' vs'] & Hin & Hm). apply in_map_iff in Hm.
    destruct Hm as (v' & E' & _). inversion E'; subst.
    apply Hnot. apply in_map_iff. now exists (x, vs').
Qed.

(** X5. In every constructed graph the node names are distinct, the
    adjacency dictionary has exactly the nodes as its keys, in the same
    order, every edge joins two nodes of the graph, and no edge occurs
    twice, however many rows ask for it. *)
Theorem graph_is_well_formed
  (json_loads : string -> decoded) (df : DataFrame)
  (G : DiGraph) (out : list string) :
  build_graph json_loads df = Ok (G, out) ->
  NoDup (node_names G) /\
  map fst (_succ G) = node_names G /\
  (forall u v, In (u, v) (edges G) ->
               In u (node_names G) /\ In v (node_names G)) /\
  NoDup (edges G).
Proof.
  intros Hb.
  destruct (build_graph_facts _ _ _ _ Hb) as (t & a & _ & _ & _ & Hnd & Hc).
  destruct (build_graph_inv _ _ _ _ Hb) as (t' & dom & _ & Hloop).
  assert (Hok : adjacency_ok G).
  { eapply process_rows_adjacency; [exact Hloop|]. split; [reflexivity|].
    intros u vs [E|[]]. inversion E; subst. split; [constructor | intros v []]. }
  destruct Hok as [Hk Hv].
  split; [exact Hnd|]. split; [exact Hk|]. split.
  - intros u v Huv. destruct (Hc u v Huv). split; now apply names_In_sget.
  - apply edges_NoDup; [now rewrite Hk|]. intros u vs Hin. now apply (Hv u vs).
Qed.

Lemma graph_is_well_formed_witness :
  NoDup (node_names two_claims_graph) /\
  map fst (_succ two_claims_graph) = node_names two_claims_graph /\
  (forall u v, In (u, v) (edges two_claims_graph) ->
               In u (node_names two_claims_graph) /\
               In v (node_names two_claims_graph)) /\
  NoDup (edges two_claims_graph).
Proof.
  exact (graph_is_well_formed flat_loads two_claims two_claims_graph [] eq_refl).
Defined.

(** ** The edges *)

Lemma sset_grows {V : Type} (k : string) (nv v0 : V) (d : list (string * V))
  (x : string) (w : V) :
  sget k d = Some v0 -> In (x, w) d ->
  In (x, w) (sset k nv d) \/ (x = k /\ w = v0 /\ In (k, nv) (sset k nv d)).
Proof.
  induction d as [|[k0 w0] d IH]; cbn [sget sset dict_get dict_set]; [discriminate|].
  destruct (String.eqb_spec k k0) as [->|Hne].
  - intros E [Hin|Hin].
    + inversion E; inversion Hin; subst. right. repeat split. now left.
    + left. now right.
  - intros E [Hin|Hin].
    + left. now left.
    + destruct (IH E Hin) as [H|(-> & -> & H)]; [left; now right|].
      right. repeat split. now right.
Qed.

Lemma edges_connect (a b : string) (G : DiGraph) (u v : string) :
  In (u, v) (edges (connect a b G)) <-> In (u, v) (edges G) \/ (u = a /\ v = b).
Proof.
  split; [apply connect_edges|].
  rewrite !edges_In. unfold connect. cbn [_succ].
  destruct (sget a (_succ G)) as [vs0|] eqn:E.
  - set (nv := if existsb (String.eqb b) vs0 then vs0 else vs0 ++ [b]).
    assert (Hsub : forall y, In y vs0 -> In y nv).
    { intros y Hy. unfold nv. destruct (existsb (String.eqb b) vs0); [exact Hy|].
      apply in_app_iff. now left. }
    assert (Hb : In b nv).
    { unfold nv. destruct (existsb (String.eqb b) vs0) eqn:Ex.
      - apply existsb_exists in Ex. destruct Ex as (y & Hy & Heq).
        apply String.eqb_eq in Heq. now subst.
      - apply in_app_iff. right. now left. }
    assert (Ha : In (a, nv) (sset a nv (_succ G))).
    { apply (dict_get_In String.eqb String.eqb_spec). apply sget_sset_same. }
    intros [(vs & Hin & Hv)|[-> ->]]; [|now exists nv].
    destruct (sset_grows a nv vs0 (_succ G) u vs E Hin) as [H|(-> & -> & H)].
    + now exists vs.
    + exists nv. split; [exact H | now apply Hsub].
  - rewrite (sset_absent _ _ _ E).
    intros [(vs & Hin & Hv)|[-> ->]].
    + exists vs. split; [apply in_app_iff; now left | exact Hv].
    + exists [b]. split; [apply in_app_iff; right; now left | now left].
Qed.

Lemma row_outcome_edges json_loads ut idx row G out G' out' (u v : string) :
  row_outcome json_loads ut idx row G out (G', out') ->
  In (u, v) (edges G') <->
  In (u, v) (edges G) \/ In (u, v) (row_edge json_loads row).
Proof.
  intros H. unfold row_edge.
  inversion H as [e Es | so a da G1 e Es Ea Eda E1 Et
                 | so a da G1 to b db G2 Es Ea Eda E1 Et Eb Edb E2]; subst.
  - rewrite (name_of_error _ _ _ Es). cbn [In]. tauto.
  - rewrite (name_of_get _ _ _ _ Es Ea), (name_of_error _ _ _ Et).
    destruct (add_or_update_named a da (DISTANCE row) G) as (G2 & E2 & _ & He).
    rewrite E1 in E2. inversion E2; subst G2. rewrite He. cbn [In]. tauto.
  - rewrite (name_of_get _ _ _ _ Es Ea), (name_of_get _ _ _ _ Et Eb).
    rewrite edges_connect.
    destruct (add_or_update_named a da (DISTANCE row) G) as (G3 & E3 & _ & He1).
    rewrite E1 in E3. inversion E3; subst G3.
    destruct (add_or_update_named b db
                (if pyval_eqb (PyStr b) ut then 0 else DISTANCE row - 1) G1)
      as (G4 & E4 & _ & He2).
    rewrite E2 in E4. inversion E4; subst G4.
    rewrite He2, He1. cbn [In]. split.
    + intros [Hin|[-> ->]]; [now left | right; now left].
    + intros [Hin|[E|[]]]; [now left | inversion E; now right].
Qed.

Lemma process_rows_edges json_loads ut rows (u v : string) : forall G out G' out',
  process_rows json_loads ut rows (G, out) = Ok (G', out') ->
  In (u, v) (edges G') <->
  In (u, v) (edges G) \/
  In (u, v) (flat_map (fun ir => row_edge json_loads (snd ir)) rows).
Proof.
  induction rows as [|[idx row] rows IH]; intros G out G' out' H.
  - inversion H; subst. cbn [flat_map In]. tauto.
  - loop_step H G1 out1 E. cbn [flat_map snd].
    rewrite (IH _ _ _ _ H), (row_outcome_edges _ _ _ _ _ _ _ _ u v E), in_app_iff.
    tauto.
Qed.

(** X6. The edges of the constructed graph are exactly the pairs
    (source name, target name) of the rows whose SOURCE_OBJECT and
    TARGET_OBJECT both decode to named objects.  A row of which one side
    does not decode adds no edge, and the ultimate target gets no edge
    from its creation. *)
Theorem edges_are_the_decoded_rows
  (json_loads : string -> decoded) (df : DataFrame)
  (G : DiGraph) (out : list string) (u v : string) :
  build_graph json_loads df = Ok (G, out) ->
  In (u, v) (edges G) <->
  exists idx row,
    In (idx, row) df /\
    name_of json_loads (SOURCE_OBJECT row) = Some u /\
    name_of json_loads (TARGET_OBJECT row) = Some v.
Proof.
  intros Hb. destruct (build_graph_inv _ _ _ _ Hb) as (t & dom & _ & Hloop).
  rewrite (process_rows_edges _ _ _ u v _ _ _ _ Hloop).
  cbn [seed_graph edges _succ flat_map map app In]. rewrite in_flat_map. split.
  - intros [[]|([idx row] & Hin & He)]. exists idx, row. cbn [snd] in He.
    unfold row_edge in He.
    destruct (name_of json_loads (SOURCE_OBJECT row)) as [a|]; [|contradiction].
    destruct (name_of json_loads (TARGET_OBJECT row)) as [b|]; [|contradiction].
    destruct He as [E|[]]. inversion E; subst. now repeat split.
  - intros (idx & row & Hin & Hs & Ht). right. exists (idx, row).
    split; [exact Hin|]. cbn [snd]. unfold row_edge. rewrite Hs, Ht. now left.
Qed.

Lemma edges_are_the_decoded_rows_witness :
  In ("T", "U") (edges skipped_rows_graph) <->
  exists idx row,
    In (idx, row) skipped_rows /\
    name_of flat_loads (SOURCE_OBJECT row) = Some "T" /\
    name_of flat_loads (TARGET_OBJECT row) = Some "U".
Proof.
  exact (edges_are_the_decoded_rows flat_loads skipped_rows skipped_rows_graph
           skipped_rows_output "T" "U" eq_refl).
Defined.

(** ** The domain of a node *)

Lemma first_domain_find (n : string) (ms : list (string * pyval)) : forall o,
  first_domain n o ms =
  match o with
  | Some d => Some d
  | None => option_map snd (find (fun m => String.eqb (fst m) n) ms)
  end.
Proof.
  unfold first_domain.
  induction ms as [|m ms IH]; intros o; cbn [fold_left find].
  - now destruct o.
  - rewrite IH. destruct o as [d|]; [reflexivity|].
    now destruct (String.eqb (fst m) n).
Qed.

Lemma first_domain_app n o l1 l2 :
  first_domain n o (l1 ++ l2) = first_domain n (first_domain n o l1) l2.
Proof. apply fold_left_app. Qed.

Lemma domain_of_get json_loads text j da :
  json_loads text = Decoded j ->
  get j "domain" Unknown = Ok da ->
  domain_of json_loads text = da.
Proof.
  intros E H. unfold domain_of. rewrite E.
  destruct j as [d|]; [|discriminate]. cbn [get] in H.
  destruct (sget "domain" d); now inversion H.
Qed.

Lemma add_or_update_domain s dom dist G G' (n : string) :
  add_or_update (PyStr s) dom dist G = Ok G' ->
  option_map domain (sget n (_node G')) =
  first_domain n (option_map domain (sget n (_node G))) [(s, dom)].
Proof.
  intros E. rewrite (add_or_update_lookup _ _ _ _ _ n E).
  cbn [first_domain fold_left fst snd]. rewrite (String.eqb_sym s n).
  destruct (String.eqb n s), (sget n (_node G)); reflexivity.
Qed.

Lemma row_outcome_domain json_loads ut idx row G out G' out' (n : string) :
  row_outcome json_loads ut idx row G out (G', out') ->
  option_map domain (sget n (_node G')) =
  first_domain n (option_map domain (sget n (_node G)))
    (row_mentions json_loads row).
Proof.
  intros H. unfold row_mentions.
  inversion H as [e Es | so a da G1 e Es Ea Eda E1 Et
                 | so a da G1 to b db G2 Es Ea Eda E1 Et Eb Edb E2]; subst.
  - rewrite (name_of_error _ _ _ Es). reflexivity.
  - rewrite (name_of_get _ _ _ _ Es Ea), (name_of_error _ _ _ Et).
    rewrite (domain_of_get _ _ _ _ Es Eda).
    apply (add_or_update_domain _ _ _ _ _ n E1).
  - rewrite (name_of_get _ _ _ _ Es Ea), (name_of_get _ _ _ _ Et Eb).
    rewrite (domain_of_get _ _ _ _ Es Eda), (domain_of_get _ _ _ _ Et Edb).
    cbn [connect _node].
    rewrite (add_or_update_domain _ _ _ _ _ n E2).
    rewrite (add_or_update_domain _ _ _ _ _ n E1).
    change [(a, da); (b, db)] with ([(a, da)] ++ [(b, db)]).
    now rewrite first_domain_app.
Qed.

Lemma process_rows_domain json_loads ut rows (n : string) : forall G out G' out',
  process_rows json_loads ut rows (G, out) = Ok (G', out') ->
  option_map domain (sget n (_node G')) =
  first_domain n (option_map domain (sget n (_node G)))
    (flat_map (fun ir => row_mentions json_loads (snd ir)) rows).
Proof.
  induction rows as [|[idx row] rows IH]; intros G out G' out' H.
  - inversion H; subst. reflexivity.
  - loop_step H G1 out1 E. cbn [flat_map snd].
    rewrite first_domain_app, <- (row_outcome_domain _ _ _ _ _ _ _ _ n E).
    eapply IH; eauto.
Qed.

(** A completed construction, with the domain the ultimate target is
    created with. *)
Lemma build_graph_seed json_loads df G out :
  build_graph json_loads df = Ok (G, out) ->
  exists i r rest t,
    df = (i, r) :: rest /\
    name_of json_loads (TARGET_OBJECT r) = Some t /\
    process_rows json_loads (PyStr t) df
      (seed_graph t (domain_of json_loads (TARGET_OBJECT r)), []) = Ok (G, out).
Proof.
  unfold build_graph, ultimate_target, name_of, domain_of.
  destruct df as [|[i r] rest]; [discriminate|]. cbn [iloc0 bind].
  destruct (json_loads (TARGET_OBJECT r)) as [[d|]|] eqn:E; try discriminate.
  cbn [bind subscript get].
  destruct (sget "name" d) as [[|t]|] eqn:En; cbn [bind]; try discriminate.
  - destruct (sget "domain" d); discriminate.
  - intros H. exists i, r, rest, t. rewrite E, En.
    split; [reflexivity|]. split; [reflexivity|].
    destruct (sget "domain" d); exact H.
Qed.

(** X7. The domain of a node is the domain of its first mention, the
    creation of the ultimate target from the TARGET_OBJECT of row 0 coming
    before all rows; a missing domain counts as "Unknown".  A name that is
    never mentioned is not a node. *)
Theorem domain_is_first_mention
  (json_loads : string -> decoded) (df : DataFrame)
  (G : DiGraph) (out : list string) (n : string) :
  build_graph json_loads df = Ok (G, out) ->
  option_map domain (sget n (_node G)) =
  option_map snd (find (fun m => String.eqb (fst m) n) (all_mentions json_loads df)).
Proof.
  intros Hb.
  destruct (build_graph_seed _ _ _ _ Hb) as (i & r & rest & t & -> & Ht & Hloop).
  rewrite (process_rows_domain _ _ _ n _ _ _ _ Hloop).
  unfold all_mentions. rewrite Ht.
  rewrite <- (first_domain_find n _ None), first_domain_app. f_equal.
  cbn [seed_graph _node sget dict_get first_domain fold_left fst snd].
  rewrite (String.eqb_sym t n). now destruct (String.eqb n t).
Qed.

Lemma domain_is_first_mention_witness :
  option_map domain (sget "S" (_node bad_target_graph)) =
  option_map snd (find (fun m => String.eqb (fst m) "S")
                    (all_mentions flat_loads bad_target)).
Proof.
  exact (domain_is_first_mention flat_loads bad_target bad_target_graph
           [target_error 1 no_value] "S" eq_refl).
Defined.

(** ** The order of the nodes *)

Lemma smem_existsb (s : string) (G : DiGraph) :
  smem s (_node G) = existsb (String.eqb s) (node_names G).
Proof.
  apply eq_true_iff_eq. rewrite smem_In, existsb_exists. unfold node_names. split.
  - intros H. exists s. split; [exact H | apply String.eqb_refl].
  - intros (x & Hx & E). apply String.eqb_eq in E. now subst.
Qed.

Lemma add_or_update_order s dom dist G G' :
  add_or_update (PyStr s) dom dist G = Ok G' ->
  node_names G' = add_name (node_names G) s.
Proof.
  intros E. rewrite (add_or_update_names _ _ _ _ _ E). unfold add_name.
  now rewrite smem_existsb.
Qed.

Lemma row_outcome_order json_loads ut idx row G out G' out' :
  row_outcome json_loads ut idx row G out (G', out') ->
  node_names G' =
  first_occurrences (node_names G) (map fst (row_mentions json_loads row)).
Proof.
  intros H. unfold row_mentions, first_occurrences.
  inversion H as [e Es | so a da G1 e Es Ea Eda E1 Et
                 | so a da G1 to b db G2 Es Ea Eda E1 Et Eb Edb E2]; subst.
  - now rewrite (name_of_error _ _ _ Es).
  - rewrite (name_of_get _ _ _ _ Es Ea), (name_of_error _ _ _ Et).
    cbn [map fst fold_left]. now apply add_or_update_order in E1.
  - rewrite (name_of_get _ _ _ _ Es Ea), (name_of_get _ _ _ _ Et Eb).
    cbn [map fst fold_left]. unfold node_names at 1. cbn [connect _node].
    fold (node_names G2).
    rewrite (add_or_update_order _ _ _ _ _ E2).
    now rewrite (add_or_update_order _ _ _ _ _ E1).
Qed.

Lemma process_rows_order json_loads ut rows : forall G out G' out',
  process_rows json_loads ut rows (G, out) = Ok (G', out') ->
  node_names G' =
  first_occurrences (node_names G)
    (map fst (flat_map (fun ir => row_mentions json_loads (snd ir)) rows)).
Proof.
  induction rows as [|[idx row] rows IH]; intros G out G' out' H.
  - inversion H; subst. reflexivity.
  - loop_step H G1 out1 E. cbn [flat_map snd].
    rewrite map_app. unfold first_occurrences. rewrite fold_left_app.
    fold (first_occurrences (node_names G)
            (map fst (row_mentions json_loads row))).
    rewrite <- (row_outcome_order _ _ _ _ _ _ _ _ E).
    eapply IH; eauto.
Qed.

(** X8. The nodes of the constructed graph are in the order of their
    first mention: the ultimate target first, then, row by row, the source
    and the target of each row that is processed, each name once. *)
Theorem nodes_in_order_of_first_mention
  (json_loads : string -> decoded) (df : DataFrame)
  (G : DiGraph) (out : list string) :
  build_graph json_loads df = Ok (G, out) ->
  node_names G = first_occurrences [] (map fst (all_mentions json_loads df)).
Proof.
  intros Hb.
  destruct (build_graph_seed _ _ _ _ Hb) as (i & r & rest & t & -> & Ht & Hloop).
  rewrite (process_rows_order _ _ _ _ _ _ _ Hloop).
  unfold all_mentions. rewrite Ht, map_app.
  unfold first_occurrences. rewrite fold_left_app. reflexivity.
Qed.

Lemma nodes_in_order_of_first_mention_witness :
  node_names three_sources_graph =
  first_occurrences [] (map fst (all_mentions flat_loads three_sources)).
Proof.
  exact (nodes_in_order_of_first_mention flat_loads three_sources
           three_sources_graph [] eq_refl).
Defined.

(** * Further properties of the layout and of the figure *)



(** ** The positions are those of the nodes *)

Lemma put_keys_NoDup (x : Z) (l : list (string * Q)) : forall pos : Pos,
  NoDup (map fst pos) -> NoDup (map fst (fold_left (put x) l pos)).
Proof.
  induction l as [|[n y] l IH]; intros pos H; [exact H|].
  cbn [fold_left put]. apply IH.
  apply (dict_set_NoDup String.eqb String.eqb_spec), H.
Qed.

Lemma layout_keys_NoDup (M : Z) (gs : list (Z * list string)) : forall pos : Pos,
  NoDup (map fst pos) -> NoDup (map fst (fold_left (place_group M) gs pos)).
Proof.
  induction gs as [|[d ns] gs IH]; intros pos H; [exact H|].
  cbn [fold_left]. apply IH. unfold place_group. now apply put_keys_NoDup.
Qed.

Lemma layout_only_nodes (G : DiGraph) (pos : Pos) (v : string) :
  NoDup (node_names G) ->
  layout G = Ok pos ->
  sget v (_node G) = None -> sget v pos = None.
Proof.
  intros Hnd Hl Hv. unfold layout in Hl.
  destruct (max_distance_of G) as [M|]; [|discriminate].
  cbn [bind] in Hl. inversion Hl; subst pos.
  rewrite layout_fold_other; [reflexivity|].
  intros d ns Hin Hk. apply distance_groups_In in Hin. subst ns.
  apply (members_In (_node G) Hnd) in Hk. destruct Hk as (a & Ha & _).
  congruence.
Qed.

(** X10. The layout places exactly the nodes of the graph, each once: a
    name has a position if and only if it is a node, and the positions
    are as many as the nodes. *)
Theorem positions_are_the_nodes
  (json_loads : string -> decoded) (df : DataFrame)
  (G : DiGraph) (out : list string) (pos : Pos) :
  build_graph json_loads df = Ok (G, out) ->
  layout G = Ok pos ->
  NoDup (map fst pos) /\
  (forall v, sget v pos = None <-> sget v (_node G) = None) /\
  Permutation (map fst pos) (node_names G) /\
  List.length pos = List.length (_node G).
Proof.
  intros Hb Hl.
  destruct (build_graph_facts _ _ _ _ Hb) as (t & a & _ & Ht & _ & Hnd & _).
  destruct (max_distance_total _ _ _ Ht) as (M & HM).
  assert (Hk : NoDup (map fst pos)).
  { unfold layout in Hl. rewrite HM in Hl. cbn [bind] in Hl.
    inversion Hl. apply layout_keys_NoDup. constructor. }
  assert (Hiff : forall v, sget v pos = None <-> sget v (_node G) = None).
  { intros v. split.
    - intros Hp. destruct (sget v (_node G)) as [av|] eqn:Ev; [|reflexivity].
      destruct (layout_node G Hnd M pos v av HM Hl Ev) as (y & Hy). congruence.
    - now apply layout_only_nodes. }
  assert (Hperm : Permutation (map fst pos) (node_names G)).
  { apply NoDup_Permutation; [exact Hk | exact Hnd|].
    intros v. unfold node_names.
    pose proof (dict_get_None_keys String.eqb String.eqb_spec v pos) as H1.
    pose proof (dict_get_None_keys String.eqb String.eqb_spec v (_node G)) as H2.
    fold (@sget (Z * Q)) in H1. fold (@sget NodeAttrs) in H2.
    specialize (Hiff v).
    destruct (in_dec string_dec v (map fst pos)),
             (in_dec string_dec v (map fst (_node G))); tauto. }
  repeat split; try assumption; try apply Hiff.
  rewrite <- (length_map fst pos), <- (length_map fst (_node G)).
  now apply Permutation_length.
Qed.

Lemma positions_are_the_nodes_witness :
  exists pos,
    layout three_sources_graph = Ok pos /\
    NoDup (map fst pos) /\
    (forall v, sget v pos = None <-> sget v (_node three_sources_graph) = None) /\
    Permutation (map fst pos) (node_names three_sources_graph) /\
    List.length pos = List.length (_node three_sources_graph).
Proof.
  eexists. split; [reflexivity|].
  exact (positions_are_the_nodes flat_loads three_sources three_sources_graph
           [] _ eq_refl eq_refl).
Defined.

(** ** No two nodes share a position *)

Lemma Qnat_inj (i j : nat) : (Qnat i == Qnat j)%Q -> i = j.
Proof.
  unfold Qnat, Qeq. cbn [Qnum Qden inject_Z]. lia.
Qed.

(** The index of a node in its column, and its position. *)
Lemma node_position (G : DiGraph) (M : Z) (pos : Pos) (v : string) (a : NodeAttrs) :
  NoDup (node_names G) ->
  max_distance_of G = Ok M ->
  layout G = Ok pos ->
  sget v (_node G) = Some a ->
  let column := sorted (members (distance a) (_node G)) in
  exists i,
    (i < List.length column)%nat /\ nth i column "" = v /\
    sget v pos = Some (M - distance a, nth i (column_ys (List.length column)) 0%Q).
Proof.
  intros Hnd HM Hl Hv column.
  assert (Hin : In v column).
  { apply sorted_In, (members_In (_node G) Hnd). now exists a. }
  destruct (In_nth _ _ "" Hin) as (i & Hi & Hnth).
  exists i. split; [exact Hi|]. split; [exact Hnth|].
  unfold column in *. rewrite sorted_length in *. rewrite <- Hnth at 1.
  now apply layout_column.
Qed.

(** X11. Two different nodes never get the same position: nodes at
    different distances are in different columns, and nodes of one column
    are at different heights. *)
Theorem layout_is_injective
  (json_loads : string -> decoded) (df : DataFrame)
  (G : DiGraph) (out : list string) (pos : Pos)
  (v1 v2 : string) (p1 p2 : Z * Q) :
  build_graph json_loads df = Ok (G, out) ->
  layout G = Ok pos ->
  v1 <> v2 ->
  sget v1 pos = Some p1 ->
  sget v2 pos = Some p2 ->
  fst p1 <> fst p2 \/ ~ (snd p1 == snd p2)%Q.
Proof.
  intros Hb Hl Hne H1 H2.
  destruct (build_graph_facts _ _ _ _ Hb) as (t & a & _ & Ht & _ & Hnd & _).
  destruct (max_distance_total _ _ _ Ht) as (M & HM).
  destruct (sget v1 (_node G)) as [a1|] eqn:E1.
  2:{ rewrite (layout_only_nodes G pos v1 Hnd Hl E1) in H1. discriminate. }
  destruct (sget v2 (_node G)) as [a2|] eqn:E2.
  2:{ rewrite (layout_only_nodes G pos v2 Hnd Hl E2) in H2. discriminate. }
  destruct (node_position G M pos v1 a1 Hnd HM Hl E1) as (i1 & Hi1 & Hn1 & P1).
  destruct (node_position G M pos v2 a2 Hnd HM Hl E2) as (i2 & Hi2 & Hn2 & P2).
  rewrite H1 in P1. rewrite H2 in P2. inversion P1; inversion P2; subst p1 p2.
  cbn [fst snd].
  destruct (Z.eq_dec (distance a1) (distance a2)) as [Ed|Hd].
  2:{ left. intros E. apply Hd. lia. }
  right. rewrite Ed in *.
  rewrite (column_ys_nth _ _ Hi1), (column_ys_nth _ _ Hi2).
  intros Hq.
  assert (Hij : (Qnat i1 == Qnat i2)%Q).
  { apply (Qplus_inj_l _ _ (- ((Qnat (List.length
             (sorted (members (distance a2) (_node G)))) - 1) / 2))%Q).
    unfold Qminus in Hq.
    apply Qopp_comp in Hq. rewrite !Qopp_plus, !Qopp_opp in Hq. exact Hq. }
  apply Qnat_inj in Hij. subst i2. congruence.
Qed.

Lemma layout_is_injective_witness :
  exists pos p1 p2,
    layout three_sources_graph = Ok pos /\
    sget "A" pos = Some p1 /\ sget "B" pos = Some p2 /\
    (fst p1 <> fst p2 \/ ~ (snd p1 == snd p2)%Q).
Proof.
  do 3 eexists. split; [reflexivity|]. split; [reflexivity|].
  split; [reflexivity|].
  apply (layout_is_injective flat_loads three_sources three_sources_graph []
           _ "A" "B" _ _ eq_refl eq_refl);
    [discriminate | reflexivity | reflexivity].
Defined.

(** ** The layout does not depend on the order of the nodes *)

Lemma sorted_unique (l1 : list string) : forall l2,
  StronglySorted lex_le l1 -> StronglySorted lex_le l2 ->
  Permutation l1 l2 -> l1 = l2.
Proof.
  induction l1 as [|a l1 IH]; intros l2 H1 H2 HP.
  - apply Permutation_nil in HP. now subst.
  - destruct l2 as [|b l2]; [symmetry in HP; now apply Permutation_nil in HP|].
    inversion H1 as [|? ? Hs1 Hall1]; inversion H2 as [|? ? Hs2 Hall2]; subst.
    assert (E : a = b).
    { assert (Ha : In a (b :: l2)) by (eapply Permutation_in; [exact HP | now left]).
      assert (Hb : In b (a :: l1))
        by (eapply Permutation_in; [symmetry; exact HP | now left]).
      destruct Ha as [->|Ha]; [reflexivity|].
      destruct Hb as [->|Hb]; [reflexivity|].
      rewrite Forall_forall in Hall1, Hall2.
      apply String.leb_antisym; [now apply Hall1 | now apply Hall2]. }
    subst b. f_equal. apply IH; try assumption.
    eapply Permutation_cons_inv; exact HP.
Qed.

Lemma sorted_of_permutation (l l' : list string) :
  Permutation l l' -> sorted l = sorted l'.
Proof.
  intros HP. apply sorted_unique; try apply sorted_sorted.
  rewrite !sorted_perm. exact HP.
Qed.

Lemma members_of_permutation (d : Z) (nodes nodes' : list (string * NodeAttrs)) :
  Permutation nodes nodes' -> Permutation (members d nodes) (members d nodes').
Proof.
  induction 1 as [|[v a] l l' _ IH|[v a] [w b] l|l l' l'' _ IH1 _ IH2].
  - reflexivity.
  - rewrite !members_cons. destruct (Z.eqb (distance a) d); [now constructor|exact IH].
  - rewrite !members_cons.
    destruct (Z.eqb (distance a) d), (Z.eqb (distance b) d);
      try reflexivity. apply perm_swap.
  - now transitivity (members d l').
Qed.

Lemma is_maximum_of_permutation (m m' : Z) (l l' : list Z) :
  Permutation l l' -> is_maximum m l -> is_maximum m' l' -> m = m'.
Proof.
  intros HP [Hin Hall] [Hin' Hall']. rewrite Forall_forall in Hall, Hall'.
  assert (H1 : m' <= m)
    by (apply Hall; eapply Permutation_in; [symmetry; exact HP | exact Hin']).
  assert (H2 : m <= m') by (apply Hall'; eapply Permutation_in; eauto).
  lia.
Qed.

Lemma sget_of_permutation {V : Type} (k : string) (d d' : list (string * V)) :
  NoDup (map fst d) -> Permutation d d' -> sget k d = sget k d'.
Proof.
  intros Hnd HP.
  assert (Hnd' : NoDup (map fst d'))
    by (eapply Permutation_NoDup; [apply Permutation_map; exact HP | exact Hnd]).
  destruct (sget k d) as [v|] eqn:E.
  - symmetry. apply (dict_In_get String.eqb String.eqb_spec _ _ _ Hnd').
    eapply Permutation_in; [exact HP|].
    apply (dict_get_In String.eqb String.eqb_spec), E.
  - destruct (sget k d') as [v'|] eqn:E'; [|reflexivity].
    assert (H : sget k d = Some v').
    { apply (dict_In_get String.eqb String.eqb_spec _ _ _ Hnd).
      eapply Permutation_in; [symmetry; exact HP|].
      apply (dict_get_In String.eqb String.eqb_spec), E'. }
    congruence.
Qed.

(** X12. The position of a node depends on which nodes the graph has and
    on their distances, not on the order in which the rows brought them
    in: two constructed graphs whose nodes are the same up to order give
    every name the same position. *)
Theorem layout_ignores_node_order
  (json_loads : string -> decoded) (df1 df2 : DataFrame)
  (G1 G2 : DiGraph) (out1 out2 : list string) (pos1 pos2 : Pos) :
  build_graph json_loads df1 = Ok (G1, out1) ->
  build_graph json_loads df2 = Ok (G2, out2) ->
  Permutation (_node G1) (_node G2) ->
  layout G1 = Ok pos1 ->
  layout G2 = Ok pos2 ->
  forall v, sget v pos1 = sget v pos2.
Proof.
  intros Hb1 Hb2 HP Hl1 Hl2 v.
  destruct (build_graph_facts _ _ _ _ Hb1) as (t1 & a1 & _ & Ht1 & _ & Hnd1 & _).
  destruct (build_graph_facts _ _ _ _ Hb2) as (t2 & a2 & _ & Ht2 & _ & Hnd2 & _).
  destruct (max_distance_total _ _ _ Ht1) as (M1 & HM1).
  destruct (max_distance_total _ _ _ Ht2) as (M2 & HM2).
  assert (EM : M1 = M2).
  { eapply is_maximum_of_permutation;
      [|apply py_max_spec, HM1 | apply py_max_spec, HM2].
    now apply Permutation_map. }
  subst M2.
  pose proof (sget_of_permutation v _ _ Hnd1 HP) as Ev.
  destruct (sget v (_node G1)) as [a|] eqn:E1.
  - symmetry in Ev.
    destruct (node_position G1 M1 pos1 v a Hnd1 HM1 Hl1 E1) as (i & Hi & Hn & P1).
    rewrite P1. symmetry.
    pose proof (members_of_permutation (distance a) _ _ HP) as Hm.
    pose proof (sorted_of_permutation _ _ Hm) as Hs.
    rewrite Hs in Hi, Hn |- *. rewrite <- Hn at 1.
    rewrite sorted_length in *. now apply layout_column.
  - rewrite (layout_only_nodes G1 pos1 v Hnd1 Hl1 E1).
    symmetry. apply (layout_only_nodes G2 pos2 v Hnd2 Hl2). now rewrite <- Ev.
Qed.

Lemma layout_ignores_node_order_witness :
  exists pos1 pos2,
    layout three_sources_graph = Ok pos1 /\
    layout three_sources_reordered_graph = Ok pos2 /\
    forall v, sget v pos1 = sget v pos2.
Proof.
  do 2 eexists. split; [reflexivity|]. split; [reflexivity|].
  apply (layout_ignores_node_order flat_loads three_sources
           three_sources_reordered three_sources_graph
           three_sources_reordered_graph [] [] _ _ eq_refl eq_refl);
    [|reflexivity|reflexivity].
  apply perm_skip, perm_swap.
Defined.

(** ** The viewport *)

Lemma margin_covers (w zoom : Q) :
  (0 < zoom)%Q -> (zoom <= 12 # 10)%Q -> (0 <= w)%Q ->
  (w <= w * (12 # 10) / zoom)%Q.
Proof.
  intros Hz Hz' Hw. apply Qle_shift_div_l; [exact Hz|].
  rewrite (Qmult_comm w zoom), (Qmult_comm w (12 # 10)).
  apply Qmult_le_compat_r; assumption.
Qed.

Lemma fold_Zmin_spec (l : list Z) : forall a,
  fold_left Z.min l a <= a /\ Forall (fun x => fold_left Z.min l a <= x) l.
Proof.
  induction l as [|c l IH]; intros a; cbn [fold_left].
  - split; [lia | constructor].
  - destruct (IH (Z.min a c)) as [H1 H2]. split; [lia|].
    constructor; [lia | exact H2].
Qed.

Lemma fold_Zmax_spec (l : list Z) : forall a,
  a <= fold_left Z.max l a /\ Forall (fun x => x <= fold_left Z.max l a) l.
Proof.
  induction l as [|c l IH]; intros a; cbn [fold_left].
  - split; [lia | constructor].
  - destruct (IH (Z.max a c)) as [H1 H2]. split; [lia|].
    constructor; [lia | exact H2].
Qed.

Lemma fold_Qmin_spec (l : list Q) : forall a,
  (fold_left Qmin l a <= a)%Q /\ Forall (fun x => (fold_left Qmin l a <= x)%Q) l.
Proof.
  induction l as [|c l IH]; intros a; cbn [fold_left].
  - split; [apply Qle_refl | constructor].
  - destruct (IH (Qmin a c)) as [H1 H2].
    pose proof (Q.le_min_l a c). pose proof (Q.le_min_r a c).
    split; [eapply Qle_trans; eauto|].
    constructor; [eapply Qle_trans; eauto | exact H2].
Qed.

Lemma fold_Qmax_spec (l : list Q) : forall a,
  (a <= fold_left Qmax l a)%Q /\ Forall (fun x => (x <= fold_left Qmax l a)%Q) l.
Proof.
  induction l as [|c l IH]; intros a; cbn [fold_left].
  - split; [apply Qle_refl | constructor].
  - destruct (IH (Qmax a c)) as [H1 H2].
    pose proof (Q.le_max_l a c). pose proof (Q.le_max_r a c).
    split; [eapply Qle_trans; eauto|].
    constructor; [eapply Qle_trans; eauto | exact H2].
Qed.

(** X13. With an initial zoom of at most 1, in particular with the
    default 1.0, every node lies inside the viewport: without zooming in,
    the half extent, widened by the margin factor, reaches every node. *)
Theorem viewport_contains_nodes (pos : Pos) (initial_zoom : Q)
  (v : string) (x : Z) (y : Q) :
  (0 < initial_zoom)%Q -> (initial_zoom <= 1)%Q ->
  In (v, (x, y)) pos ->
  (fst (fst (viewport pos initial_zoom)) <= inject_Z x
   /\ inject_Z x <= snd (fst (viewport pos initial_zoom))
   /\ fst (snd (viewport pos initial_zoom)) <= y
   /\ y <= snd (snd (viewport pos initial_zoom)))%Q.
Proof.
  intros Hz Hz1 Hin. unfold viewport.
  assert (Hz' : (initial_zoom <= 12 # 10)%Q).
  { eapply Qle_trans; [exact Hz1 | discriminate]. }
  destruct pos as [|[v0 [x0 y0]] rest]; [contradiction|].
  cbn [map fst snd].
  set (xs := map (fun p : string * (Z * Q) => fst (snd p)) rest).
  set (ys := map (fun p : string * (Z * Q) => snd (snd p)) rest).
  destruct (fold_Zmin_spec xs x0) as [Hn0 Hn]. destruct (fold_Zmax_spec xs x0) as [Hx0 Hx].
  destruct (fold_Qmin_spec ys y0) as [Hyn0 Hyn]. destruct (fold_Qmax_spec ys y0) as [Hyx0 Hyx].
  set (xmin := fold_left Z.min xs x0) in *. set (xmax := fold_left Z.max xs x0) in *.
  set (ymin := fold_left Qmin ys y0) in *. set (ymax := fold_left Qmax ys y0) in *.
  assert (Hxb : xmin <= x <= xmax).
  { destruct Hin as [E|Hin]; [inversion E; subst; lia|].
    rewrite Forall_forall in Hn, Hx.
    assert (Hx' : In x xs) by (unfold xs; apply in_map_iff; now exists (v, (x, y))).
    split; [now apply Hn | now apply Hx]. }
  assert (Hyb : (ymin <= y /\ y <= ymax)%Q).
  { destruct Hin as [E|Hin]; [inversion E; subst; tauto|].
    rewrite Forall_forall in Hyn, Hyx.
    assert (Hy' : In y ys) by (unfold ys; apply in_map_iff; now exists (v, (x, y))).
    split; [now apply Hyn | now apply Hyx]. }
  cbn [fst snd].
  assert (Hwx : (0 <= inject_Z (xmax - xmin) / 2)%Q).
  { apply Qle_shift_div_l; [reflexivity|]. rewrite Qmult_0_l.
    rewrite <- (Zle_Qle 0). lia. }
  assert (Hwy : (0 <= (ymax - ymin) / 2)%Q).
  { apply Qle_shift_div_l; [reflexivity|]. rewrite Qmult_0_l.
    destruct Hyb. assert (ymin <= ymax)%Q by (eapply Qle_trans; eauto). lra. }
  pose proof (margin_covers _ _ Hz Hz' Hwx) as Mx.
  pose proof (margin_covers _ _ Hz Hz' Hwy) as My.
  destruct Hxb as [Hx1 Hx2]. rewrite Zle_Qle in Hx1, Hx2.
  unfold Z.sub in *. rewrite !inject_Z_plus, !inject_Z_opp in *.
  destruct Hyb as [Hy1 Hy2].
  set (h1 := ((inject_Z xmax + - inject_Z xmin) / 2 * (12 # 10) / initial_zoom)%Q) in *.
  set (h2 := ((ymax - ymin) / 2 * (12 # 10) / initial_zoom)%Q) in *.
  clearbody h1 h2 xmin xmax ymin ymax.
  unfold Qdiv in *. change (/ 2)%Q with (1 # 2)%Q in *.
  repeat split; lra.
Qed.

Lemma half_extent_antitone (w z1 z2 : Q) :
  (0 <= w)%Q -> (0 < z1)%Q -> (z1 <= z2)%Q ->
  (w * (12 # 10) / z2 <= w * (12 # 10) / z1)%Q.
Proof.
  intros Hw H1 H12.
  assert (H2 : (0 < z2)%Q) by (eapply Qlt_le_trans; eauto).
  assert (Hc : (0 <= w * (12 # 10))%Q) by (apply Qmult_le_0_compat; [exact Hw | discriminate]).
  apply Qle_shift_div_l; [exact H1|].
  assert (E : (w * (12 # 10) / z2 * z1 == w * (12 # 10) * z1 / z2)%Q).
  { field. intros E. rewrite E in H2. discriminate. }
  rewrite E. apply Qle_shift_div_r; [exact H2|].
  rewrite (Qmult_comm _ z1), (Qmult_comm _ z2).
  apply Qmult_le_compat_r; assumption.
Qed.

Lemma viewport_contains_nodes_witness :
  (fst (fst (viewport one_edge_pos 1)) <= inject_Z 0
   /\ inject_Z 0 <= snd (fst (viewport one_edge_pos 1))
   /\ fst (snd (viewport one_edge_pos 1)) <= 0
   /\ 0 <= snd (snd (viewport one_edge_pos 1)))%Q.
Proof.
  apply (viewport_contains_nodes one_edge_pos 1 "S" 0 0%Q).
  - reflexivity.
  - discriminate.
  - right. now left.
Defined.

(** X14. A larger initial zoom gives a smaller viewport inside the
    viewport of a smaller one, on both axes and around the same centre:
    values above 1 zoom in, values below 1 zoom out. *)
Theorem zoom_in_shrinks (pos : Pos) (z1 z2 : Q) :
  (0 < z1)%Q -> (z1 <= z2)%Q ->
  range_within (fst (viewport pos z2)) (fst (viewport pos z1)) /\
  range_within (snd (viewport pos z2)) (snd (viewport pos z1)).
Proof.
  intros H1 H12. unfold viewport, range_within.
  set (xs := map (fun p : string * (Z * Q) => fst (snd p)) pos).
  set (ys := map (fun p : string * (Z * Q) => snd (snd p)) pos).
  assert (Hx : exists xmin xmax,
             match xs with [] => (-1, 1) | x :: r => (fold_left Z.min r x, fold_left Z.max r x) end
             = (xmin, xmax) /\ xmin <= xmax).
  { destruct xs as [|x r]; [exists (-1), 1; split; [reflexivity | lia]|].
    do 2 eexists. split; [reflexivity|].
    destruct (fold_Zmin_spec r x), (fold_Zmax_spec r x). lia. }
  assert (Hy : exists ymin ymax,
             match ys with [] => (-1, 1)%Q | y :: r => (fold_left Qmin r y, fold_left Qmax r y) end
             = (ymin, ymax) /\ (ymin <= ymax)%Q).
  { destruct ys as [|y r]; [exists (-1)%Q, 1%Q; split; [reflexivity | discriminate]|].
    do 2 eexists. split; [reflexivity|].
    destruct (fold_Qmin_spec r y), (fold_Qmax_spec r y). eapply Qle_trans; eauto. }
  destruct Hx as (xmin & xmax & -> & Hxle). destruct Hy as (ymin & ymax & -> & Hyle).
  cbn [fst snd].
  assert (Hwx : (0 <= inject_Z (xmax - xmin) / 2)%Q).
  { apply Qle_shift_div_l; [reflexivity|]. rewrite Qmult_0_l.
    rewrite <- (Zle_Qle 0). lia. }
  assert (Hwy : (0 <= (ymax - ymin) / 2)%Q).
  { apply Qle_shift_div_l; [reflexivity|]. rewrite Qmult_0_l. lra. }
  pose proof (half_extent_antitone _ _ _ Hwx H1 H12) as Mx.
  pose proof (half_extent_antitone _ _ _ Hwy H1 H12) as My.
  set (c1 := (inject_Z (xmin + xmax) / 2)%Q) in *.
  set (c2 := ((ymin + ymax) / 2)%Q) in *.
  set (a1 := (inject_Z (xmax - xmin) / 2 * (12 # 10) / z1)%Q) in *.
  set (a2 := (inject_Z (xmax - xmin) / 2 * (12 # 10) / z2)%Q) in *.
  set (b1 := ((ymax - ymin) / 2 * (12 # 10) / z1)%Q) in *.
  set (b2 := ((ymax - ymin) / 2 * (12 # 10) / z2)%Q) in *.
  clearbody c1 c2 a1 a2 b1 b2. repeat split; lra.
Qed.

Lemma zoom_in_shrinks_witness :
  range_within (fst (viewport one_edge_pos 2))
               (fst (viewport one_edge_pos 1)) /\
  range_within (snd (viewport one_edge_pos 2))
               (snd (viewport one_edge_pos 1)).
Proof.
  apply (zoom_in_shrinks one_edge_pos 1 2).
  - reflexivity.
  - discriminate.
Defined.

(** ** The traces *)

Lemma pyval_eqb_spec (a b : pyval) : reflect (a = b) (pyval_eqb a b).
Proof.
  destruct a as [|s], b as [|t]; cbn [pyval_eqb]; try (constructor; congruence).
  destruct (String.eqb_spec s t); constructor; congruence.
Qed.

Lemma pos_at_coord (pos : Pos) (n : string) (p : Z * Q) :
  pos_at pos n = Ok p -> coord pos n = p.
Proof.
  unfold pos_at, coord. destruct (sget n pos); intros H; now inversion H.
Qed.

Lemma with_domain_cons dom n a nodes :
  with_domain dom ((n, a) :: nodes) =
  if pyval_eqb (domain a) dom then n :: with_domain dom nodes
  else with_domain dom nodes.
Proof.
  unfold with_domain. cbn [filter snd]. now destruct (pyval_eqb (domain a) dom).
Qed.

Lemma more_points_app short_names pos cur n ns :
  more_points short_names pos (more_points short_names pos cur [n]) ns
  = more_points short_names pos cur (n :: ns).
Proof.
  unfold more_points. cbn [pts_x pts_y pts_text map].
  now rewrite <- !app_assoc.
Qed.

Lemma group_by_domain_get (short_names : bool) (pos : Pos)
  (nodes : list (string * NodeAttrs)) : forall acc groups dom,
  group_by_domain short_names pos nodes acc = Ok groups ->
  dict_get pyval_eqb dom groups =
  match with_domain dom nodes with
  | [] => dict_get pyval_eqb dom acc
  | ns => Some (more_points short_names pos (points_of dom acc) ns)
  end.
Proof.
  induction nodes as [|[n a] nodes IH]; intros acc groups dom H.
  - inversion H; subst. reflexivity.
  - cbn [group_by_domain] in H.
    destruct (pos_at pos n) as [p|] eqn:Ep; [|discriminate]. cbn [bind] in H.
    rewrite (IH _ _ dom H), with_domain_cons. clear IH H.
    fold (points_of (domain a) acc). rewrite <- (pos_at_coord _ _ _ Ep).
    change {| pts_x := pts_x (points_of (domain a) acc) ++ [fst (coord pos n)];
              pts_y := pts_y (points_of (domain a) acc) ++ [snd (coord pos n)];
              pts_text := pts_text (points_of (domain a) acc)
                          ++ [label short_names n] |}
      with (more_points short_names pos (points_of (domain a) acc) [n]).
    set (cur1 := more_points short_names pos (points_of (domain a) acc) [n]).
    destruct (pyval_eqb_spec (domain a) dom) as [<-|Hne].
    + assert (Hg : dict_get pyval_eqb (domain a)
                     (dict_set pyval_eqb (domain a) cur1 acc) = Some cur1)
        by apply (dict_get_set_same pyval_eqb pyval_eqb_spec).
      unfold points_of at 1. rewrite Hg.
      destruct (with_domain (domain a) nodes); [reflexivity|].
      unfold cur1. now rewrite more_points_app.
    + assert (Hg : dict_get pyval_eqb dom
                     (dict_set pyval_eqb (domain a) cur1 acc)
                   = dict_get pyval_eqb dom acc)
        by (apply (dict_get_set_other pyval_eqb pyval_eqb_spec); exact Hne).
      unfold points_of at 1. rewrite Hg. reflexivity.
Qed.

Lemma group_by_domain_NoDup (short_names : bool) (pos : Pos)
  (nodes : list (string * NodeAttrs)) : forall acc groups,
  group_by_domain short_names pos nodes acc = Ok groups ->
  NoDup (map fst acc) -> NoDup (map fst groups).
Proof.
  induction nodes as [|[n a] nodes IH]; intros acc groups H Hnd.
  - inversion H; subst. exact Hnd.
  - cbn [group_by_domain] in H.
    destruct (pos_at pos n) as [p|]; [|discriminate]. cbn [bind] in H.
    apply (IH _ _ H). apply (dict_set_NoDup pyval_eqb pyval_eqb_spec), Hnd.
Qed.

Lemma render_inv G pos short_names initial_zoom fig :
  render G pos short_names initial_zoom = Ok fig ->
  exists et groups,
    make_edge_trace pos (edges G) {| edge_x := []; edge_y := [] |} = Ok et /\
    group_by_domain short_names pos (_node G) [] = Ok groups /\
    edge_trace fig = et /\ node_traces fig = map make_node_trace groups.
Proof.
  unfold render. destruct (Qeq_bool initial_zoom 0); [discriminate|].
  destruct (viewport pos initial_zoom) as [xr yr].
  destruct (make_edge_trace pos (edges G) _) as [et|]; [|discriminate].
  cbn [bind].
  destruct (group_by_domain short_names pos (_node G) []) as [groups|];
    [|discriminate].
  cbn [bind]. intros H. inversion H. exists et, groups. now repeat split.
Qed.

(** X15. The figure has one node trace for each domain that occurs in
    the graph and no other: the names of the traces are distinct, and the
    trace of a domain lists the nodes of that domain in insertion order,
    each with its position and its label, in the colour of the domain. *)
Theorem one_trace_per_domain
  (G : DiGraph) (pos : Pos) (short_names : bool) (initial_zoom : Q)
  (fig : Figure) :
  render G pos short_names initial_zoom = Ok fig ->
  NoDup (map name (node_traces fig)) /\
  forall dom,
    match with_domain dom (_node G) with
    | [] => ~ In dom (map name (node_traces fig))
    | ns =>
        exists t,
          In t (node_traces fig) /\ name t = dom /\
          text t = map (label short_names) ns /\
          x t = map (fun n => fst (coord pos n)) ns /\
          y t = map (fun n => snd (coord pos n)) ns /\
          marker_color t = color_of dom
    end.
Proof.
  intros Hr. destruct (render_inv _ _ _ _ _ Hr) as (et & groups & _ & Hg & _ & Ht).
  assert (Hnames : map name (node_traces fig) = map fst groups).
  { rewrite Ht, map_map. reflexivity. }
  rewrite Hnames. split.
  - eapply group_by_domain_NoDup; [exact Hg | constructor].
  - intros dom. pose proof (group_by_domain_get _ _ _ _ _ dom Hg) as Hd.
    destruct (with_domain dom (_node G)) as [|n ns].
    + cbn [dict_get] in Hd.
      now apply (dict_get_None_keys pyval_eqb pyval_eqb_spec).
    + apply (dict_get_In pyval_eqb pyval_eqb_spec) in Hd.
      eexists. split; [rewrite Ht; apply in_map; exact Hd|].
      now repeat split.
Qed.

Lemma one_trace_per_domain_witness :
  exists fig,
    render one_edge_graph one_edge_pos true 1 = Ok fig /\
    NoDup (map name (node_traces fig)) /\
    forall dom,
      match with_domain dom (_node one_edge_graph) with
      | [] => ~ In dom (map name (node_traces fig))
      | ns =>
          exists t,
            In t (node_traces fig) /\ name t = dom /\
            text t = map (label true) ns /\
            x t = map (fun n => fst (coord one_edge_pos n)) ns /\
            y t = map (fun n => snd (coord one_edge_pos n)) ns /\
            marker_color t = color_of dom
      end.
Proof.
  eexists. split; [reflexivity|].
  exact (one_trace_per_domain one_edge_graph one_edge_pos true 1 _ eq_refl).
Defined.

Lemma make_edge_trace_spec (pos : Pos) (es : list (string * string)) :
  forall acc et,
    make_edge_trace pos es acc = Ok et ->
    edge_x et = edge_x acc ++
      flat_map (fun e => [Some (fst (coord pos (fst e)));
                          Some (fst (coord pos (snd e))); None]) es /\
    edge_y et = edge_y acc ++
      flat_map (fun e => [Some (snd (coord pos (fst e)));
                          Some (snd (coord pos (snd e))); None]) es.
Proof.
  induction es as [|[u v] es IH]; intros acc et H.
  - inversion H; subst. cbn [flat_map]. now rewrite !app_nil_r.
  - cbn [make_edge_trace] in H.
    destruct (pos_at pos u) as [p0|] eqn:E0; [|discriminate]. cbn [bind] in H.
    destruct (pos_at pos v) as [p1|] eqn:E1; [|discriminate]. cbn [bind] in H.
    destruct (IH _ _ H) as [Hx Hy]. cbn [edge_x edge_y] in Hx, Hy.
    rewrite Hx, Hy. cbn [flat_map fst snd].
    rewrite (pos_at_coord _ _ _ E0), (pos_at_coord _ _ _ E1).
    now rewrite <- !app_assoc.
Qed.

(** X16. The edge trace is one polyline: for each edge of the graph, in
    the order of [G.edges()], the position of its source, the position of
    its target and a break, on both axes. *)
Theorem edge_trace_is_the_edges
  (G : DiGraph) (pos : Pos) (short_names : bool) (initial_zoom : Q)
  (fig : Figure) :
  render G pos short_names initial_zoom = Ok fig ->
  edge_x (edge_trace fig) =
    flat_map (fun e => [Some (fst (coord pos (fst e)));
                        Some (fst (coord pos (snd e))); None]) (edges G) /\
  edge_y (edge_trace fig) =
    flat_map (fun e => [Some (snd (coord pos (fst e)));
                        Some (snd (coord pos (snd e))); None]) (edges G) /\
  List.length (edge_x (edge_trace fig)) = (3 * List.length (edges G))%nat.
Proof.
  intros Hr. destruct (render_inv _ _ _ _ _ Hr) as (et & groups & He & _ & -> & _).
  destruct (make_edge_trace_spec _ _ _ _ He) as [Hx Hy].
  cbn [edge_x edge_y app] in Hx, Hy. split; [exact Hx|]. split; [exact Hy|].
  rewrite Hx. clear. induction (edges G) as [|e es IH]; [reflexivity|].
  cbn [flat_map app List.length]. rewrite IH. lia.
Qed.

Lemma edge_trace_is_the_edges_witness :
  exists fig,
    render one_edge_graph one_edge_pos true 1 = Ok fig /\
    edge_x (edge_trace fig) = [Some 0; Some 1; None].
Proof.
  eexists. split; [reflexivity|].
  exact (proj1 (edge_trace_is_the_edges one_edge_graph one_edge_pos true 1 _
                  eq_refl)).
Defined.

(** ** Labels *)

Lemma split_nonempty (sep : ascii) (s : string) : split sep s <> [].
Proof.
  destruct s as [|c s]; cbn [split]; [discriminate|].
  destruct (Ascii.eqb c sep); [discriminate|].
  destruct (split sep s); discriminate.
Qed.

Lemma split_join (sep : ascii) (s : string) :
  String.concat (String sep EmptyString) (split sep s) = s.
Proof.
  induction s as [|c s IH]; cbn [split]; [reflexivity|].
  pose proof (split_nonempty sep s) as Hn.
  destruct (Ascii.eqb_spec c sep) as [->|Hne].
  - destruct (split sep s) as [|p ps]; [congruence|].
    change (String sep (String.concat (String sep EmptyString) (p :: ps))
            = String sep s).
    now rewrite IH.
  - destruct (split sep s) as [|p [|q ps]]; [congruence| |].
    + cbn [String.concat] in *. now rewrite IH.
    + change (String c (String.concat (String sep EmptyString) (p :: q :: ps))
              = String c s).
      now rewrite IH.
Qed.

Lemma split_pieces (sep : ascii) (s : string) :
  Forall (fun p => ~ In sep (list_ascii_of_string p)) (split sep s).
Proof.
  induction s as [|c s IH]; cbn [split].
  - constructor; [intros [] | constructor].
  - destruct (Ascii.eqb_spec c sep) as [->|Hne].
    + constructor; [intros [] | exact IH].
    + destruct (split sep s) as [|p ps].
      * constructor; [|constructor]. cbn. intros [E|[]]. congruence.
      * inversion IH as [|? ? Hp Hps]; subst. constructor; [|exact Hps].
        cbn [list_ascii_of_string]. intros [E|H]; [congruence | now apply Hp].
Qed.

Lemma split_dot_free (sep : ascii) (s : string) :
  ~ In sep (list_ascii_of_string s) -> split sep s = [s].
Proof.
  induction s as [|c s IH]; cbn [split list_ascii_of_string]; [reflexivity|].
  intros H. destruct (Ascii.eqb_spec c sep) as [->|Hne].
  - exfalso. apply H. now left.
  - rewrite IH; [reflexivity|]. intros Hin. apply H. now right.
Qed.

Lemma split_append (sep : ascii) (p q : string) :
  split sep (p ++ String sep q)%string = split sep p ++ split sep q.
Proof.
  induction p as [|c p IH]; cbn [String.append split].
  - now rewrite Ascii.eqb_refl.
  - rewrite IH. pose proof (split_nonempty sep p) as Hn.
    destruct (Ascii.eqb c sep); [reflexivity|].
    destruct (split sep p) as [|x xs]; [congruence | reflexivity].
Qed.

Lemma last_app_nonempty {A : Type} (l1 l2 : list A) (d : A) :
  l2 <> [] -> last (l1 ++ l2) d = last l2 d.
Proof.
  intros H. induction l1 as [|a l1 IH]; [reflexivity|].
  cbn [app last]. destruct (l1 ++ l2) eqn:E; [|exact IH].
  apply app_eq_nil in E. tauto.
Qed.

Lemma append_assoc (a b c : string) :
  ((a ++ b) ++ c)%string = (a ++ (b ++ c))%string.
Proof.
  induction a as [|x a IH]; cbn [String.append]; [reflexivity | now rewrite IH].
Qed.

Lemma concat_last (sep : string) (l : list string) (q : string) :
  l <> [] ->
  String.concat sep (l ++ [q]) = (String.concat sep l ++ sep ++ q)%string.
Proof.
  induction l as [|x l IH]; intros H; [congruence|].
  destruct l as [|y l]; [reflexivity|].
  change (String.concat sep ((x :: y :: l) ++ [q]))
    with (x ++ sep ++ String.concat sep ((y :: l) ++ [q]))%string.
  change (String.concat sep (x :: y :: l))
    with (x ++ sep ++ String.concat sep (y :: l))%string.
  rewrite IH by discriminate. now rewrite !append_assoc.
Qed.

Lemma last_In {A : Type} (l : list A) (d : A) : l <> [] -> In (last l d) l.
Proof.
  induction l as [|a [|b l] IH]; intros H; [congruence | now left |].
  right. apply IH. discriminate.
Qed.

(** X17. The label of a node: the full name unless short names are asked
    for, and then the part of the name after its last dot, which is the
    whole name when it has no dot.  The short label has no dot, and the
    name is the short label alone or a prefix ending in a dot followed by
    the short label. *)
Theorem short_label (s : string) :
  label false s = s /\
  dot_free (label true s) /\
  (exists p, s = (p ++ label true s)%string /\
             (p = "" \/ exists p', p = (p' ++ ".")%string)) /\
  (forall p q, dot_free q -> label true (p ++ "." ++ q)%string = q) /\
  (dot_free s -> label true s = s).
Proof.
  split; [reflexivity|]. unfold label, dot_free.
  pose proof (split_nonempty "."%char s) as Hn.
  pose proof (split_pieces "."%char s) as Hp.
  pose proof (split_join "."%char s) as Hj.
  pose proof (app_removelast_last "" Hn) as Hl.
  split; [|split; [|split]].
  - rewrite Forall_forall in Hp. apply Hp. now apply last_In.
  - rewrite Hl in Hj. destruct (removelast (split "." s)) as [|x l] eqn:E.
    + exists "". split; [now rewrite <- Hj at 1 | now left].
    + rewrite concat_last in Hj by discriminate.
      exists (String.concat "." (x :: l) ++ ".")%string. split.
      * rewrite <- Hj at 1. now rewrite append_assoc.
      * right. eexists. reflexivity.
  - intros p q Hq. change ("." ++ q)%string with (String "." q).
    rewrite split_append, last_app_nonempty by apply split_nonempty.
    now rewrite split_dot_free.
  - intros Hs. now rewrite split_dot_free.
Qed.

(** The scenario of the specification. *)
Example short_label_TABLE1 : label true "db.schema.TABLE1" = "TABLE1".
Proof. reflexivity. Qed.

(** ** A repeated row *)

Lemma sset_same {V : Type} (k : string) (v : V) (d : list (string * V)) :
  sget k d = Some v -> sset k v d = d.
Proof.
  induction d as [|[k0 v0] d IH]; cbn [sget sset dict_get dict_set]; [discriminate|].
  destruct (String.eqb_spec k k0) as [->|Hne].
  - intros H. now inversion H.
  - intros H. f_equal. now apply IH.
Qed.

Lemma add_or_update_again s dom dist G a :
  sget s (_node G) = Some a -> distance a <= dist ->
  add_or_update (PyStr s) dom dist G = Ok G.
Proof.
  intros Hs Hle. unfold add_or_update, in_nodes, smem, dict_mem, min_distance.
  fold (@sget NodeAttrs). rewrite Hs. f_equal.
  rewrite Z.min_l by exact Hle.
  replace {| domain := domain a; distance := distance a |} with a by now destruct a.
  rewrite (sset_same _ _ _ Hs). now destruct G.
Qed.

Lemma connect_again a b G vs :
  sget a (_succ G) = Some vs -> In b vs -> connect a b G = G.
Proof.
  intros Hs Hb. unfold connect. rewrite Hs.
  assert (E : existsb (String.eqb b) vs = true)
    by (apply existsb_exists; exists b; split; [exact Hb | apply String.eqb_refl]).
  rewrite E, (sset_same _ _ _ Hs). now destruct G.
Qed.

Lemma connect_succ a b G :
  exists vs, sget a (_succ (connect a b G)) = Some vs /\ In b vs.
Proof.
  unfold connect. cbn [_succ]. destruct (sget a (_succ G)) as [vs0|] eqn:E.
  - eexists. split; [apply sget_sset_same|].
    destruct (existsb (String.eqb b) vs0) eqn:Ex.
    + apply existsb_exists in Ex. destruct Ex as (y & Hy & Heq).
      apply String.eqb_eq in Heq. now subst.
    + apply in_app_iff. right. now left.
  - exists [b]. split; [apply sget_sset_same | now left].
Qed.

Lemma add_or_update_bound s dom dist G G' :
  add_or_update (PyStr s) dom dist G = Ok G' ->
  exists a, sget s (_node G') = Some a /\ distance a <= dist.
Proof.
  intros E. rewrite (add_or_update_lookup _ _ _ _ _ s E), String.eqb_refl.
  eexists. split; [reflexivity|].
  destruct (sget s (_node G)); cbn [reconciled distance]; lia.
Qed.

Lemma add_or_update_lowers s dom dist G G' n a c :
  add_or_update (PyStr s) dom dist G = Ok G' ->
  sget n (_node G) = Some a -> distance a <= c ->
  exists a', sget n (_node G') = Some a' /\ distance a' <= c.
Proof.
  intros E Hn Hc. rewrite (add_or_update_lookup _ _ _ _ _ n E), Hn.
  destruct (String.eqb n s); eexists; (split; [reflexivity|]);
    cbn [reconciled distance]; lia.
Qed.

(** X18. A row that has been processed can be processed again without
    changing the graph: the distances are already at most what the row
    claims, the domains are kept, and the edge is there.  Only the printed
    line of a skipped row is printed again. *)
Theorem repeated_row_changes_nothing
  (json_loads : string -> decoded) (ut : pyval) (idx idx' : Z) (row : Row)
  (G G1 : DiGraph) (out out1 out' : list string) :
  process_row json_loads ut (idx, row) (G, out) = Ok (G1, out1) ->
  graph_of (process_row json_loads ut (idx', row) (G1, out')) = Ok G1.
Proof.
  intros H. apply process_row_outcome in H.
  inversion H as [e Es | so a da G2 e Es Ea Eda E1 Et
                 | so a da G2 to b db G3 Es Ea Eda E1 Et Eb Edb E2]; subst.
  - assert (H' : process_row json_loads ut (idx', row) (G1, out')
                 = Ok (G1, out' ++ [source_error idx' e]))
      by (apply process_row_outcome; now constructor).
    now rewrite H'.
  - destruct (add_or_update_bound _ _ _ _ _ E1) as (x & Hx & Hle).
    assert (H' : process_row json_loads ut (idx', row) (G1, out')
                 = Ok (G1, out' ++ [target_error idx' e])).
    { apply process_row_outcome. eapply target_skipped; eauto.
      eapply add_or_update_again; eauto. }
    now rewrite H'.
  - destruct (add_or_update_bound _ _ _ _ _ E1) as (x & Hx & Hle).
    destruct (add_or_update_lowers _ _ _ _ _ _ _ _ E2 Hx Hle) as (x' & Hx' & Hle').
    destruct (add_or_update_bound _ _ _ _ _ E2) as (y & Hy & Hley).
    destruct (connect_succ a b G3) as (vs & Hvs & Hb).
    assert (H' : process_row json_loads ut (idx', row) (connect a b G3, out')
                 = Ok (connect a b (connect a b G3), out')).
    { apply process_row_outcome.
      eapply edge_added; eauto; eapply add_or_update_again; eauto. }
    rewrite H'. cbn [graph_of bind fst]. f_equal.
    eapply connect_again; eauto.
Qed.

Lemma repeated_row_changes_nothing_witness :
  graph_of (process_row flat_loads (PyStr "T") (1, row (obj "S" "MODEL") T 1)
              (one_edge_graph, [])) = Ok one_edge_graph.
Proof.
  exact (repeated_row_changes_nothing flat_loads (PyStr "T") 0 1
           (row (obj "S" "MODEL") T 1) (seed_graph "T" (PyStr "TABLE"))
           one_edge_graph [] [] [] eq_refl).
Defined.

(** ** The index labels *)

Lemma process_row_labels json_loads ut i1 i2 r G out1 out2 :
  graph_of (process_row json_loads ut (i1, r) (G, out1))
  = graph_of (process_row json_loads ut (i2, r) (G, out2)).
Proof.
  unfold process_row, graph_of.
  destruct (json_loads (SOURCE_OBJECT r)) as [so|e]; [|reflexivity].
  destruct (get so "name" PyNone) as [src_id|]; [|reflexivity]. cbn [bind].
  destruct (get so "domain" Unknown) as [da|]; [|reflexivity]. cbn [bind].
  destruct (add_or_update src_id da (DISTANCE r) G) as [G1|]; [|reflexivity].
  cbn [bind].
  destruct (json_loads (TARGET_OBJECT r)) as [to|e]; [|reflexivity].
  destruct (get to "name" PyNone) as [tgt_id|]; [|reflexivity]. cbn [bind].
  destruct (get to "domain" Unknown) as [db|]; [|reflexivity]. cbn [bind].
  destruct (add_or_update tgt_id db _ G1) as [G2|]; [|reflexivity]. cbn [bind].
  destruct (add_edge src_id tgt_id G2); reflexivity.
Qed.

Lemma process_rows_labels json_loads ut rows1 : forall rows2 G out1 out2,
  map snd rows1 = map snd rows2 ->
  graph_of (process_rows json_loads ut rows1 (G, out1))
  = graph_of (process_rows json_loads ut rows2 (G, out2)).
Proof.
  induction rows1 as [|[i1 r1] rows1 IH]; intros [|[i2 r2] rows2] G out1 out2 H;
    try discriminate; [reflexivity|].
  cbn [map snd] in H. inversion H; subst r2. cbn [process_rows].
  pose proof (process_row_labels json_loads ut i1 i2 r1 G out1 out2) as Hs.
  unfold graph_of in Hs.
  destruct (process_row json_loads ut (i1, r1) (G, out1)) as [[G1 o1]|e1],
           (process_row json_loads ut (i2, r1) (G, out2)) as [[G2 o2]|e2];
    cbn [bind fst] in Hs |- *; inversion Hs; subst; [now apply IH | reflexivity].
Qed.

(** X19. The index labels of the table are used for the printed lines
    only: two tables with the same rows under different labels give the
    same graph, or raise the same exception. *)
Theorem index_labels_are_only_printed
  (json_loads : string -> decoded) (df1 df2 : DataFrame) :
  map snd df1 = map snd df2 ->
  graph_of (build_graph json_loads df1) = graph_of (build_graph json_loads df2).
Proof.
  intros H. unfold build_graph, ultimate_target.
  assert (Hi : iloc0 df1 = iloc0 df2).
  { destruct df1 as [|[i1 r1] ?], df2 as [|[i2 r2] ?]; try discriminate;
      [reflexivity|]. cbn [map snd] in H. now inversion H. }
  rewrite Hi. destruct (iloc0 df2) as [r|]; [|reflexivity]. cbn [bind].
  destruct (json_loads (TARGET_OBJECT r)) as [j|]; [|reflexivity]. cbn [bind].
  destruct (subscript j "name") as [ut|]; [|reflexivity]. cbn [bind].
  destruct (get j "domain" Unknown) as [dom|]; [|reflexivity]. cbn [bind].
  destruct (add_node ut dom 0 empty_graph) as [G0|]; [|reflexivity]. cbn [bind].
  now apply process_rows_labels.
Qed.

Lemma index_labels_are_only_printed_witness :
  graph_of (build_graph flat_loads one_edge)
  = graph_of (build_graph flat_loads [(7, row (obj "S" "MODEL") T 1)]).
Proof.
  exact (index_labels_are_only_printed flat_loads one_edge
           [(7, row (obj "S" "MODEL") T 1)] eq_refl).
Defined.

(** ** The shape of the columns *)

(** X20. A column is centred on 0 and its nodes are one unit apart: the
    heights of the [i]-th node from the top and of the [i]-th from the
    bottom add up to 0, and each node is exactly 1 above the next. *)
Theorem column_spacing (n i : nat) :
  (i < n)%nat ->
  (nth i (column_ys n) 0 + nth (n - 1 - i) (column_ys n) 0 == 0)%Q /\
  ((S i < n)%nat ->
   (nth i (column_ys n) 0 - nth (S i) (column_ys n) 0 == 1)%Q).
Proof.
  intros Hi. split.
  - rewrite (column_ys_nth n i Hi), (column_ys_nth n (n - 1 - i)) by lia.
    assert (E : (Qnat (n - 1 - i) == Qnat n - 1 - Qnat i)%Q).
    { unfold Qnat. rewrite !Nat2Z.inj_sub by lia.
      unfold Z.sub. rewrite !inject_Z_plus, !inject_Z_opp. cbn. ring. }
    rewrite E. field.
  - intros HS. rewrite (column_ys_nth n i Hi), (column_ys_nth n (S i) HS), Qnat_S.
    field.
Qed.

Lemma column_spacing_witness :
  (nth 0 (column_ys 3) 0 + nth (3 - 1 - 0) (column_ys 3) 0 == 0)%Q /\
  ((1 < 3)%nat -> (nth 0 (column_ys 3) 0 - nth 1 (column_ys 3) 0 == 1)%Q).
Proof.
  apply (column_spacing 3 0). lia.
Defined.

(** X21. No node is placed left of x = 0, and the column at x = 0 is
    never empty: it holds the nodes with the largest distance. *)
Theorem columns_start_at_zero
  (json_loads : string -> decoded) (df : DataFrame)
  (G : DiGraph) (out : list string) (pos : Pos) :
  build_graph json_loads df = Ok (G, out) ->
  layout G = Ok pos ->
  (forall v p, sget v pos = Some p -> 0 <= fst p) /\
  exists v y, sget v pos = Some (0, y).
Proof.
  intros Hb Hl.
  destruct (build_graph_facts _ _ _ _ Hb) as (t & a & _ & Ht & _ & Hnd & _).
  destruct (max_distance_total _ _ _ Ht) as (M & HM).
  destruct (py_max_spec _ _ HM) as [Hin Hall]. rewrite Forall_forall in Hall.
  split.
  - intros v p Hp. destruct (sget v (_node G)) as [av|] eqn:Ev.
    + destruct (layout_node G Hnd M pos v av HM Hl Ev) as (y & Hy).
      rewrite Hp in Hy. inversion Hy. cbn [fst].
      assert (distance av <= M).
      { apply Hall. apply in_map_iff. exists (v, av). split; [reflexivity|].
        apply (dict_get_In String.eqb String.eqb_spec), Ev. }
      lia.
    + rewrite (layout_only_nodes G pos v Hnd Hl Ev) in Hp. discriminate.
  - apply in_map_iff in Hin. destruct Hin as ([v av] & Hd & Hv).
    cbn [snd] in Hd.
    assert (Ev : sget v (_node G) = Some av)
      by (apply (dict_In_get String.eqb String.eqb_spec); assumption).
    destruct (layout_node G Hnd M pos v av HM Hl Ev) as (y & Hy).
    exists v, y. rewrite Hy, Hd, Z.sub_diag. reflexivity.
Qed.

Lemma columns_start_at_zero_witness :
  exists pos,
    layout three_sources_graph = Ok pos /\
    (forall v p, sget v pos = Some p -> 0 <= fst p) /\
    exists v y, sget v pos = Some (0, y).
Proof.
  eexists. split; [reflexivity|].
  exact (columns_start_at_zero flat_loads three_sources three_sources_graph
           [] _ eq_refl eq_refl).
Defined.

(** ** Instances of the unconditional statements *)

Lemma short_label_witness :
  label true ("db.schema" ++ "." ++ "TABLE1")%string = "TABLE1".
Proof.
  apply (proj1 (proj2 (proj2 (proj2 (short_label "TABLE1"))))).
  unfold dot_free. cbn [list_ascii_of_string In].
  intros H. repeat (destruct H as [H|H]; [discriminate H|]). exact H.
Defined.
